(** * KiskisAgent: the command supervisor of KAThread.cpp

    A shallow embedding of [KAThread] (src/agent/KiskisAgent/src/KAThread.cpp).
    The member variables of the class are a record, every member function is
    a function in a small state-and-trace monad over that record, and what the
    process does to the outside (messages handed to the queue, signals,
    identity switches, capture files, the shell) is recorded as a trace of
    effects.  What the outside does to the process (clock readings, results of
    select and read, results of fork and of the lookups) is an explicit input.

    Conventions.
    - [int] members are [Z], and stand for the [int] as long as they are
      within [INT_MIN] and [INT_MAX]; the [unsigned int] arithmetic of the
      timers is written with its reduction modulo 2^32 ([wrap32]); buffers
      are taken to be shorter than 2^32 bytes, so that
      [unsigned int outBuffsize] is the size.
    - [std::string] is [string]; [size], [substr], [empty] and [c_str] are in
      module [Str].
    - [while(!messageQueue->try_send(..));] is recorded as one [try_send]
      effect: the message it ends up handing to the queue.
    - [writeLog] only writes to the log file; the log lines of
      [threadFunction] are recorded in the trace, each by its level and by
      the text that is the first argument of [setLogData] (the blanks, names
      and pid values that [setLogData] adds to it are left out); the debug
      lines of the other member functions are left out. *)

From Stdlib Require Import ZArith List String Ascii Bool Lia.
From Stdlib Require Import DecimalString.
Import ListNotations.
Local Open Scope string_scope.
Local Open Scope list_scope.
Local Open Scope Z_scope.

(** ** std::string *)

Module Str.

Definition size (s : string) : Z := Z.of_nat (String.length s).

Definition empty (s : string) : bool :=
  match s with
  | EmptyString => true
  | String _ _ => false
  end.

(** [s.substr(pos, n)]; every call site has [pos <= s.size()]. *)
Definition substr (pos n : Z) (s : string) : string :=
  substring (Z.to_nat pos) (Z.to_nat n) s.

(** [string(s.c_str())]: the characters before the first NUL. *)
Fixpoint c_str (s : string) : string :=
  match s with
  | EmptyString => EmptyString
  | String c r => if Ascii.eqb c zero then EmptyString else String c (c_str r)
  end.

End Str.

Definition wrap32 (z : Z) : Z := z mod 2 ^ 32.

(** ** KACommand *)

(** Modelled from the spec: the class KACommand is not among the sources.
    These are the getters KAThread.cpp calls, with the types of the Command
    of the specification; modes are the strings the code compares them
    with. *)
Record KACommand := {
  getUuid : string;
  getTaskUuid : string;
  getRequestSequenceNumber : Z;
  getSource : string;
  getProgram : string;
  getArguments : list string;
  getEnvironment : list (string * string);
  getWorkingDirectory : string;
  getRunAs : string;
  getStandardOutput : string;
  getStandardError : string;
  getStandardOutputPath : string;
  getStandardErrPath : string;
  getTimeout : Z
}.

(** ** KAResponsePack *)

(** Modelled from the spec: the class KAResponsePack is not among the
    sources; its constructors are pure functions of the correlation fields
    and the payload.  A message is represented by the constructor that built
    it and that constructor's arguments, in call order.  The fifth and sixth
    arguments of [createResponseMessage] and [createTimeoutMessage] are named
    after what the call sites in KAThread.cpp pass there: [geterrBuff()] and
    then [getoutBuff()]. *)
Inductive Message :=
| createResponseMessage (uuid : string) (pid requestSeqNum responseSeqNum : Z)
    (error output source taskuuid : string)
| createTimeoutMessage (uuid : string) (pid requestSeqNum responseSeqNum : Z)
    (error output source taskuuid : string)
| createExitMessage (uuid : string) (pid requestSeqNum responseSeqNum : Z)
    (source taskuuid : string) (exitcode : Z).

Definition responseCount (m : Message) : Z :=
  match m with
  | createResponseMessage _ _ _ n _ _ _ _ => n
  | createTimeoutMessage _ _ _ n _ _ _ _ => n
  | createExitMessage _ _ _ n _ _ _ => n
  end.

Definition messageUuid (m : Message) : string :=
  match m with
  | createResponseMessage u _ _ _ _ _ _ _ => u
  | createTimeoutMessage u _ _ _ _ _ _ _ => u
  | createExitMessage u _ _ _ _ _ _ => u
  end.

(** stderr payload *)
Definition stdErr (m : Message) : string :=
  match m with
  | createResponseMessage _ _ _ _ e _ _ _ => e
  | createTimeoutMessage _ _ _ _ e _ _ _ => e
  | createExitMessage _ _ _ _ _ _ _ => ""
  end.

(** stdout payload *)
Definition stdOut (m : Message) : string :=
  match m with
  | createResponseMessage _ _ _ _ _ o _ _ => o
  | createTimeoutMessage _ _ _ _ _ o _ _ => o
  | createExitMessage _ _ _ _ _ _ _ => ""
  end.

Definition isProgress (m : Message) : bool :=
  match m with createResponseMessage _ _ _ _ _ _ _ _ => true | _ => false end.

Definition isTimeout (m : Message) : bool :=
  match m with createTimeoutMessage _ _ _ _ _ _ _ _ => true | _ => false end.

Definition isExit (m : Message) : bool :=
  match m with createExitMessage _ _ _ _ _ _ _ => true | _ => false end.

Definition exitCode (m : Message) : option Z :=
  match m with createExitMessage _ _ _ _ _ _ c => Some c | _ => None end.

(** ** Effects on the outside of the process *)

Inductive Effect :=
| try_send (m : Message)
| kill (pid : Z)
| doSetuid (euid : Z)
| undoSetuid (ruid : Z)
| chdir (dir : string)
| appendFile (identity path data : string)
| fork (result : Z)
| system (cmd : string)
| writeLog (level : Z) (text : string)
| cout (text : string).

(** The messages handed to the queue, in order. *)
Fixpoint sent (tr : list Effect) : list Message :=
  match tr with
  | [] => []
  | try_send m :: tr' => m :: sent tr'
  | _ :: tr' => sent tr'
  end.

Definition isSetuid (e : Effect) : bool :=
  match e with doSetuid _ => true | _ => false end.

(** ** KAStreamReader *)

(** Modelled from the spec: the class KAStreamReader is not among the
    sources.  These are the members KAThread.cpp reads or sets through the
    getters and setters: the mode tag, the capture path, the identity, the
    read buffer, and the stored results of the last select and the last
    read.  What a select or a read answers is an input of the loop. *)
Record KAStreamReader := {
  mode : string;
  path : string;
  identity : string;
  buffer : string;
  selectResult : Z;
  readResult : Z;
  timeout : Z
}.

Definition setMode (v : string) (x : KAStreamReader) : KAStreamReader :=
  {| mode := v; path := path x; identity := identity x; buffer := buffer x;
     selectResult := selectResult x; readResult := readResult x;
     timeout := timeout x |}.
Definition setPath (v : string) (x : KAStreamReader) : KAStreamReader :=
  {| mode := mode x; path := v; identity := identity x; buffer := buffer x;
     selectResult := selectResult x; readResult := readResult x;
     timeout := timeout x |}.
Definition setIdentity (v : string) (x : KAStreamReader) : KAStreamReader :=
  {| mode := mode x; path := path x; identity := v; buffer := buffer x;
     selectResult := selectResult x; readResult := readResult x;
     timeout := timeout x |}.
Definition setBuffer (v : string) (x : KAStreamReader) : KAStreamReader :=
  {| mode := mode x; path := path x; identity := identity x; buffer := v;
     selectResult := selectResult x; readResult := readResult x;
     timeout := timeout x |}.
Definition setSelectResult (v : Z) (x : KAStreamReader) : KAStreamReader :=
  {| mode := mode x; path := path x; identity := identity x;
     buffer := buffer x; selectResult := v; readResult := readResult x;
     timeout := timeout x |}.
Definition setReadResult (v : Z) (x : KAStreamReader) : KAStreamReader :=
  {| mode := mode x; path := path x; identity := identity x;
     buffer := buffer x; selectResult := selectResult x; readResult := v;
     timeout := timeout x |}.
Definition setTimeout (v : Z) (x : KAStreamReader) : KAStreamReader :=
  {| mode := mode x; path := path x; identity := identity x;
     buffer := buffer x; selectResult := selectResult x;
     readResult := readResult x; timeout := v |}.


Definition clearBuffer (x : KAStreamReader) : KAStreamReader := setBuffer "" x.

(** ** The members of KAThread *)

Record KAThread := {
  CWDERR : bool;
  UIDERR : bool;
  responsecount : Z;
  ACTFLAG : bool;
  EXITSTATUS : Z;
  processpid : Z;
  outBuff : string;
  errBuff : string;
  outputStream : KAStreamReader;
  errorStream : KAStreamReader;
  argument : string;
  environment : string;
  exec : string;
  ruid : Z;
  euid : Z;
  (** History variable, read by no operation: the number of bytes
      [checkAndWrite] has appended to [errBuff] so far. *)
  errSeen : Z
}.

(** The setters, and updates of the members that have none. *)
Definition setCWDERR (v : bool) (x : KAThread) : KAThread :=
  {| CWDERR := v; UIDERR := UIDERR x; responsecount := responsecount x;
     ACTFLAG := ACTFLAG x; EXITSTATUS := EXITSTATUS x;
     processpid := processpid x; outBuff := outBuff x; errBuff := errBuff x;
     outputStream := outputStream x; errorStream := errorStream x;
     argument := argument x; environment := environment x; exec := exec x;
     ruid := ruid x; euid := euid x; errSeen := errSeen x |}.
Definition setUIDERR (v : bool) (x : KAThread) : KAThread :=
  {| CWDERR := CWDERR x; UIDERR := v; responsecount := responsecount x;
     ACTFLAG := ACTFLAG x; EXITSTATUS := EXITSTATUS x;
     processpid := processpid x; outBuff := outBuff x; errBuff := errBuff x;
     outputStream := outputStream x; errorStream := errorStream x;
     argument := argument x; environment := environment x; exec := exec x;
     ruid := ruid x; euid := euid x; errSeen := errSeen x |}.
Definition setResponsecount (v : Z) (x : KAThread) : KAThread :=
  {| CWDERR := CWDERR x; UIDERR := UIDERR x; responsecount := v;
     ACTFLAG := ACTFLAG x; EXITSTATUS := EXITSTATUS x;
     processpid := processpid x; outBuff := outBuff x; errBuff := errBuff x;
     outputStream := outputStream x; errorStream := errorStream x;
     argument := argument x; environment := environment x; exec := exec x;
     ruid := ruid x; euid := euid x; errSeen := errSeen x |}.
Definition setACTFLAG (v : bool) (x : KAThread) : KAThread :=
  {| CWDERR := CWDERR x; UIDERR := UIDERR x; responsecount := responsecount x;
     ACTFLAG := v; EXITSTATUS := EXITSTATUS x; processpid := processpid x;
     outBuff := outBuff x; errBuff := errBuff x;
     outputStream := outputStream x; errorStream := errorStream x;
     argument := argument x; environment := environment x; exec := exec x;
     ruid := ruid x; euid := euid x; errSeen := errSeen x |}.
Definition setEXITSTATUS (v : Z) (x : KAThread) : KAThread :=
  {| CWDERR := CWDERR x; UIDERR := UIDERR x; responsecount := responsecount x;
     ACTFLAG := ACTFLAG x; EXITSTATUS := v; processpid := processpid x;
     outBuff := outBuff x; errBuff := errBuff x;
     outputStream := outputStream x; errorStream := errorStream x;
     argument := argument x; environment := environment x; exec := exec x;
     ruid := ruid x; euid := euid x; errSeen := errSeen x |}.
Definition setPpid (v : Z) (x : KAThread) : KAThread :=
  {| CWDERR := CWDERR x; UIDERR := UIDERR x; responsecount := responsecount x;
     ACTFLAG := ACTFLAG x; EXITSTATUS := EXITSTATUS x; processpid := v;
     outBuff := outBuff x; errBuff := errBuff x;
     outputStream := outputStream x; errorStream := errorStream x;
     argument := argument x; environment := environment x; exec := exec x;
     ruid := ruid x; euid := euid x; errSeen := errSeen x |}.
Definition setoutBuff (v : string) (x : KAThread) : KAThread :=
  {| CWDERR := CWDERR x; UIDERR := UIDERR x; responsecount := responsecount x;
     ACTFLAG := ACTFLAG x; EXITSTATUS := EXITSTATUS x;
     processpid := processpid x; outBuff := v; errBuff := errBuff x;
     outputStream := outputStream x; errorStream := errorStream x;
     argument := argument x; environment := environment x; exec := exec x;
     ruid := ruid x; euid := euid x; errSeen := errSeen x |}.
Definition seterrBuff (v : string) (x : KAThread) : KAThread :=
  {| CWDERR := CWDERR x; UIDERR := UIDERR x; responsecount := responsecount x;
     ACTFLAG := ACTFLAG x; EXITSTATUS := EXITSTATUS x;
     processpid := processpid x; outBuff := outBuff x; errBuff := v;
     outputStream := outputStream x; errorStream := errorStream x;
     argument := argument x; environment := environment x; exec := exec x;
     ruid := ruid x; euid := euid x; errSeen := errSeen x |}.
Definition setOutputStream (v : KAStreamReader) (x : KAThread) : KAThread :=
  {| CWDERR := CWDERR x; UIDERR := UIDERR x; responsecount := responsecount x;
     ACTFLAG := ACTFLAG x; EXITSTATUS := EXITSTATUS x;
     processpid := processpid x; outBuff := outBuff x; errBuff := errBuff x;
     outputStream := v; errorStream := errorStream x; argument := argument x;
     environment := environment x; exec := exec x; ruid := ruid x;
     euid := euid x; errSeen := errSeen x |}.
Definition setErrorStream (v : KAStreamReader) (x : KAThread) : KAThread :=
  {| CWDERR := CWDERR x; UIDERR := UIDERR x; responsecount := responsecount x;
     ACTFLAG := ACTFLAG x; EXITSTATUS := EXITSTATUS x;
     processpid := processpid x; outBuff := outBuff x; errBuff := errBuff x;
     outputStream := outputStream x; errorStream := v; argument := argument x;
     environment := environment x; exec := exec x; ruid := ruid x;
     euid := euid x; errSeen := errSeen x |}.
Definition setArgument (v : string) (x : KAThread) : KAThread :=
  {| CWDERR := CWDERR x; UIDERR := UIDERR x; responsecount := responsecount x;
     ACTFLAG := ACTFLAG x; EXITSTATUS := EXITSTATUS x;
     processpid := processpid x; outBuff := outBuff x; errBuff := errBuff x;
     outputStream := outputStream x; errorStream := errorStream x;
     argument := v; environment := environment x; exec := exec x;
     ruid := ruid x; euid := euid x; errSeen := errSeen x |}.
Definition setEnvironment (v : string) (x : KAThread) : KAThread :=
  {| CWDERR := CWDERR x; UIDERR := UIDERR x; responsecount := responsecount x;
     ACTFLAG := ACTFLAG x; EXITSTATUS := EXITSTATUS x;
     processpid := processpid x; outBuff := outBuff x; errBuff := errBuff x;
     outputStream := outputStream x; errorStream := errorStream x;
     argument := argument x; environment := v; exec := exec x; ruid := ruid x;
     euid := euid x; errSeen := errSeen x |}.
Definition setExec (v : string) (x : KAThread) : KAThread :=
  {| CWDERR := CWDERR x; UIDERR := UIDERR x; responsecount := responsecount x;
     ACTFLAG := ACTFLAG x; EXITSTATUS := EXITSTATUS x;
     processpid := processpid x; outBuff := outBuff x; errBuff := errBuff x;
     outputStream := outputStream x; errorStream := errorStream x;
     argument := argument x; environment := environment x; exec := v;
     ruid := ruid x; euid := euid x; errSeen := errSeen x |}.
Definition setRuid (v : Z) (x : KAThread) : KAThread :=
  {| CWDERR := CWDERR x; UIDERR := UIDERR x; responsecount := responsecount x;
     ACTFLAG := ACTFLAG x; EXITSTATUS := EXITSTATUS x;
     processpid := processpid x; outBuff := outBuff x; errBuff := errBuff x;
     outputStream := outputStream x; errorStream := errorStream x;
     argument := argument x; environment := environment x; exec := exec x;
     ruid := v; euid := euid x; errSeen := errSeen x |}.
Definition setEuid (v : Z) (x : KAThread) : KAThread :=
  {| CWDERR := CWDERR x; UIDERR := UIDERR x; responsecount := responsecount x;
     ACTFLAG := ACTFLAG x; EXITSTATUS := EXITSTATUS x;
     processpid := processpid x; outBuff := outBuff x; errBuff := errBuff x;
     outputStream := outputStream x; errorStream := errorStream x;
     argument := argument x; environment := environment x; exec := exec x;
     ruid := ruid x; euid := v; errSeen := errSeen x |}.
Definition setErrSeen (v : Z) (x : KAThread) : KAThread :=
  {| CWDERR := CWDERR x; UIDERR := UIDERR x; responsecount := responsecount x;
     ACTFLAG := ACTFLAG x; EXITSTATUS := EXITSTATUS x;
     processpid := processpid x; outBuff := outBuff x; errBuff := errBuff x;
     outputStream := outputStream x; errorStream := errorStream x;
     argument := argument x; environment := environment x; exec := exec x;
     ruid := ruid x; euid := euid x; errSeen := v |}.

(** [KAThread::KAThread()].  The two stream readers are built by their own
    constructor, which is not among the sources: they are arguments.  The
    strings are empty as [std::string] members are; [processpid], [ruid] and
    [euid] are not initialised by the constructor and are arguments too. *)
Definition KAThread_new (out err : KAStreamReader) (ppid r e : Z) : KAThread :=
  {| CWDERR := false; UIDERR := false; responsecount := 1; ACTFLAG := false;
     EXITSTATUS := 0; processpid := ppid; outBuff := ""; errBuff := "";
     outputStream := out; errorStream := err;
     argument := ""; environment := ""; exec := "";
     ruid := r; euid := e; errSeen := 0 |}.

(** ** The monad: state [KAThread], output a trace of effects *)

Definition M (A : Type) : Type := KAThread -> A * KAThread * list Effect.

Definition ret {A} (a : A) : M A := fun st => (a, st, []).

Definition bind {A B} (m : M A) (f : A -> M B) : M B :=
  fun st =>
    let '(a, st1, t1) := m st in
    let '(b, st2, t2) := f a st1 in
    (b, st2, t1 ++ t2).

Definition get : M KAThread := fun st => (st, st, []).
Definition modify (f : KAThread -> KAThread) : M unit := fun st => (tt, f st, []).
Definition emit (e : Effect) : M unit := fun st => (tt, st, [e]).
Definition when (b : bool) (m : M unit) : M unit := if b then m else ret tt.

Notation "x <- m ;; k" := (bind m (fun x => k))
  (at level 61, m at next level, right associativity).
Notation "m ;; k" := (bind m (fun _ => k))
  (at level 61, right associativity).

(** ** createExecString *)

Definition createExecString (command : KACommand) : M string :=
  modify (setExec "") ;;
  st <- get ;;
  let argument' :=
    fold_left (fun acc arg => ((acc ++ arg) ++ " ")%string)
      (getArguments command) (argument st) in
  let environment' :=
    fold_left (fun acc it =>
                 let arg := Str.c_str (fst it) in
                 let env := Str.c_str (snd it) in
                 (((((acc ++ " export ") ++ arg) ++ "=") ++ env) ++ " && ")%string)
      (getEnvironment command) (environment st) in
  modify (setArgument argument') ;;
  modify (setEnvironment environment') ;;
  (if Str.empty environment'
   then modify (setExec ((getProgram command ++ " ") ++ argument')%string)
   else modify (setExec (((environment' ++ getProgram command) ++ " ") ++ argument')%string)) ;;
  st' <- get ;;
  ret (exec st').

(** ** The emission block

    Every emission of buffered data is the same three statements: build the
    message from the current [responsecount], [errBuff] and [outBuff], spin
    on [try_send], add one to [responsecount]. *)

Definition sendCurrent (command : KACommand) : M unit :=
  st <- get ;;
  emit (try_send (createResponseMessage (getUuid command) (processpid st)
                    (getRequestSequenceNumber command) (responsecount st)
                    (errBuff st) (outBuff st)
                    (getSource command) (getTaskUuid command))).

(** [responsecount] is an [int].  Its only arithmetic is
    [responsecount + 1], which the language defines as long as the count is
    below [INT_MAX]: up to there the addition in [Z] is the addition of the
    code, and the statements that follow the count through a run say that
    the count stays in that range. *)
Definition INT_MIN : Z := - 2 ^ 31.
Definition INT_MAX : Z := 2 ^ 31 - 1.

Definition countUp : M unit :=
  modify (fun st => setResponsecount (responsecount st + 1) st).

Definition sendBuffers (command : KACommand) : M unit :=
  sendCurrent command ;; countUp.

Definition isReturn (m : string) : bool :=
  (m =? "CAPTURE_AND_RETURN")%string || (m =? "RETURN")%string.

Definition isSilent (m : string) : bool :=
  (m =? "CAPTURE")%string || (m =? "NO")%string.

Definition clearout : M unit := modify (setoutBuff "").
Definition clearerr : M unit := modify (seterrBuff "").

(** ** lastCheckAndSend *)

Definition lastCheckAndSend (command : KACommand) : M unit :=
  st <- get ;;
  let outBuffsize := Str.size (outBuff st) in
  let errBuffsize := Str.size (errBuff st) in
  if negb (outBuffsize =? 0) || negb (errBuffsize =? 0) then
    if negb (outBuffsize =? 0) && negb (errBuffsize =? 0) then
      if isReturn (getStandardOutput command) && isReturn (getStandardError command)
      then sendBuffers command ;; clearout ;; clearerr
      else if isReturn (getStandardOutput command)
      then clearerr ;; sendBuffers command ;; clearout
      else if isReturn (getStandardError command)
      then clearout ;; sendBuffers command ;; clearerr
      else clearout ;; clearerr
    else if negb (outBuffsize =? 0) then
      if isReturn (getStandardOutput command)
      then clearerr ;; sendBuffers command ;; clearout
      else clearout ;; clearerr
    else if negb (errBuffsize =? 0) then
      if isReturn (getStandardError command)
      then clearout ;; sendBuffers command ;; clearerr
      else clearout ;; clearerr
    else ret tt
  else ret tt.

(** ** checkAndSend *)

Definition checkAndSend (command : KACommand) : M unit :=
  st <- get ;;
  if ((mode (outputStream st) =? "RETURN")
      || (mode (outputStream st) =? "CAPTURE_AND_RETURN"))%string
  then
    if isSilent (getStandardError command)
    then clearerr ;; sendBuffers command
    else sendBuffers command
  else
    if isSilent (getStandardError command)
    then ret tt
    else clearout ;; sendBuffers command.

(** ** checkAndWrite

    [outOpen] and [errOpen] are what [openFile()] answers on the output and
    on the error reader, should it be called. *)

Definition MaxBuffSize : Z := 1000.

Definition isCapture (m : string) : bool :=
  (m =? "CAPTURE")%string || (m =? "CAPTURE_AND_RETURN")%string.

Definition captureOutput (outOpen : bool) : M unit :=
  st <- get ;;
  let s := outputStream st in
  when (isCapture (mode s))
    (when outOpen (emit (appendFile (identity s) (path s) (buffer s)))).

Definition captureError (errOpen : bool) : M unit :=
  st <- get ;;
  let s := errorStream st in
  when (isCapture (mode s))
    (when errOpen (emit (appendFile (identity s) (path s) (buffer s)))).

(** Lines 298 to 323: the readers' buffers are appended to [outBuff] and
    [errBuff], written to the capture files and cleared. *)
Definition gatherBuffers (outOpen errOpen : bool) : M unit :=
  modify (fun st => setoutBuff (outBuff st ++ buffer (outputStream st))%string st) ;;
  captureOutput outOpen ;;
  modify (fun st => setOutputStream (clearBuffer (outputStream st)) st) ;;
  modify (fun st =>
            setErrSeen (errSeen st + Str.size (buffer (errorStream st)))
              (seterrBuff (errBuff st ++ buffer (errorStream st))%string st)) ;;
  captureError errOpen ;;
  modify (fun st => setErrorStream (clearBuffer (errorStream st)) st).

(** Lines 325 to 381: the exit status and the split at [MaxBuffSize]. *)
Definition fragment (command : KACommand) : M unit :=
  st <- get ;;
  let outBuffsize := Str.size (outBuff st) in
  let errBuffsize := Str.size (errBuff st) in
  when (errBuffsize >? 0) (modify (setEXITSTATUS 1)) ;;
  if (outBuffsize >=? MaxBuffSize) || (errBuffsize >=? MaxBuffSize) then
    if (outBuffsize >=? MaxBuffSize) && (errBuffsize >=? MaxBuffSize) then
      let divisionOut := Str.substr MaxBuffSize (outBuffsize - MaxBuffSize) (outBuff st) in
      modify (setoutBuff (Str.substr 0 MaxBuffSize (outBuff st))) ;;
      let divisionErr := Str.substr MaxBuffSize (errBuffsize - MaxBuffSize) (errBuff st) in
      modify (seterrBuff (Str.substr 0 MaxBuffSize (errBuff st))) ;;
      checkAndSend command ;;
      clearout ;; clearerr ;;
      modify (setoutBuff divisionOut) ;;
      modify (seterrBuff divisionErr)
    else if outBuffsize >=? MaxBuffSize then
      let divisionOut := Str.substr MaxBuffSize (outBuffsize - MaxBuffSize) (outBuff st) in
      modify (setoutBuff (Str.substr 0 MaxBuffSize (outBuff st))) ;;
      checkAndSend command ;;
      clearout ;; clearerr ;;
      modify (setoutBuff divisionOut)
    else if errBuffsize >=? MaxBuffSize then
      let divisionErr := Str.substr MaxBuffSize (errBuffsize - MaxBuffSize) (errBuff st) in
      modify (seterrBuff (Str.substr 0 MaxBuffSize (errBuff st))) ;;
      checkAndSend command ;;
      clearout ;; clearerr ;;
      modify (seterrBuff divisionErr)
    else ret tt
  else ret tt.

Definition checkAndWrite (command : KACommand) (outOpen errOpen : bool) : M unit :=
  gatherBuffers outOpen errOpen ;;
  fragment command.

(** ** checkExecutionTimeout

    The four pointer arguments are one record; [currentsec] is what
    [second_clock::local_time().time_of_day().seconds()] answers. *)

Record Timer := {
  startsec : Z;
  overflag : bool;
  exectimeout : Z;
  count : Z
}.

Definition checkExecutionTimeout (currentsec : Z) (t : Timer) : bool * Timer :=
  if negb (exectimeout t =? 0) then
    let t1 :=
      if (currentsec >? startsec t) && negb (overflag t) then
        if negb (currentsec =? 59) then
          {| startsec := currentsec; overflag := overflag t;
             exectimeout := exectimeout t;
             count := wrap32 (count t + (currentsec - startsec t)) |}
        else
          {| startsec := 0; overflag := true;
             exectimeout := exectimeout t;
             count := wrap32 (count t + (currentsec - startsec t)) |}
      else t in
    let t2 :=
      if currentsec =? 59 then
        {| startsec := 0; overflag := true;
           exectimeout := exectimeout t1; count := count t1 |}
      else
        {| startsec := startsec t1; overflag := false;
           exectimeout := exectimeout t1; count := count t1 |} in
    if count t2 >=? exectimeout t2 then (true, t2) else (false, t2)
  else (false, t).

(** ** checkCWD and checkUID

    [cwdOk] is whether [chdir] succeeds.  [chdir] is given
    [getWorkingDirectory().c_str()]: the directory it sees ends at the first
    NUL of the string. *)

Definition checkCWD (cwdOk : bool) (command : KACommand) : M bool :=
  emit (chdir (Str.c_str (getWorkingDirectory command))) ;;
  if negb cwdOk then ret false else ret true.

(** Modelled from the spec: the class KAUserID is not among the sources.
    [Lookup] is the answer of [uid.getIDs(ruid, euid, runAs)]: whether the
    user exists, and the values the two reference arguments hold afterwards;
    [doSetuid] and [undoSetuid] are effects. *)
Record Lookup := {
  found : bool;
  realId : Z;
  effectiveId : Z
}.

Definition checkUID (ids : Lookup) (command : KACommand) : M bool :=
  modify (fun st => setEuid (effectiveId ids) (setRuid (realId ids) st)) ;;
  if found ids then
    st <- get ;;
    emit (doSetuid (euid st)) ;;
    ret true
  else
    st <- get ;;
    emit (undoSetuid (ruid st)) ;;
    ret false.

(** ** optionReadSend *)

(** Pid discovery.  One probe is one turn of the [while]: the answer of
    [waitpid(newpid, &status, WNOHANG)] and, should the body run, the number
    [atoi] reads from the second [pgrep].  The result says whether the loop
    was left before the probes ran out. *)
Fixpoint findPid (newpid : Z) (probes : list (Z * Z)) : M bool :=
  match probes with
  | [] => ret false
  | (result, grandchild) :: rest =>
      if result =? 0 then
        modify (setPpid grandchild) ;;
        st <- get ;;
        if negb (processpid st =? 0) then ret true
        else modify (setPpid newpid) ;; findPid newpid rest
      else
        when (result >? 0) (modify (setPpid newpid)) ;;
        ret true
  end.

(** What the outside answers during one turn of the multiplex loop. *)
Record Tick := {
  outSelect : Z;       (* getOutputStream().startSelection() *)
  errSelect : Z;       (* getErrorStream().startSelection() *)
  secExec : Z;         (* the clock, read by the execution timer *)
  secHeart : Z;        (* the clock, read by the heartbeat timer or its reset *)
  secRestart : Z;      (* the clock, read again after a heartbeat was sent *)
  outRead : Z;         (* getOutputStream().startReading(): the read result *)
  outData : string;    (*   and the buffer it leaves *)
  errRead : Z;
  errData : string;
  outOpen : bool;      (* getOutputStream().openFile() *)
  errOpen : bool       (* getErrorStream().openFile() *)
}.

Inductive LoopExit :=
| Break (EXECTIMEOUT : bool)   (* left by one of the two [break]s *)
| ReturnError                  (* [return -1] *)
| Pending.                     (* the ticks ran out inside the loop *)

(** The heartbeat block of the loop (the body of the inner [if]). *)
Definition heartbeat (command : KACommand) : M unit :=
  st <- get ;;
  if Str.empty (outBuff st) && Str.empty (errBuff st) then
    emit (try_send (createResponseMessage (getUuid command) (processpid st)
                      (getRequestSequenceNumber command) (responsecount st)
                      "" "" (getSource command) (getTaskUuid command))) ;;
    countUp
  else
    (if isSilent (getStandardOutput command) && isSilent (getStandardError command)
     then clearerr ;; clearout
     else if isSilent (getStandardOutput command) then clearout
     else if isSilent (getStandardError command) then clearerr
     else ret tt) ;;
    sendCurrent command ;;
    clearerr ;; clearout ;;
    countUp.

Definition heartReset (sec : Z) : Timer :=
  {| startsec := sec; overflag := false; exectimeout := 30; count := 0 |}.

Definition select (k : Tick) : M unit :=
  modify (fun st =>
            setOutputStream
              (setSelectResult (outSelect k) (setTimeout 50000 (outputStream st))) st) ;;
  modify (fun st =>
            setErrorStream
              (setSelectResult (errSelect k) (setTimeout 50000 (errorStream st))) st).

Definition readOutput (k : Tick) : M unit :=
  st <- get ;;
  when (negb (selectResult (outputStream st) =? 0) && (selectResult (outputStream st) >? 0))
    (modify (fun st =>
               setOutputStream
                 (setReadResult (outRead k) (setBuffer (outData k) (outputStream st))) st)).

Definition readError (k : Tick) : M unit :=
  st <- get ;;
  when (negb (selectResult (errorStream st) =? 0) && (selectResult (errorStream st) >? 0))
    (modify (fun st =>
               setErrorStream
                 (setReadResult (errRead k) (setBuffer (errData k) (errorStream st))) st)).

Definition heartStep (command : KACommand) (k : Tick) (heart : Timer) : M Timer :=
  st <- get ;;
  if ACTFLAG st then
    modify (setACTFLAG false) ;;
    ret (heartReset (secHeart k))
  else
    let '(fired, heart1) := checkExecutionTimeout (secHeart k) heart in
    if fired then
      heartbeat command ;;
      ret (heartReset (secRestart k))
    else ret heart1.

Fixpoint multiplex (command : KACommand) (ticks : list Tick) (exec heart : Timer)
  : M LoopExit :=
  match ticks with
  | [] => ret Pending
  | k :: rest =>
      select k ;;
      let '(fired, exec1) := checkExecutionTimeout (secExec k) exec in
      if fired then ret (Break true)
      else
        heart1 <- heartStep command k heart ;;
        st <- get ;;
        if (selectResult (outputStream st) =? -1) || (selectResult (errorStream st) =? -1)
        then emit (cout "ERROR selecting pipelines") ;; ret ReturnError
        else
          readOutput k ;;
          readError k ;;
          st <- get ;;
          when ((selectResult (outputStream st) >? 0) || (selectResult (errorStream st) >? 0))
            (modify (setACTFLAG true)) ;;
          if (readResult (outputStream st) >? 0) || (readResult (errorStream st) >? 0)
          then checkAndWrite command (outOpen k) (errOpen k) ;;
               multiplex command rest exec1 heart1
          else ret (Break false)
  end.

(** What the outside answers to the parent side of the worker. *)
Record World := {
  probes : list (Z * Z);
  cwdOk : bool;
  ids : Lookup;
  clockStart : Z;
  clockStartHeart : Z;
  ticks : list Tick
}.

Definition cwdError (command : KACommand) : M unit :=
  modify (setCWDERR true) ;;
  st <- get ;;
  emit (try_send (createResponseMessage (getUuid command) (processpid st)
                    (getRequestSequenceNumber command) 1
                    "Working Directory Does Not Exist on System" ""
                    (getSource command) (getTaskUuid command))).

Definition uidError (command : KACommand) : M unit :=
  modify (setUIDERR true) ;;
  st <- get ;;
  emit (try_send (createResponseMessage (getUuid command) (processpid st)
                    (getRequestSequenceNumber command) 1
                    "User Does Not Exist on System" ""
                    (getSource command) (getTaskUuid command))).

(** The statements up to the loop: pid discovery and the two checks. *)
Definition prologue (command : KACommand) (w : World) (newpid : Z) : M bool :=
  modify (setPpid newpid) ;;
  left <- findPid newpid (probes w) ;;
  if negb left then ret false
  else
    okc <- checkCWD (cwdOk w) command ;;
    when (negb okc) (cwdError command) ;;
    oku <- checkUID (ids w) command ;;
    when (negb oku) (uidError command) ;;
    ret true.

Definition timeoutDone (command : KACommand) : M unit :=
  lastCheckAndSend command ;;
  st <- get ;;
  emit (try_send (createTimeoutMessage (getUuid command) (processpid st)
                    (getRequestSequenceNumber command) (responsecount st)
                    "" "" (getSource command) (getTaskUuid command))) ;;
  when (negb (processpid st =? 0)) (emit (kill (processpid st))).

Definition executeDone (command : KACommand) : M unit :=
  st <- get ;;
  let exitcode :=
    if negb (EXITSTATUS st =? 0) || CWDERR st || UIDERR st then 1 else 0 in
  lastCheckAndSend command ;;
  st <- get ;;
  emit (try_send (createExitMessage (getUuid command) (processpid st)
                    (getRequestSequenceNumber command) (responsecount st)
                    (getSource command) (getTaskUuid command) exitcode)).

(** The statements after the loop. *)
Definition epilogue (command : KACommand) (EXECTIMEOUT : bool) : M Z :=
  when EXECTIMEOUT (timeoutDone command) ;;
  st <- get ;;
  when ((readResult (errorStream st) =? 0) && (readResult (outputStream st) =? 0))
    (executeDone command) ;;
  ret 1.

(** [None]: the probes or the ticks ran out, the function is still running. *)
Definition optionReadSend (command : KACommand) (w : World) (newpid : Z)
  : M (option Z) :=
  started <- prologue command w newpid ;;
  if negb started then ret None
  else
    ex <- multiplex command (ticks w)
            {| startsec := clockStart w; overflag := false;
               exectimeout := wrap32 (getTimeout command); count := 0 |}
            (heartReset (clockStartHeart w)) ;;
    match ex with
    | Pending => ret None
    | ReturnError => ret (Some (-1))
    | Break EXECTIMEOUT =>
        r <- epilogue command EXECTIMEOUT ;;
        ret (Some r)
    end.

(** ** threadFunction

    [fork] answers twice, once in each process: a call of [threadFunction] is
    followed in one process, and what [fork] answered there is an input.  The
    model starts at the first [fork].  Left out are [signal(SIGCHLD, SIG_IGN)]
    before it, the assignment of its answer to the member [pid], the process
    title, the opening and closing of the log file and the pipes' file
    descriptors: nothing in [KAThread] reads what they change, and no
    statement below is about them.  So the trace of a call is what the
    process does from the first [fork] on, and the state is the thread apart
    from [pid].  No statement of the [try] block throws in this model.  A
    process that sends itself SIGKILL ends there. *)

(** What the outside answers to one call of [threadFunction]. *)
Record Spawn := {
  forkPid : Z;          (* pid = fork() *)
  selfPid : Z;          (* getpid() *)
  outPipe : bool;       (* getOutputStream().openPipe() *)
  errPipe : bool;       (* getErrorStream().openPipe() *)
  forkNewpid : Z;       (* newpid = fork() *)
  childCwdOk : bool;    (* chdir, in the inner child *)
  childIds : Lookup;    (* getIDs, in the inner child *)
  world : World         (* the parent side *)
}.

Inductive Outcome :=
| Returned (b : bool)     (* [return b] *)
| Exited (code : Z)       (* [exit(code)] *)
| Killed                  (* [kill(getpid(), SIGKILL)] *)
| Unfinished.             (* still inside optionReadSend *)

Definition logStart : string := "<KAThread::threadFunction> New Main Fork is Starting!!".
Definition logPipes : string := "<KAThread::threadFunction> Error opening pipes!!".

Definition innerChild (command : KACommand) (s : Spawn) : M Outcome :=
  emit (writeLog 6 "<KAThread::threadFunction> New Child Process is starting for pipes") ;;
  okc <- checkCWD (childCwdOk s) command ;;
  if negb okc then
    emit (writeLog 7 "<KAThread::threadFunction> CWD id not found on system..") ;;
    emit (kill (selfPid s)) ;;
    ret Killed
  else
    oku <- checkUID (childIds s) command ;;
    if negb oku then
      emit (writeLog 6 "<KAThread::threadFunction> USer id not found on system..") ;;
      emit (kill (selfPid s)) ;;
      ret Killed
    else
      emit (writeLog 6 "<KAThread::threadFunction> Execution is starting!!") ;;
      cmd <- createExecString command ;;
      emit (system (Str.c_str cmd)) ;;
      emit (writeLog 6 "<KAThread::threadFunction> Execution is done!!") ;;
      ret (Exited 0).

Definition outerParent (command : KACommand) (s : Spawn) : M Outcome :=
  emit (writeLog 6 "<KAThread::threadFunction> optionReadSend is starting!!") ;;
  r <- optionReadSend command (world s) (forkNewpid s) ;;
  match r with
  | None => ret Unfinished
  | Some _ =>
      emit (writeLog 6 "<KAThread::threadFunction> optionReadSend has finished!!") ;;
      emit (writeLog 6 "<KAThread::threadFunction> New Main Thread is Stopping!!") ;;
      emit (kill (selfPid s)) ;;
      ret Killed
  end.

Definition threadFunction (command : KACommand) (s : Spawn) : M Outcome :=
  emit (fork (forkPid s)) ;;
  if forkPid s =? 0 then
    emit (writeLog 6 logStart) ;;
    modify (fun st =>
              setOutputStream
                (setIdentity "output"
                   (setPath (getStandardOutputPath command)
                      (setMode (getStandardOutput command) (outputStream st)))) st) ;;
    modify (fun st =>
              setErrorStream
                (setIdentity "error"
                   (setPath (getStandardErrPath command)
                      (setMode (getStandardError command) (errorStream st)))) st) ;;
    when (negb (outPipe s) || negb (errPipe s)) (emit (writeLog 6 logPipes)) ;;
    emit (fork (forkNewpid s)) ;;
    if forkNewpid s =? 0 then innerChild command s
    else if forkNewpid s =? -1 then emit (cout "ERROR!!") ;; ret (Returned false)
    else outerParent command s
  else if forkPid s =? -1 then ret (Returned false)
  else if forkPid s >? 0 then ret (Returned true)
  else ret (Returned true).

(** * Vocabulary of the statements *)

(** ** Messages and effects *)

Definition isTerminal (m : Message) : bool := isTimeout m || isExit m.

Definition isSystem (e : Effect) : bool :=
  match e with system _ => true | _ => false end.

(** The calls that change the identity of the process. *)
Definition isIdentity (e : Effect) : bool :=
  match e with doSetuid _ | undoSetuid _ => true | _ => false end.

Fixpoint strictlyIncreasing (l : list Z) : bool :=
  match l with
  | x :: ((y :: _) as rest) => (x <? y) && strictlyIncreasing rest
  | _ => true
  end.

(** A message carries nothing for a stream whose mode is CAPTURE or NO. *)
Definition redacted (command : KACommand) (m : Message) : Prop :=
  (isSilent (getStandardOutput command) = true -> stdOut m = "") /\
  (isSilent (getStandardError command) = true -> stdErr m = "").

(** A message within the packet size. *)
Definition bounded (m : Message) : Prop :=
  Str.size (stdOut m) <= MaxBuffSize /\ Str.size (stdErr m) <= MaxBuffSize.

(** The first [MaxBuffSize] bytes of a buffer, all of it when it holds
    fewer; and the bytes after them. *)
Definition packetOf (s : string) : string := Str.substr 0 MaxBuffSize s.

Definition overflowOf (s : string) : string :=
  Str.substr MaxBuffSize (Str.size s - MaxBuffSize) s.

(** The test [checkAndSend] makes on the mode of the output reader. *)
Definition returnsOutput (st : KAThread) : bool :=
  ((mode (outputStream st) =? "RETURN")
   || (mode (outputStream st) =? "CAPTURE_AND_RETURN"))%string.

(** ** Texts *)

(** Every argument followed by a blank, in order. *)
Fixpoint argumentText (args : list string) : string :=
  match args with
  | [] => ""
  | arg :: rest => (arg ++ " " ++ argumentText rest)%string
  end.

(** One [ export K=V && ] fragment per environment pair, in order. *)
Fixpoint exportText (env : list (string * string)) : string :=
  match env with
  | [] => ""
  | (k, v) :: rest =>
      (" export " ++ Str.c_str k ++ "=" ++ Str.c_str v ++ " && " ++ exportText rest)%string
  end.

(** The bytes of a list of reads, in order. *)
Fixpoint joined (chunks : list string) : string :=
  match chunks with
  | [] => ""
  | c :: rest => (c ++ joined rest)%string
  end.

(** Progress messages with stdout payloads [ps], empty stderr payloads and
    response counts [n], [n+1], ... *)
Fixpoint packets (command : KACommand) (pid n : Z) (ps : list string) : list Message :=
  match ps with
  | [] => []
  | p :: rest =>
      createResponseMessage (getUuid command) pid (getRequestSequenceNumber command) n
        "" p (getSource command) (getTaskUuid command)
      :: packets command pid (n + 1) rest
  end.

(** [n] copies of the character [c]. *)
Fixpoint fill (n : nat) (c : ascii) : string :=
  match n with
  | O => ""
  | S n' => String c (fill n' c)
  end.

(** ** Triples

    [triple P E m Q]: from a state in [P], [m] ends with a result and a state
    in [Q], and every effect it records is in [E]. *)

Definition triple {A} (P : KAThread -> Prop) (E : Effect -> Prop) (m : M A)
    (Q : A -> KAThread -> Prop) : Prop :=
  forall st, P st -> Q (fst (fst (m st))) (snd (fst (m st))) /\ Forall E (snd (m st)).

Abbreviation hoare P E m Q := (triple P E m (fun _ => Q)).
Abbreviation preserves I E m := (triple I%function E m (fun _ => I%function)).

Definition anyEffect (e : Effect) : Prop := True.

Definition always (st : KAThread) : Prop := True.

Definition noSend (e : Effect) : Prop :=
  match e with
  | try_send _ => False
  | _ => True
  end.

(** What the loop may do to the outside: hand [createResponseMessage]
    messages to the queue, append to the capture files, print. *)
Definition loopEffect (e : Effect) : Prop :=
  match e with
  | try_send m => isProgress m = true
  | appendFile _ _ _ => True
  | cout _ => True
  | _ => False
  end.

Definition boundedEffect (e : Effect) : Prop :=
  match e with
  | try_send m => bounded m
  | _ => True
  end.

Definition redactedEffect (command : KACommand) (e : Effect) : Prop :=
  match e with
  | try_send m => redacted command m
  | _ => True
  end.

(** ** Invariants of the loop *)

(** [EXITSTATUS] is 0 or 1, and 0 exactly as long as no byte was appended to
    [errBuff]. *)
Definition exitInv (st : KAThread) : Prop :=
  0 <= errSeen st /\
  (EXITSTATUS st = 0 \/ EXITSTATUS st = 1) /\
  (EXITSTATUS st = 0 <-> errSeen st = 0) /\
  (errSeen st = 0 -> errBuff st = "").

(** ... and [CWDERR] and [UIDERR] have the values [c] and [u]. *)
Definition flagsInv (c u : bool) (st : KAThread) : Prop :=
  CWDERR st = c /\ UIDERR st = u /\ exitInv st.

(** Between the append and the test of [errBuffsize] in [checkAndWrite]. *)
Definition gatheredInv (c u : bool) (st : KAThread) : Prop :=
  CWDERR st = c /\ UIDERR st = u /\
  0 <= errSeen st /\
  (EXITSTATUS st = 0 \/ EXITSTATUS st = 1) /\
  (EXITSTATUS st = 1 -> 0 < errSeen st) /\
  (errSeen st = 0 -> errBuff st = "") /\
  (0 < errSeen st -> EXITSTATUS st = 1 \/ errBuff st <> "").

Definition errorFlags (c u : bool) (st : KAThread) : Prop :=
  CWDERR st = c /\ UIDERR st = u.

(** The last read results of the two readers. *)
Definition readsInv (a b : Z) (st : KAThread) : Prop :=
  readResult (outputStream st) = a /\ readResult (errorStream st) = b.

(** The mode of the output reader is the one of the command, as
    [threadFunction] sets it. *)
Definition modeInv (command : KACommand) (st : KAThread) : Prop :=
  mode (outputStream st) = getStandardOutput command.

(** The output reader has the command's mode and both modes are CAPTURE or NO. *)
Definition silentInv (command : KACommand) (st : KAThread) : Prop :=
  modeInv command st /\
  isSilent (getStandardOutput command) = true /\
  isSilent (getStandardError command) = true.

(** A timer that has counted nothing while the clock stands at [s0]. *)
Definition idle (s0 : Z) (t : Timer) : Prop :=
  count t = 0 /\ 0 <= exectimeout t /\
  ((startsec t = s0 /\ overflag t = false) \/ (s0 = 59 /\ overflag t = true)).

(** The thread between two reads of a burst on stdout: [r] is buffered,
    nothing of stderr, [n] is the next response count. *)
Definition burstInv (command : KACommand) (r : string) (n pid : Z) (st : KAThread) : Prop :=
  outBuff st = r /\ errBuff st = "" /\ buffer (errorStream st) = "" /\
  responsecount st = n /\ processpid st = pid /\
  mode (outputStream st) = getStandardOutput command.

(** Less than a packet is buffered, and the readers hold at most a packet. *)
Definition sizeInv (st : KAThread) : Prop :=
  Str.size (outBuff st) < MaxBuffSize /\
  Str.size (errBuff st) < MaxBuffSize /\
  Str.size (buffer (outputStream st)) <= MaxBuffSize /\
  Str.size (buffer (errorStream st)) <= MaxBuffSize.

(** A turn whose reads deliver at most a packet each. *)
Definition smallReads (k : Tick) : Prop :=
  Str.size (outData k) <= MaxBuffSize /\ Str.size (errData k) <= MaxBuffSize.

(** ** Parts of a run *)

(** The state and the trace the two checks of [optionReadSend] leave, [p]
    being the pid the discovery ended with. *)
Definition cwdMessage (command : KACommand) (p : Z) : Message :=
  createResponseMessage (getUuid command) p (getRequestSequenceNumber command) 1
    "Working Directory Does Not Exist on System" ""
    (getSource command) (getTaskUuid command).

Definition uidMessage (command : KACommand) (p : Z) : Message :=
  createResponseMessage (getUuid command) p (getRequestSequenceNumber command) 1
    "User Does Not Exist on System" ""
    (getSource command) (getTaskUuid command).

Definition afterChecks (w : World) (p : Z) (st : KAThread) : KAThread :=
  let s1 := setPpid p st in
  let s2 := if cwdOk w then s1 else setCWDERR true s1 in
  let s3 := setEuid (effectiveId (ids w)) (setRuid (realId (ids w)) s2) in
  if found (ids w) then s3 else setUIDERR true s3.

Definition checksTrace (command : KACommand) (w : World) (p : Z) : list Effect :=
  chdir (Str.c_str (getWorkingDirectory command))
  :: (if cwdOk w then [] else [try_send (cwdMessage command p)])
  ++ (if found (ids w)
      then [doSetuid (effectiveId (ids w))]
      else [undoSetuid (realId (ids w)); try_send (uidMessage command p)]).

(** The two timers as [optionReadSend] starts them. *)
Definition execTimer (command : KACommand) (w : World) : Timer :=
  {| startsec := clockStart w; overflag := false;
     exectimeout := wrap32 (getTimeout command); count := 0 |}.

Definition bothZero (st : KAThread) : bool :=
  (readResult (errorStream st) =? 0) && (readResult (outputStream st) =? 0).

Definition exitCodeOf (st : KAThread) : Z :=
  if negb (EXITSTATUS st =? 0) || CWDERR st || UIDERR st then 1 else 0.

(** The state [gatherBuffers] leaves. *)
Definition gathered (st : KAThread) : KAThread :=
  setErrorStream (clearBuffer (errorStream st))
    (setErrSeen (errSeen st + Str.size (buffer (errorStream st)))
       (seterrBuff (errBuff st ++ buffer (errorStream st))%string
          (setOutputStream (clearBuffer (outputStream st))
             (setoutBuff (outBuff st ++ buffer (outputStream st))%string st)))).

(** * Sample commands and runs *)

(** A reader as it is before its first select: nothing buffered, the read
    result not 0 (with 0 on both readers the loop is left on its first quiet
    turn). *)
Definition newReader : KAStreamReader :=
  {| mode := ""; path := ""; identity := ""; buffer := "";
     selectResult := 0; readResult := 1; timeout := 0 |}.

Definition newThread : KAThread := KAThread_new newReader newReader 0 0 0.

Definition echoCommand : KACommand :=
  {| getUuid := "c0ffee"; getTaskUuid := "task"; getRequestSequenceNumber := 7;
     getSource := "test"; getProgram := "echo"; getArguments := ["hi"];
     getEnvironment := [("LANG", "C")];
     getWorkingDirectory := "/tmp"; getRunAs := "root";
     getStandardOutput := "RETURN"; getStandardError := "CAPTURE";
     getStandardOutputPath := ""; getStandardErrPath := "/tmp/err";
     getTimeout := 5 |}.

Definition withRunAs (user : string) (c : KACommand) : KACommand :=
  {| getUuid := getUuid c; getTaskUuid := getTaskUuid c;
     getRequestSequenceNumber := getRequestSequenceNumber c;
     getSource := getSource c; getProgram := getProgram c;
     getArguments := getArguments c; getEnvironment := getEnvironment c;
     getWorkingDirectory := getWorkingDirectory c; getRunAs := user;
     getStandardOutput := getStandardOutput c;
     getStandardError := getStandardError c;
     getStandardOutputPath := getStandardOutputPath c;
     getStandardErrPath := getStandardErrPath c;
     getTimeout := getTimeout c |}.

Definition withModes (out err : string) (c : KACommand) : KACommand :=
  {| getUuid := getUuid c; getTaskUuid := getTaskUuid c;
     getRequestSequenceNumber := getRequestSequenceNumber c;
     getSource := getSource c; getProgram := getProgram c;
     getArguments := getArguments c; getEnvironment := getEnvironment c;
     getWorkingDirectory := getWorkingDirectory c; getRunAs := getRunAs c;
     getStandardOutput := out; getStandardError := err;
     getStandardOutputPath := getStandardOutputPath c;
     getStandardErrPath := getStandardErrPath c;
     getTimeout := getTimeout c |}.

Definition withTimeout (t : Z) (c : KACommand) : KACommand :=
  {| getUuid := getUuid c; getTaskUuid := getTaskUuid c;
     getRequestSequenceNumber := getRequestSequenceNumber c;
     getSource := getSource c; getProgram := getProgram c;
     getArguments := getArguments c; getEnvironment := getEnvironment c;
     getWorkingDirectory := getWorkingDirectory c; getRunAs := getRunAs c;
     getStandardOutput := getStandardOutput c;
     getStandardError := getStandardError c;
     getStandardOutputPath := getStandardOutputPath c;
     getStandardErrPath := getStandardErrPath c;
     getTimeout := t |}.

Definition rootIds : Lookup := {| found := true; realId := 1000; effectiveId := 0 |}.
Definition noIds : Lookup := {| found := false; realId := 1000; effectiveId := 1000 |}.

(** A turn in which neither pipe has data. *)
Definition quiet (sec : Z) : Tick :=
  {| outSelect := 0; errSelect := 0; secExec := sec; secHeart := sec; secRestart := sec;
     outRead := 0; outData := ""; errRead := 0; errData := "";
     outOpen := true; errOpen := true |}.

(** A turn in which both pipes are at end of file. *)
Definition eof (sec : Z) : Tick :=
  {| outSelect := 1; errSelect := 1; secExec := sec; secHeart := sec; secRestart := sec;
     outRead := 0; outData := ""; errRead := 0; errData := "";
     outOpen := true; errOpen := true |}.

(** A turn in which [data] is read from the output pipe. *)
Definition output (sec : Z) (data : string) : Tick :=
  {| outSelect := 1; errSelect := 0; secExec := sec; secHeart := sec; secRestart := sec;
     outRead := Str.size data; outData := data; errRead := 0; errData := "";
     outOpen := true; errOpen := true |}.

(** A turn in which [data] is read from the error pipe. *)
Definition erroutput (sec : Z) (data : string) : Tick :=
  {| outSelect := 0; errSelect := 1; secExec := sec; secHeart := sec; secRestart := sec;
     outRead := 0; outData := ""; errRead := Str.size data; errData := data;
     outOpen := true; errOpen := true |}.

(** A turn in which the select on the output pipe fails. *)
Definition selectFails (sec : Z) : Tick :=
  {| outSelect := -1; errSelect := 0; secExec := sec; secHeart := sec; secRestart := sec;
     outRead := 0; outData := ""; errRead := 0; errData := "";
     outOpen := true; errOpen := true |}.

Definition sampleWorld (c : bool) (i : Lookup) (ts : list Tick) : World :=
  {| probes := [(0, 4242)]; cwdOk := c; ids := i;
     clockStart := 0; clockStartHeart := 0; ticks := ts |}.

(** The outer parent of the worker: first fork answers 0, second a pid. *)
Definition outerParentOf (pipes : bool) (w : World) : Spawn :=
  {| forkPid := 0; selfPid := 99; outPipe := pipes; errPipe := pipes;
     forkNewpid := 100; childCwdOk := cwdOk w; childIds := ids w; world := w |}.

(** The inner child: both forks answer 0. *)
Definition innerChildOf (w : World) : Spawn :=
  {| forkPid := 0; selfPid := 100; outPipe := true; errPipe := true;
     forkNewpid := 0; childCwdOk := cwdOk w; childIds := ids w; world := w |}.

Definition withPipes (o e : bool) (s : Spawn) : Spawn :=
  {| forkPid := forkPid s; selfPid := selfPid s; outPipe := o; errPipe := e;
     forkNewpid := forkNewpid s; childCwdOk := childCwdOk s;
     childIds := childIds s; world := world s |}.

(** The thread as [threadFunction] hands it to [optionReadSend]: the modes,
    paths and identities of the two readers are set from the command. *)
Definition workerThread (command : KACommand) : KAThread :=
  setErrorStream
    (setIdentity "error"
       (setPath (getStandardErrPath command)
          (setMode (getStandardError command) newReader)))
    (setOutputStream
       (setIdentity "output"
          (setPath (getStandardOutputPath command)
             (setMode (getStandardOutput command) newReader)))
       newThread).

(** Thirty quiet turns, one a second, then end of file on both pipes. *)
Definition quietHalfMinute : list Tick :=
  map (fun n => quiet (Z.of_nat n)) (seq 1 30) ++ [eof 31].

(** 2500 bytes arriving in three reads of 600, 900 and 1000 bytes. *)
Definition burstReads : list string :=
  [fill 600 "a"; fill 900 "b"; fill 1000 "c"].

Definition burstWorld : World :=
  sampleWorld true rootIds (map (output 0) burstReads ++ [eof 0]).

(** 2500 bytes arriving in one read. *)
Definition oneReadWorld : World :=
  sampleWorld true rootIds [output 0 (fill 2500 "a"); eof 0].

(** 5000 bytes arriving in one read, a quiet turn in the same second, and
    the next turn half a minute later. *)
Definition stalledWorld : World :=
  sampleWorld true rootIds [output 0 (fill 5000 "a"); quiet 0; quiet 30; eof 30].

(** * The rest of KAThread.cpp, and KALogger.cpp *)

(** ** Vocabulary of the statements *)

Definition messagePid (m : Message) : Z :=
  match m with
  | createResponseMessage _ p _ _ _ _ _ _ => p
  | createTimeoutMessage _ p _ _ _ _ _ _ => p
  | createExitMessage _ p _ _ _ _ _ => p
  end.

(** The pids a SIGKILL was sent to, in order. *)
Fixpoint kills (tr : list Effect) : list Z :=
  match tr with
  | [] => []
  | kill p :: tr' => p :: kills tr'
  | _ :: tr' => kills tr'
  end.

(** The timer after a series of clock readings, one call of
    [checkExecutionTimeout] each. *)
Fixpoint pollTimer (secs : list Z) (t : Timer) : Timer :=
  match secs with
  | [] => t
  | s :: rest => pollTimer rest (snd (checkExecutionTimeout s t))
  end.

Fixpoint nondecreasing (from : Z) (secs : list Z) : Prop :=
  match secs with
  | [] => True
  | s :: rest => from <= s /\ nondecreasing s rest
  end.

(** A Timeout message that names a process. *)
Definition timedOut (m : Message) : bool :=
  isTimeout m && negb (messagePid m =? 0).

(** The pids of the Timeout messages that name a process, in order. *)
Definition timeoutPids (tr : list Effect) : list Z :=
  map messagePid (filter timedOut (sent tr)).

(** What one run may do with the pid [p]: every message carries it, and a
    SIGKILL goes to it and not to pid 0. *)
Definition pidEffect (p : Z) (e : Effect) : Prop :=
  match e with
  | try_send m => messagePid m = p
  | kill q => q = p /\ q <> 0
  | _ => True
  end.

(** The pid the discovery may end with. *)
Definition discovered (newpid : Z) (probes : list (Z * Z)) (p : Z) : Prop :=
  p = newpid \/ (p <> 0 /\ In p (map snd probes)).

(** Neither a Timeout message nor a SIGKILL. *)
Definition noTimeout (e : Effect) : Prop :=
  match e with
  | try_send m => isTimeout m = false
  | kill _ => False
  | _ => True
  end.

(** A turn in which a select fails. *)
Definition selectFailed (k : Tick) : Prop :=
  outSelect k = -1 \/ errSelect k = -1.

(** Response counts [n], [n + 1], ... *)
Fixpoint countsFrom (n : Z) (l : list Message) : Prop :=
  match l with
  | [] => True
  | m :: rest => responseCount m = n /\ countsFrom (n + 1) rest
  end.

(** A relation between the state before, the state after and the trace
    that holds of every step of [m]. *)
Definition keeps (L : KAThread -> KAThread -> list Effect -> Prop) {A} (m : M A)
  : Prop :=
  forall st, L st (snd (fst (m st))) (snd (m st)).

(** The messages are numbered from [responsecount] on, and [responsecount]
    is the next number. *)
Definition counting (st st' : KAThread) (tr : list Effect) : Prop :=
  countsFrom (responsecount st) (sent tr) /\
  responsecount st' = responsecount st + Z.of_nat (List.length (sent tr)).

(** The shell commands of a trace. *)
Fixpoint commands (tr : list Effect) : list string :=
  match tr with
  | [] => []
  | system cmd :: tr' => cmd :: commands tr'
  | _ :: tr' => commands tr'
  end.

(** The stdout and the stderr payloads of the messages of a trace, one
    after the other. *)
Definition stdOutOf (tr : list Effect) : string := joined (map stdOut (sent tr)).
Definition stdErrOf (tr : list Effect) : string := joined (map stdErr (sent tr)).

(** What a trace appends to the capture file of the reader with identity
    [id]. *)
Fixpoint writtenTo (id : string) (tr : list Effect) : string :=
  match tr with
  | [] => ""
  | appendFile i _ data :: tr' =>
      if (i =? id)%string then (data ++ writtenTo id tr')%string else writtenTo id tr'
  | _ :: tr' => writtenTo id tr'
  end.

(** What a turn reads from a pipe: [startReading] is called after a select
    that answered more than 0, and only then. *)
Definition outTaken (k : Tick) : string :=
  if outSelect k >? 0 then outData k else "".

Definition errTaken (k : Tick) : string :=
  if errSelect k >? 0 then errData k else "".

(** The texts of the failed checks. *)
Definition checkTexts (w : World) : string :=
  ((if cwdOk w then "" else "Working Directory Does Not Exist on System")
   ++ (if found (ids w) then "" else "User Does Not Exist on System"))%string.

(** The state after the two selects of a turn. *)
Definition selected (k : Tick) (st : KAThread) : KAThread :=
  setErrorStream
    (setSelectResult (errSelect k) (setTimeout 50000 (errorStream st)))
    (setOutputStream
       (setSelectResult (outSelect k) (setTimeout 50000 (outputStream st))) st).

(** The state after the reads of a turn and the setting of the activity
    flag, from a state the selects of that turn have left. *)
Definition afterReads (k : Tick) (st : KAThread) : KAThread :=
  let s1 :=
    if outSelect k >? 0
    then setOutputStream
           (setReadResult (outRead k) (setBuffer (outData k) (outputStream st))) st
    else st in
  let s2 :=
    if errSelect k >? 0
    then setErrorStream
           (setReadResult (errRead k) (setBuffer (errData k) (errorStream s1))) s1
    else s1 in
  if (outSelect k >? 0) || (errSelect k >? 0) then setACTFLAG true s2 else s2.

(** What [gatherBuffers] appends to the capture files. *)
Definition captures (outOpen errOpen : bool) (st : KAThread) : list Effect :=
  (if isCapture (mode (outputStream st)) && outOpen
   then [appendFile (identity (outputStream st)) (path (outputStream st))
           (buffer (outputStream st))]
   else [])
  ++ (if isCapture (mode (errorStream st)) && errOpen
      then [appendFile (identity (errorStream st)) (path (errorStream st))
              (buffer (errorStream st))]
      else []).

Definition noAppend (e : Effect) : Prop :=
  match e with
  | appendFile _ _ _ => False
  | _ => True
  end.

(** The four places a byte read from a pipe may go to: the stdout and the
    stderr payloads of the messages, and the two capture files. *)
Inductive Account := SentOut | SentErr | FileOut | FileErr.

(** What a trace adds to an account. *)
Definition booked (a : Account) (tr : list Effect) : string :=
  match a with
  | SentOut => stdOutOf tr
  | SentErr => stdErrOf tr
  | FileOut => writtenTo "output" tr
  | FileErr => writtenTo "error" tr
  end.

(** What the thread holds for an account, ... *)
Definition buffered (a : Account) (st : KAThread) : string :=
  match a with
  | SentOut => outBuff st
  | SentErr => errBuff st
  | FileOut | FileErr => ""
  end.

(** ... what the reader of its pipe holds, ... *)
Definition pending (a : Account) (st : KAThread) : string :=
  match a with
  | SentOut | FileOut => buffer (outputStream st)
  | SentErr | FileErr => buffer (errorStream st)
  end.

(** ... and what a turn reads for it. *)
Definition taken (a : Account) (k : Tick) : string :=
  match a with
  | SentOut | FileOut => outTaken k
  | SentErr | FileErr => errTaken k
  end.

(** The account is kept by the command: the mode of its stream returns,
    or captures. *)
Definition kept (command : KACommand) (a : Account) : Prop :=
  match a with
  | SentOut => isReturn (getStandardOutput command) = true
  | SentErr => isReturn (getStandardError command) = true
  | FileOut => isCapture (getStandardOutput command) = true
  | FileErr => isCapture (getStandardError command) = true
  end.

(** The capture file of the account can be opened in this turn. *)
Definition opened (a : Account) (k : Tick) : Prop :=
  match a with
  | SentOut | SentErr => True
  | FileOut => outOpen k = true
  | FileErr => errOpen k = true
  end.

(** The two readers as [threadFunction] sets them up for the command. *)
Definition readersOf (command : KACommand) (st : KAThread) : Prop :=
  mode (outputStream st) = getStandardOutput command /\
  mode (errorStream st) = getStandardError command /\
  identity (outputStream st) = "output" /\
  identity (errorStream st) = "error".

(** Nothing is held by the thread or by the readers. *)
Definition nothingHeld (st : KAThread) : Prop :=
  outBuff st = "" /\ errBuff st = "" /\
  buffer (outputStream st) = "" /\ buffer (errorStream st) = "".

(** Only the capture files of a stream whose mode captures are written. *)
Definition captureEffect (command : KACommand) (e : Effect) : Prop :=
  match e with
  | appendFile i _ _ =>
      (i = "output" /\ isCapture (getStandardOutput command) = true) \/
      (i = "error" /\ isCapture (getStandardError command) = true)
  | _ => True
  end.

(** The books balance over a step that reads nothing: what the step adds
    to the account and what is held after it are what was held before. *)
Definition ledger (a : Account) (st st' : KAThread) (tr : list Effect) : Prop :=
  (booked a tr ++ buffered a st' ++ pending a st')%string
  = (buffered a st ++ pending a st)%string.

(** The second of the minute the clock shows at a time given in seconds. *)
Definition secondOf (T : Z) : Z := T mod 60.

(** A timer as [optionReadSend] starts it at the time [T0]. *)
Definition startTimer (limit T0 : Z) : Timer :=
  {| startsec := secondOf T0; overflag := false; exectimeout := limit; count := 0 |}.

(** The timer is not ahead of the clock: it was started at [T0], was last
    polled at [T], and has counted no more than the seconds between a time
    up to [T] that its [startsec] stands for and [T0]. *)
Definition notAhead (T0 T : Z) (t : Timer) : Prop :=
  0 <= count t /\
  ((overflag t = false /\
    exists A, A <= T /\ secondOf A = startsec t /\ count t <= A - T0)
   \/
   (overflag t = true /\ exectimeout t <> 0 /\ startsec t = 0 /\
    secondOf T = 59 /\ count t <= T - T0)).

(** ** getProcessPid *)

Definition newline : ascii := ascii_of_nat 10.

Definition nl : string := String newline "".

Fixpoint noChar (c : ascii) (s : string) : Prop :=
  match s with
  | EmptyString => True
  | String d r => d <> c /\ noChar c r
  end.

(** The text of a line: at most [n] characters, none of them a newline or
    a NUL. *)
Definition lineText (n : nat) (s : string) : Prop :=
  (String.length s <= n)%nat /\ noChar newline s /\ noChar zero s.

(** Every line followed by a newline. *)
Fixpoint unlines (ls : list string) : string :=
  match ls with
  | [] => ""
  | l :: rest => (l ++ nl ++ unlines rest)%string
  end.

(** [fgets(buffer, n + 1, pipe)] on what is left of the stream: the
    characters up to and with the first newline, [n] at most, and what is
    left after them. *)
Fixpoint fgets (n : nat) (pipe : string) : string * string :=
  match n, pipe with
  | O, _ => ("", pipe)
  | _, EmptyString => ("", "")
  | S n', String c r =>
      if Ascii.eqb c newline then (String c "", r)
      else let '(b, rest) := fgets n' r in (String c b, rest)
  end.

(** [buffer[strlen(buffer)-1]='\0'].  On a buffer that starts with a NUL
    the source writes in front of the array; here the answer is the empty
    string. *)
Fixpoint dropLast (s : string) : string :=
  match s with
  | EmptyString => ""
  | String c r => if Str.empty r then "" else String c (dropLast r)
  end.

(** The [while(!feof(pipe))] loop.  [fgets] answers NULL on a stream that
    is used up, and the loop is left; every other call reads at least one
    character, so [fuel] turns suffice for a stream of [fuel] characters. *)
Fixpoint readPipe (fuel : nat) (pipe result : string) : string :=
  match fuel with
  | O => result
  | S fuel' =>
      if Str.empty pipe then result
      else
        let '(buffer, rest) := fgets 127 pipe in
        readPipe fuel' rest (dropLast (Str.c_str buffer))
  end.

(** [pipe] is what [popen] answers: nothing, or the stream of what the
    command prints. *)
Definition getProcessPid (pipe : option string) : string :=
  match pipe with
  | None => "ERROR"
  | Some out => readPipe (String.length out) out ""
  end.

(** ** KALogger *)

Module KALogger.

Local Open Scope string_scope.

(** What [second_clock::local_time()] answers, as far as the logger reads
    it. *)
Record ptime := {
  year : Z;
  month : Z;
  day : Z;
  hours : Z;
  minutes : Z;
  seconds : Z;
  total_milliseconds : Z
}.

(** The members: [logFile] is the name of the file the pointer stands for,
    if [fopen] gave one. *)
Record Logger := {
  loglevel : Z;
  logFile : option string
}.

Definition getLogLevel (this : Logger) : Z := loglevel this.

Definition setLogLevel (v : Z) (this : Logger) : Logger :=
  {| loglevel := v; logFile := logFile this |}.

(** [dummy << intcont]: the decimal digits, after a minus sign for a
    negative number. *)
Definition toString (intcont : Z) : string :=
  NilEmpty.string_of_int (Z.to_int intcont).

Definition getLocaltime (now : ptime) : string :=
  toString (day now) ++ "-" ++ toString (month now) ++ "-" ++ toString (year now)
  ++ " " ++ toString (hours now) ++ ":" ++ toString (minutes now)
  ++ ":" ++ toString (seconds now).

(** [fopen] is what the file system answers for a name. *)
Definition openLogFile (fopen : string -> bool) (now : ptime)
    (pid requestSequenceNumber : Z) (this : Logger) : bool * Logger :=
  let logFileName :=
    "/var/log/ksks-agent/"
    ++ toString (year now) ++ toString (month now) ++ toString (day now)
    ++ "-" ++ toString (total_milliseconds now)
    ++ "-" ++ toString pid ++ "-" ++ toString requestSequenceNumber in
  if fopen (Str.c_str logFileName)
  then (true, {| loglevel := loglevel this; logFile := Some (Str.c_str logFileName) |})
  else (false, {| loglevel := loglevel this; logFile := None |}).

Definition openLogFileWithName (fopen : string -> bool) (logfilename : string)
    (this : Logger) : bool * Logger :=
  let logfilename := "/var/log/ksks-agent/" ++ logfilename in
  if fopen (Str.c_str logfilename)
  then (true, {| loglevel := loglevel this; logFile := Some (Str.c_str logfilename) |})
  else (false, {| loglevel := loglevel this; logFile := None |}).

Definition setLogData (text param1 value1 param2 value2 : string) : string :=
  text ++ " " ++ param1 ++ " " ++ value1 ++ " " ++ param2 ++ " " ++ value2.

(** [fputs(log.c_str(), this->logFile)]: what is appended to the file. *)
Definition fputs (log : string) : list string := [Str.c_str log].

(** The result is what the call appends to the log file, [now] being what
    the clock shows; the file is taken to be open.  [fflush] changes
    nothing of what is written. *)
Definition writeLog (this : Logger) (now : ptime) (level : Z) (log : string)
  : list string :=
  match loglevel this with
  | 7 =>
      match level with
      | 7 => fputs (getLocaltime now ++ " <DEBUG>" ++ log ++ nl)
      | 6 => fputs (getLocaltime now ++ " <INFO>" ++ log ++ nl)
      | 5 => fputs (getLocaltime now ++ " <NOTICE>" ++ log ++ nl)
      | 4 => fputs (getLocaltime now ++ " <WARNING>" ++ log ++ nl)
      | 3 => fputs (getLocaltime now ++ " <ERROR>" ++ log ++ nl)
      | 2 => fputs (getLocaltime now ++ " <CRITICAL>" ++ log ++ nl)
      | 1 => fputs (getLocaltime now ++ " <ALERT>" ++ log ++ nl)
      | 0 => fputs (getLocaltime now ++ " <EMERGENCY>" ++ log ++ nl)
      | _ => []
      end
  | 6 =>
      match level with
      | 6 => fputs (getLocaltime now ++ " <INFO>" ++ log ++ nl)
      | 5 => fputs (getLocaltime now ++ " <NOTICE>" ++ log ++ nl)
      | 4 => fputs (getLocaltime now ++ " <WARNING>" ++ log ++ nl)
      | 3 => fputs (getLocaltime now ++ " <ERROR>" ++ log ++ nl)
      | 2 => fputs (getLocaltime now ++ " <CRITICAL>" ++ log ++ nl)
      | 1 => fputs (getLocaltime now ++ " <ALERT>" ++ log ++ nl)
      | 0 => fputs (getLocaltime now ++ " <EMERGENCY>" ++ log ++ nl)
      | _ => []
      end
  | 5 =>
      match level with
      | 5 => fputs (getLocaltime now ++ " <NOTICE>" ++ log ++ nl)
      | 4 => fputs (getLocaltime now ++ " <WARNING>" ++ log ++ nl)
      | 3 => fputs (getLocaltime now ++ " <ERROR>" ++ log ++ nl)
      | 2 => fputs (getLocaltime now ++ " <CRITICAL>" ++ log ++ nl)
      | 1 => fputs (getLocaltime now ++ " <ALERT>" ++ log ++ nl)
      | 0 => fputs (getLocaltime now ++ " <EMERGENCY>" ++ log ++ nl)
      | _ => []
      end
  | 4 =>
      match level with
      | 4 => fputs (getLocaltime now ++ " <WARNING>" ++ log ++ nl)
      | 3 => fputs (getLocaltime now ++ " <ERROR>" ++ log ++ nl)
      | 2 => fputs (getLocaltime now ++ " <CRITICAL>" ++ log ++ nl)
      | 1 => fputs (getLocaltime now ++ " <ALERT>" ++ log ++ nl)
      | 0 => fputs (getLocaltime now ++ " <EMERGENCY>" ++ log ++ nl)
      | _ => []
      end
  | 3 =>
      match level with
      | 3 => fputs (getLocaltime now ++ " <ERROR>" ++ log ++ nl)
      | 2 => fputs (getLocaltime now ++ " <CRITICAL>" ++ log ++ nl)
      | 1 => fputs (getLocaltime now ++ " <ALERT>" ++ log ++ nl)
      | 0 => fputs (getLocaltime now ++ " <EMERGENCY>" ++ log ++ nl)
      | _ => []
      end
  | 2 =>
      match level with
      | 2 => fputs (getLocaltime now ++ " <CRITICAL>" ++ log ++ nl)
      | 1 => fputs (getLocaltime now ++ " <ALERT>" ++ log ++ nl)
      | 0 => fputs (getLocaltime now ++ " <EMERGENCY>" ++ log ++ nl)
      | _ => []
      end
  | 1 =>
      match level with
      | 1 => fputs (getLocaltime now ++ " <ALERT>" ++ log ++ nl)
      | 0 => fputs (getLocaltime now ++ " <EMERGENCY>" ++ log ++ nl)
      | _ => []
      end
  | 0 =>
      match level with
      | 0 => fputs (getLocaltime now ++ " <EMERGENCY>" ++ log ++ nl)
      | _ => []
      end
  | _ => []
  end.

(** The name of a level, as the comment of [setLogLevel] has them. *)
Definition severity (level : Z) : string :=
  match level with
  | 7 => "DEBUG"
  | 6 => "INFO"
  | 5 => "NOTICE"
  | 4 => "WARNING"
  | 3 => "ERROR"
  | 2 => "CRITICAL"
  | 1 => "ALERT"
  | 0 => "EMERGENCY"
  | _ => ""
  end.

Definition withDate (m d : Z) (now : ptime) : ptime :=
  {| year := year now; month := m; day := d; hours := hours now;
     minutes := minutes now; seconds := seconds now;
     total_milliseconds := total_milliseconds now |}.

End KALogger.

(** * Proofs *)

(** ** Strings *)

Section Strings.

Lemma length_append (a b : string) :
  String.length (a ++ b)%string = (String.length a + String.length b)%nat.
Proof. induction a as [|c a IH]; cbn; [reflexivity | now rewrite IH]. Qed.

Lemma size_append (a b : string) : Str.size (a ++ b)%string = Str.size a + Str.size b.
Proof.
  unfold Str.size. induction a as [|c a IH]; cbn [append String.length].
  - lia.
  - lia.
Qed.

Lemma size_nonneg (a : string) : 0 <= Str.size a.
Proof. unfold Str.size. lia. Qed.

Lemma size_zero (a : string) : Str.size a = 0 <-> a = "".
Proof.
  unfold Str.size. destruct a; cbn [String.length]; split; intro H;
    try reflexivity; try discriminate; lia.
Qed.

Lemma empty_true (a : string) : Str.empty a = true <-> a = "".
Proof. destruct a; cbn; split; congruence. Qed.

Lemma append_nil_r (a : string) : (a ++ "")%string = a.
Proof. induction a as [|c a IH]; cbn; [reflexivity | now rewrite IH]. Qed.

Lemma append_assoc (a b c : string) : ((a ++ b) ++ c)%string = (a ++ (b ++ c))%string.
Proof. induction a as [|x a IH]; cbn; [reflexivity | now rewrite IH]. Qed.


Lemma substring_prefix_length (n : nat) (s : string) :
  String.length (substring 0 n s) = Nat.min n (String.length s).
Proof.
  revert s. induction n as [|n IH]; intro s.
  - destruct s; reflexivity.
  - destruct s as [|c s]; [reflexivity|]. cbn. now rewrite IH.
Qed.

Lemma substring_split (n : nat) (s : string) :
  (n <= String.length s)%nat ->
  (substring 0 n s ++ substring n (String.length s - n) s)%string = s.
Proof.
  revert s. induction n as [|n IH]; intros s Hn.
  - rewrite Nat.sub_0_r.
    assert (H0 : substring 0 0 s = "") by (destruct s; reflexivity).
    rewrite H0. clear H0 Hn. unfold append.
    induction s as [|c s IHs]; [reflexivity|]. cbn. now rewrite IHs.
  - destruct s as [|c s]; [cbn in Hn; lia|].
    cbn in Hn. cbn [String.length Nat.sub substring].
    unfold append; fold append. f_equal. apply IH. lia.
Qed.

Lemma substring_suffix_length (n : nat) (s : string) :
  (n <= String.length s)%nat ->
  String.length (substring n (String.length s - n) s) = (String.length s - n)%nat.
Proof.
  intro Hn. pose proof (substring_split n s Hn) as H.
  apply (f_equal String.length) in H.
  rewrite length_append, substring_prefix_length in H. lia.
Qed.

Lemma substr_prefix_size (n : Z) (s : string) :
  0 <= n -> Str.size (Str.substr 0 n s) = Z.min n (Str.size s).
Proof.
  intro Hn. unfold Str.size, Str.substr. change (Z.to_nat 0) with 0%nat.
  rewrite substring_prefix_length. lia.
Qed.

Lemma substr_split (n : Z) (s : string) :
  0 <= n <= Str.size s ->
  (Str.substr 0 n s ++ Str.substr n (Str.size s - n) s)%string = s.
Proof.
  intro Hn. unfold Str.size, Str.substr in *. change (Z.to_nat 0) with 0%nat.
  replace (Z.to_nat (Z.of_nat (String.length s) - n))
    with (String.length s - Z.to_nat n)%nat by lia.
  apply substring_split. lia.
Qed.

Lemma substr_suffix_size (n : Z) (s : string) :
  0 <= n <= Str.size s ->
  Str.size (Str.substr n (Str.size s - n) s) = Str.size s - n.
Proof.
  intro Hn. unfold Str.size, Str.substr in *.
  replace (Z.to_nat (Z.of_nat (String.length s) - n))
    with (String.length s - Z.to_nat n)%nat by lia.
  rewrite substring_suffix_length; lia.
Qed.


End Strings.

#[local] Arguments append : simpl never.

(** ** createExecString *)

Lemma fold_arguments (args : list string) (acc : string) :
  fold_left (fun acc arg => ((acc ++ arg) ++ " ")%string) args acc
  = (acc ++ argumentText args)%string.
Proof.
  revert acc. induction args as [|arg rest IH]; intro acc; cbn [fold_left argumentText].
  - now rewrite append_nil_r.
  - rewrite IH. now rewrite !append_assoc.
Qed.

Lemma fold_environment (env : list (string * string)) (acc : string) :
  fold_left (fun acc it =>
               let arg := Str.c_str (fst it) in
               let env := Str.c_str (snd it) in
               (((((acc ++ " export ") ++ arg) ++ "=") ++ env) ++ " && ")%string)
    env acc
  = (acc ++ exportText env)%string.
Proof.
  revert acc. induction env as [|[k v] rest IH]; intro acc; cbn [fold_left exportText].
  - now rewrite append_nil_r.
  - rewrite IH. cbn [fst snd]. now rewrite !append_assoc.
Qed.

Lemma argumentText_size (args : list string) :
  args <> [] -> 0 < Str.size (argumentText args).
Proof.
  destruct args as [|arg rest]; [congruence|]. intros _.
  cbn [argumentText]. rewrite !size_append.
  pose proof (size_nonneg arg). pose proof (size_nonneg (argumentText rest)).
  change (Str.size " ") with 1. lia.
Qed.

Lemma exportText_size (env : list (string * string)) :
  env <> [] -> 0 < Str.size (exportText env).
Proof.
  destruct env as [|[k v] rest]; [congruence|]. intros _.
  cbn [exportText]. rewrite !size_append.
  pose proof (size_nonneg (Str.c_str k)). pose proof (size_nonneg (Str.c_str v)).
  pose proof (size_nonneg (exportText rest)).
  change (Str.size " export ") with 8. change (Str.size "=") with 1.
  change (Str.size " && ") with 4. lia.
Qed.

(** What one call returns and leaves in the two members. *)
Lemma createExecString_call (command : KACommand) (st : KAThread) :
  let '(e, st', tr) := createExecString command st in
  argument st' = (argument st ++ argumentText (getArguments command))%string /\
  environment st' = (environment st ++ exportText (getEnvironment command))%string /\
  e = (environment st' ++ getProgram command ++ " " ++ argument st')%string /\
  tr = [].
Proof.
  unfold createExecString, bind, modify, get, ret.
  rewrite fold_arguments, fold_environment. cbn.
  destruct (Str.empty (environment st ++ exportText (getEnvironment command))) eqn:He;
    cbn.
  - apply empty_true in He. rewrite He. cbn. now rewrite ?append_assoc.
  - now rewrite ?append_assoc.
Qed.

(** C10.  [createExecString] is not idempotent: [argument] and [environment]
    are appended to and never cleared, so the second call on the same
    instance returns the export fragments twice, then the program, then the
    arguments twice, and that string is longer than the first whenever the
    command has an argument or an environment pair. *)
Theorem createExecString_not_idempotent (command : KACommand) (st : KAThread)
    (Hne : getArguments command <> [] \/ getEnvironment command <> []) :
  let A := argumentText (getArguments command) in
  let E := exportText (getEnvironment command) in
  let '(e1, st1, _) := createExecString command st in
  let '(e2, st2, _) := createExecString command st1 in
  e1 = ((environment st ++ E) ++ getProgram command ++ " " ++ (argument st ++ A))%string /\
  e2 = (((environment st ++ E) ++ E) ++ getProgram command ++ " "
        ++ ((argument st ++ A) ++ A))%string /\
  Str.size e1 < Str.size e2 /\
  e1 <> e2.
Proof.
  intros A E.
  pose proof (createExecString_call command st) as H1.
  destruct (createExecString command st) as [[e1 st1] t1].
  destruct H1 as (Ha1 & He1 & Hx1 & _).
  pose proof (createExecString_call command st1) as H2.
  destruct (createExecString command st1) as [[e2 st2] t2].
  destruct H2 as (Ha2 & He2 & Hx2 & _).
  rewrite Ha1 in Ha2. rewrite He1 in He2. rewrite Ha1, He1 in Hx1.
  rewrite Ha2, He2 in Hx2.
  fold A in Hx1, Hx2. fold E in Hx1, Hx2.
  assert (Hlt : Str.size e1 < Str.size e2).
  { subst e1 e2. rewrite !size_append.
    assert (0 < Str.size A + Str.size E).
    { pose proof (size_nonneg A). pose proof (size_nonneg E).
      destruct Hne as [Hn|Hn];
        [apply argumentText_size in Hn; fold A in Hn
        |apply exportText_size in Hn; fold E in Hn]; lia. }
    lia. }
  repeat split; try assumption.
  intro Heq. rewrite Heq in Hlt. lia.
Qed.

(** ** checkExecutionTimeout *)

(** Boolean comparisons on [Z] in the hypotheses, as propositions. *)
Ltac Zbool :=
  repeat match goal with
    | H : (_ >? _) = _ |- _ => rewrite Z.gtb_ltb in H
    | H : (_ >=? _) = _ |- _ => rewrite Z.geb_leb in H
    | H : (_ =? _) = true |- _ => apply Z.eqb_eq in H
    | H : (_ =? _) = false |- _ => apply Z.eqb_neq in H
    | H : (_ <? _) = true |- _ => apply Z.ltb_lt in H
    | H : (_ <? _) = false |- _ => apply Z.ltb_ge in H
    | H : (_ <=? _) = true |- _ => apply Z.leb_le in H
    | H : (_ <=? _) = false |- _ => apply Z.leb_gt in H
    end.

Lemma wrap32_small (z : Z) : 0 <= z < 2 ^ 32 -> wrap32 z = z.
Proof. intro H. unfold wrap32. now apply Z.mod_small. Qed.

Lemma wrap32_le (z : Z) : 0 <= z -> wrap32 z <= z.
Proof. intro H. unfold wrap32. apply Z.mod_le; lia. Qed.

(** With [exectimeout = 0] the call changes nothing and answers [false]. *)
Lemma checkExecutionTimeout_disabled (currentsec : Z) (t : Timer) :
  exectimeout t = 0 -> checkExecutionTimeout currentsec t = (false, t).
Proof. intro H. unfold checkExecutionTimeout. now rewrite H. Qed.

(** C7, as the code has it.  For a timer that is switched on
    ([exectimeout <> 0]) and a clock reading in [0, 59]: when
    [currentsec > startsec] and the latch is off, [count] advances by
    [currentsec - startsec] (in 32-bit unsigned arithmetic, so by exactly that
    much unless the sum passes 2^32), and the latch stays off provided
    [currentsec <> 59]; when [currentsec = 59] the latch is armed and
    [startsec] is 0; in every other case [count] is unchanged; and no call
    adds more than 59 to [count]. *)
Theorem checkExecutionTimeout_tick (currentsec : Z) (t : Timer)
    (Hon : exectimeout t <> 0)
    (Hsec : 0 <= currentsec <= 59)
    (Hstart : 0 <= startsec t)
    (Hcount : 0 <= count t) :
  let t' := snd (checkExecutionTimeout currentsec t) in
  (currentsec > startsec t -> overflag t = false ->
     count t' = wrap32 (count t + (currentsec - startsec t)) /\
     (count t + (currentsec - startsec t) < 2 ^ 32 ->
        count t' = count t + (currentsec - startsec t)) /\
     (currentsec <> 59 -> overflag t' = false /\ startsec t' = currentsec)) /\
  (currentsec = 59 -> overflag t' = true /\ startsec t' = 0) /\
  (~ (currentsec > startsec t /\ overflag t = false) -> count t' = count t) /\
  count t' - count t <= 59 /\
  fst (checkExecutionTimeout currentsec t) = (count t' >=? exectimeout t).
Proof.
  unfold checkExecutionTimeout.
  destruct (exectimeout t =? 0) eqn:He; [apply Z.eqb_eq in He; contradiction|].
  cbn [negb].
  destruct (currentsec >? startsec t) eqn:Hgt;
    destruct (overflag t) eqn:Hof;
    destruct (currentsec =? 59) eqn:H59;
    cbn [andb negb count overflag startsec exectimeout];
    match goal with
    | |- context [if ?c then (true, ?x) else (false, ?x)] =>
        destruct c eqn:Hfire; cbn [snd fst count overflag startsec exectimeout]
    end;
    Zbool; repeat split; intros;
    try congruence; try lia;
    try (apply wrap32_small; lia);
    try (pose proof (wrap32_le (count t + (currentsec - startsec t))); lia).
Qed.

(** C7 as worded fails twice: at [currentsec = 59 > startsec] with the latch
    off the latch does not stay off, and with [exectimeout = 0] the count does
    not advance. *)
Lemma checkExecutionTimeout_tick_counterexample :
  (let t := {| startsec := 58; overflag := false; exectimeout := 10; count := 0 |} in
   59 > startsec t /\ overflag t = false /\
   overflag (snd (checkExecutionTimeout 59 t)) = true) /\
  (let t := {| startsec := 10; overflag := false; exectimeout := 0; count := 0 |} in
   20 > startsec t /\ overflag t = false /\
   count (snd (checkExecutionTimeout 20 t)) = count t /\
   count (snd (checkExecutionTimeout 20 t)) <> count t + (20 - startsec t)).
Proof. cbn. repeat split; try reflexivity; lia. Qed.

Lemma checkExecutionTimeout_tick_witness :
  let t := {| startsec := 10; overflag := false; exectimeout := 30; count := 5 |} in
  count (snd (checkExecutionTimeout 20 t)) = 15 /\
  overflag (snd (checkExecutionTimeout 20 t)) = false.
Proof.
  intro t.
  assert (Hon : exectimeout t <> 0) by (cbn; lia).
  assert (Hsec : 0 <= 20 <= 59) by lia.
  assert (Hstart : 0 <= startsec t) by (cbn; lia).
  assert (Hcount : 0 <= count t) by (cbn; lia).
  destruct (checkExecutionTimeout_tick 20 t Hon Hsec Hstart Hcount)
    as [Hadv _].
  assert (Hgt : 20 > startsec t) by (cbn; lia).
  destruct (Hadv Hgt eq_refl) as (_ & Hexact & Hlatch).
  split.
  - rewrite Hexact; cbn; lia.
  - apply Hlatch. lia.
Defined.

(** ** Reasoning about runs *)

Lemma sent_app (a b : list Effect) : sent (a ++ b) = sent a ++ sent b.
Proof.
  induction a as [|e a IH]; [reflexivity|].
  destruct e; cbn [sent app]; rewrite ?IH; reflexivity.
Qed.

Lemma Forall_anyEffect (tr : list Effect) : Forall anyEffect tr.
Proof. induction tr; constructor; [exact Logic.I | assumption]. Qed.

Section Triple.

Variable E : Effect -> Prop.

Lemma triple_bind {A B} (P : KAThread -> Prop) (Q : A -> KAThread -> Prop)
    (R : B -> KAThread -> Prop) (m : M A) (f : A -> M B) :
  triple P E m Q -> (forall a, triple (Q a) E (f a) R) -> triple P E (bind m f) R.
Proof.
  intros Hm Hf st H. unfold bind.
  specialize (Hm st H). destruct (m st) as [[a st1] t1]. cbn in Hm.
  destruct Hm as [H1 HE1].
  specialize (Hf a st1 H1). destruct (f a st1) as [[b st2] t2]. cbn in Hf |- *.
  destruct Hf as [H2 HE2]. split; [assumption|].
  apply Forall_app; auto.
Qed.

Lemma triple_weaken {A} (P P' : KAThread -> Prop) (Q Q' : A -> KAThread -> Prop)
    (m : M A) :
  triple P E m Q -> (forall st, P' st -> P st) -> (forall a st, Q a st -> Q' a st) ->
  triple P' E m Q'.
Proof. intros Hm HP HQ st H. destruct (Hm st (HP st H)). auto. Qed.

Lemma triple_ret {A} (P : KAThread -> Prop) (Q : A -> KAThread -> Prop) (a : A) :
  (forall st, P st -> Q a st) -> triple P E (ret a) Q.
Proof. intros HQ st H. cbn. auto. Qed.

(** The state read by [get] is known to the rest. *)
Lemma triple_get_bind {B} (P : KAThread -> Prop) (R : B -> KAThread -> Prop)
    (f : KAThread -> M B) :
  (forall a, P a -> triple (fun st => st = a) E (f a) R) -> triple P E (bind get f) R.
Proof.
  intros Hf st H. unfold bind, get.
  specialize (Hf st H st eq_refl). destruct (f st st) as [[b st2] t2].
  cbn in Hf |- *. exact Hf.
Qed.

Lemma triple_and {A} (P1 P2 : KAThread -> Prop) (Q1 Q2 : A -> KAThread -> Prop)
    (m : M A) :
  triple P1 E m Q1 -> triple P2 anyEffect m Q2 ->
  triple (fun st => P1 st /\ P2 st) E m (fun a st => Q1 a st /\ Q2 a st).
Proof.
  intros H1 H2 st [Ha Hb]. destruct (H1 st Ha) as [? ?]. destruct (H2 st Hb) as [? _].
  auto.
Qed.

Variable I : KAThread -> Prop.

Lemma preserves_ret {A} (a : A) : preserves I E (ret a).
Proof. intros st H. cbn. auto. Qed.

Lemma preserves_get : preserves I E get.
Proof. intros st H. cbn. auto. Qed.

Lemma preserves_bind {A B} (m : M A) (f : A -> M B) :
  preserves I E m -> (forall a, preserves I E (f a)) -> preserves I E (bind m f).
Proof. apply triple_bind. Qed.

Lemma preserves_modify (f : KAThread -> KAThread) :
  (forall st, I st -> I (f st)) -> preserves I E (modify f).
Proof. intros Hf st H. cbn. auto. Qed.

Lemma preserves_emit (e : Effect) : E e -> preserves I E (emit e).
Proof. intros He st H. cbn. auto. Qed.

Lemma preserves_when (b : bool) (m : M unit) :
  preserves I E m -> preserves I E (when b m).
Proof. intro Hm. destruct b; cbn [when]; [assumption | apply preserves_ret]. Qed.

Lemma preserves_if {A} (b : bool) (m1 m2 : M A) :
  preserves I E m1 -> preserves I E m2 -> preserves I E (if b then m1 else m2).
Proof. destruct b; auto. Qed.

End Triple.

(** Structural steps; what is left are the [modify] and [emit] leaves and the
    calls of member functions. *)
Ltac pres_step :=
  match goal with
  | |- triple _ _ (bind _ _) _ => apply preserves_bind; [|intro]
  | |- triple _ _ (ret _) _ => apply preserves_ret
  | |- triple _ _ get _ => apply preserves_get
  | |- triple _ _ (when _ _) _ => apply preserves_when
  | |- triple _ _ (if _ then _ else _) _ => apply preserves_if
  | |- triple _ _ (let '(_, _) := ?x in _) _ => destruct x
  | |- triple _ _ (modify _) _ => apply preserves_modify
  | |- triple _ _ (emit _) _ => apply preserves_emit
  end.

Ltac pres := repeat pres_step.

(** Case analysis on every test of a member function applied to a state. *)
Ltac branches :=
  repeat match goal with
    | |- context [if ?c then _ else _] => destruct c eqn:?; cbn
    end.

(** *** The flags and the exit status

    Inside the loop [CWDERR] and [UIDERR] do not change, [EXITSTATUS] is 0
    exactly as long as no byte was appended to [errBuff], and nothing is
    handed to the queue but [createResponseMessage] messages; no signal is
    sent and the identity is not switched. *)

Section Flags.

Variable command : KACommand.
Variables c u : bool.

#[local] Abbreviation flagsInv := (flagsInv c u).
#[local] Abbreviation gatheredInv := (gatheredInv c u).

Ltac flags_leaf :=
  try (intros ? (? & ? & ? & ? & ? & ?);
       repeat split; cbn; auto; tauto);
  try (cbn; auto; fail).

Lemma sendCurrent_flags : preserves flagsInv loopEffect (sendCurrent command).
Proof. unfold sendCurrent. pres. cbn. reflexivity. Qed.

Lemma countUp_flags : preserves flagsInv loopEffect countUp.
Proof. unfold countUp. pres. flags_leaf. Qed.

Lemma clearout_flags : preserves flagsInv loopEffect clearout.
Proof. unfold clearout. pres. flags_leaf. Qed.

Lemma clearerr_flags : preserves flagsInv loopEffect clearerr.
Proof. unfold clearerr. pres. flags_leaf. Qed.

Ltac sub_leaf :=
  first [ apply sendCurrent_flags | apply countUp_flags
        | apply clearout_flags | apply clearerr_flags ].

Lemma sendBuffers_flags : preserves flagsInv loopEffect (sendBuffers command).
Proof. unfold sendBuffers. pres; sub_leaf. Qed.

Lemma lastCheckAndSend_flags : preserves flagsInv loopEffect (lastCheckAndSend command).
Proof.
  unfold lastCheckAndSend. pres; first [sub_leaf | apply sendBuffers_flags].
Qed.

Lemma checkAndSend_flags : preserves flagsInv loopEffect (checkAndSend command).
Proof.
  unfold checkAndSend. pres; first [sub_leaf | apply sendBuffers_flags].
Qed.

Lemma heartbeat_flags : preserves flagsInv loopEffect (heartbeat command).
Proof.
  unfold heartbeat. pres; first [sub_leaf | reflexivity].
Qed.

Lemma heartStep_flags (k : Tick) (heart : Timer) :
  preserves flagsInv loopEffect (heartStep command k heart).
Proof.
  unfold heartStep. pres; first [apply heartbeat_flags | flags_leaf].
Qed.

Lemma gatherBuffers_flags (outOpen errOpen : bool) :
  hoare flagsInv loopEffect (gatherBuffers outOpen errOpen) gatheredInv.
Proof.
  intros st (Hc & Hu & Hpos & Hrange & Hiff & Hbuf).
  unfold gatherBuffers, captureOutput, captureError, bind, modify, get, when, emit, ret.
  unfold gatheredInv. cbn. branches.
  all: split; [| repeat constructor].
  all: pose proof (size_nonneg (buffer (errorStream st))) as Hsz.
  all: repeat split; auto; try lia.
  all: try (intro H0;
            assert (Hb : Str.size (buffer (errorStream st)) = 0) by lia;
            apply size_zero in Hb; rewrite Hb, append_nil_r; apply Hbuf; lia).
  all: intro Hgt;
       destruct (Z.eq_dec (errSeen st) 0) as [Hz|Hnz];
       [ right; intro Hempty;
         assert (Hb : Str.size (errBuff st ++ buffer (errorStream st)) = 0)
           by (apply size_zero; exact Hempty);
         rewrite size_append in Hb; pose proof (size_nonneg (errBuff st)); lia
       | left; destruct Hrange as [H0|H1]; [apply Hiff in H0; contradiction | exact H1] ].
Qed.

Lemma fragment_flags : hoare gatheredInv loopEffect (fragment command) flagsInv.
Proof.
  intros st (Hc & Hu & Hpos & Hrange & Hone & Hbuf & Hseen).
  unfold fragment, checkAndSend, sendBuffers, sendCurrent, countUp, clearout, clearerr,
    bind, modify, get, when, emit, ret.
  unfold flagsInv, exitInv, MaxBuffSize. cbn. branches.
  all: split; [| repeat constructor].
  all: Zbool.
  all: assert (Hempty : errSeen st = 0 -> Str.size (errBuff st) = 0)
         by (intro H0; rewrite (Hbuf H0); reflexivity).
  all: assert (Hnon : Str.size (errBuff st) <= 0 -> errBuff st = "")
         by (intro H0; apply size_zero; pose proof (size_nonneg (errBuff st)); lia).
  all: repeat split; auto; try lia; try tauto.
  all: try (intros H0; apply Hempty in H0; lia).
  all: try (intros H0; destruct (Z.eq_dec (errSeen st) 0) as [Hz|Hnz]; [exact Hz|];
            assert (Hgt : 0 < errSeen st) by lia;
            destruct (Hseen Hgt) as [H1|H1]; [congruence | tauto]).
  all: try (intros H0; destruct Hrange as [Hr|Hr]; [exact Hr|];
            apply Hone in Hr; lia).
Qed.

Lemma checkAndWrite_flags (outOpen errOpen : bool) :
  preserves flagsInv loopEffect (checkAndWrite command outOpen errOpen).
Proof.
  unfold checkAndWrite.
  eapply triple_bind; [apply gatherBuffers_flags | intro; apply fragment_flags].
Qed.

Lemma multiplex_flags (ticks : list Tick) :
  forall exec heart, preserves flagsInv loopEffect (multiplex command ticks exec heart).
Proof.
  induction ticks as [|k rest IH]; intros exec heart; cbn [multiplex].
  - apply preserves_ret.
  - unfold select, readOutput, readError.
    pres;
      first [ apply IH | apply heartStep_flags | apply checkAndWrite_flags
            | flags_leaf ].
Qed.

End Flags.

(** *** The read results *)

Section Reads.

Variable command : KACommand.
Variables a b : Z.

Ltac reads_leaf :=
  try (intros ? [? ?]; split; cbn; auto; fail);
  try (exact Logic.I).

Lemma lastCheckAndSend_reads :
  preserves (readsInv a b) anyEffect (lastCheckAndSend command).
Proof.
  unfold lastCheckAndSend, sendBuffers, sendCurrent, countUp, clearout, clearerr.
  pres; reads_leaf.
Qed.

Lemma heartStep_reads (k : Tick) (heart : Timer) :
  preserves (readsInv a b) anyEffect (heartStep command k heart).
Proof.
  unfold heartStep, heartbeat, sendCurrent, countUp, clearout, clearerr.
  pres; reads_leaf.
Qed.

Lemma checkAndWrite_reads (outOpen errOpen : bool) :
  preserves (readsInv a b) anyEffect (checkAndWrite command outOpen errOpen).
Proof.
  unfold checkAndWrite, gatherBuffers, fragment, captureOutput, captureError,
    checkAndSend, sendBuffers, sendCurrent, countUp, clearout, clearerr.
  pres; reads_leaf.
Qed.

Lemma select_reads (k : Tick) : preserves (readsInv a b) anyEffect (select k).
Proof. unfold select. pres; reads_leaf. Qed.

End Reads.

Lemma checkExecutionTimeout_exectimeout (sec : Z) (t : Timer) :
  exectimeout (snd (checkExecutionTimeout sec t)) = exectimeout t /\
  (fst (checkExecutionTimeout sec t) = true -> exectimeout t <> 0).
Proof.
  unfold checkExecutionTimeout.
  destruct (exectimeout t =? 0) eqn:He; cbn [negb fst snd].
  - split; [reflexivity | discriminate].
  - Zbool. branches; cbn; auto.
Qed.

(** How the loop is left.  By the second [break] both read results are at
    most 0.  By the timeout, the timer is switched on, and either nothing was
    read yet (the read results are the ones the loop started with) or the last
    turn read something. *)
Lemma multiplex_break (command : KACommand) (ticks : list Tick) :
  forall exec heart a b,
    triple (readsInv a b) anyEffect (multiplex command ticks exec heart)
      (fun ex st =>
         match ex with
         | Break false =>
             readResult (outputStream st) <= 0 /\ readResult (errorStream st) <= 0
         | Break true =>
             exectimeout exec <> 0 /\
             (readsInv a b st \/
              0 < readResult (outputStream st) \/ 0 < readResult (errorStream st))
         | _ => True
         end).
Proof.
  induction ticks as [|k rest IH]; intros exec heart a b; cbn [multiplex].
  - apply triple_ret. auto.
  - eapply triple_bind; [apply select_reads|]. intros ?.
    pose proof (checkExecutionTimeout_exectimeout (secExec k) exec) as [Hsame Hon].
    destruct (checkExecutionTimeout (secExec k) exec) as [fired exec1].
    cbn [fst snd] in Hsame, Hon. destruct fired.
    + apply triple_ret. intros st H. split; [auto | left; exact H].
    + eapply triple_bind; [apply heartStep_reads|]. intros heart1.
      apply triple_get_bind. intros s _.
      destruct ((selectResult (outputStream s) =? -1)
                || (selectResult (errorStream s) =? -1)).
      { intros st _. cbn. split; [exact Logic.I | apply Forall_anyEffect]. }
      eapply triple_bind with (Q := fun _ _ => True).
      { intros st _. split; [exact Logic.I | apply Forall_anyEffect]. }
      intros ?.
      eapply triple_bind with (Q := fun _ _ => True).
      { intros st _. split; [exact Logic.I | apply Forall_anyEffect]. }
      intros ?.
      apply triple_get_bind. intros s2 _.
      eapply triple_bind
        with (Q := fun _ => readsInv (readResult (outputStream s2))
                               (readResult (errorStream s2))).
      { intros st Hst. subst st. split; [|apply Forall_anyEffect].
        destruct ((selectResult (outputStream s2) >? 0)
                  || (selectResult (errorStream s2) >? 0)); cbn; split; reflexivity. }
      intros ?.
      destruct ((readResult (outputStream s2) >? 0)
                || (readResult (errorStream s2) >? 0)) eqn:Hrr.
      * eapply triple_bind; [apply checkAndWrite_reads|]. intros ?.
        eapply triple_weaken;
          [apply (IH exec1 heart1 (readResult (outputStream s2))
                    (readResult (errorStream s2)))
          | intros ? H; exact H |].
        intros ex st Hex. cbn beta in Hex.
        destruct ex as [[|]| |]; auto.
        destruct Hex as [Hx [[Ho He]|Hgt]]; rewrite Hsame in Hx; split; auto.
        right. apply orb_true_iff in Hrr. rewrite <- Ho, <- He in Hrr.
        destruct Hrr as [Hr|Hr]; Zbool; [left|right]; lia.
      * apply triple_ret. intros st [Ho He].
        apply orb_false_iff in Hrr. destruct Hrr as [H1 H2]. Zbool.
        rewrite Ho, He. split; lia.
Qed.

(** *** The statements before and after the loop *)

Lemma setPpid_same (st : KAThread) : setPpid (processpid st) st = st.
Proof. destruct st; reflexivity. Qed.

(** Pid discovery changes [processpid] and nothing else. *)
Lemma findPid_state (newpid : Z) (probes : list (Z * Z)) :
  forall st, exists left p, findPid newpid probes st = (left, setPpid p st, []).
Proof.
  induction probes as [|[result grandchild] rest IH]; intro st; cbn [findPid].
  - exists false, (processpid st). unfold ret. now rewrite setPpid_same.
  - destruct (result =? 0).
    + unfold bind, modify, get. cbn.
      destruct (grandchild =? 0); cbn.
      * destruct (IH (setPpid newpid (setPpid grandchild st))) as (left & p & H).
        rewrite H. exists left, p. reflexivity.
      * exists true, grandchild. reflexivity.
    + unfold bind, when, modify, ret. destruct (result >? 0); cbn.
      * exists true, newpid. reflexivity.
      * exists true, (processpid st). now rewrite setPpid_same.
Qed.

Lemma prologue_run (command : KACommand) (w : World) (newpid : Z)
    (st st1 : KAThread) (t1 : list Effect) :
  prologue command w newpid st = (true, st1, t1) ->
  exists p, st1 = afterChecks w p st /\ t1 = checksTrace command w p.
Proof.
  unfold prologue, bind, modify. cbn.
  destruct (findPid_state newpid (probes w) (setPpid newpid st)) as (left & p & H).
  rewrite H. destruct left; cbn [negb]; [|discriminate].
  unfold checkCWD, checkUID, cwdError, uidError, afterChecks, checksTrace,
    bind, modify, get, emit, when, ret.
  destruct (cwdOk w), (found (ids w)); cbn; intro Heq; inversion Heq; subst;
    exists p; split; reflexivity.
Qed.

(** [lastCheckAndSend] changes the two buffers and [responsecount] only. *)
Lemma lastCheckAndSend_frame (command : KACommand) (st : KAThread) :
  let st' := snd (fst (lastCheckAndSend command st)) in
  CWDERR st' = CWDERR st /\ UIDERR st' = UIDERR st /\
  EXITSTATUS st' = EXITSTATUS st /\ errSeen st' = errSeen st /\
  outputStream st' = outputStream st /\ errorStream st' = errorStream st /\
  processpid st' = processpid st /\
  outBuff st' = "" /\ errBuff st' = "".
Proof.
  unfold lastCheckAndSend, sendBuffers, sendCurrent, countUp, clearout, clearerr,
    bind, modify, get, emit, ret.
  cbn.
  destruct (Str.size (outBuff st) =? 0) eqn:Ho;
    destruct (Str.size (errBuff st) =? 0) eqn:He; cbn; branches;
    Zbool; rewrite ?size_zero in *; repeat split; auto.
Qed.

Lemma lastCheckAndSend_empty (command : KACommand) (st : KAThread) :
  outBuff st = "" -> errBuff st = "" -> lastCheckAndSend command st = (tt, st, []).
Proof.
  intros Ho He. unfold lastCheckAndSend, bind, get. cbn.
  rewrite Ho, He. reflexivity.
Qed.

Lemma loopEffect_sent (tr : list Effect) :
  Forall loopEffect tr ->
  Forall (fun m => isProgress m = true) (sent tr) /\
  Forall (fun e => isSetuid e = false) tr.
Proof.
  induction 1 as [|e tr He _ [IH1 IH2]]; [split; constructor|].
  destruct e; cbn in He |- *; try contradiction; split; auto.
Qed.

(** Whatever the state, the loop and the drain only do [loopEffect]s. *)
Section Effects.

Variable command : KACommand.

Ltac effect_leaf := first [exact Logic.I | reflexivity | (intros; exact Logic.I)].

Lemma lastCheckAndSend_effects :
  preserves always loopEffect (lastCheckAndSend command).
Proof.
  unfold lastCheckAndSend, sendBuffers, sendCurrent, countUp, clearout, clearerr.
  pres; effect_leaf.
Qed.

Lemma heartStep_effects (k : Tick) (heart : Timer) :
  preserves always loopEffect (heartStep command k heart).
Proof.
  unfold heartStep, heartbeat, sendCurrent, countUp, clearout, clearerr.
  pres; effect_leaf.
Qed.

Lemma checkAndWrite_effects (outOpen errOpen : bool) :
  preserves always loopEffect (checkAndWrite command outOpen errOpen).
Proof.
  unfold checkAndWrite, gatherBuffers, fragment, captureOutput, captureError,
    checkAndSend, sendBuffers, sendCurrent, countUp, clearout, clearerr.
  pres; effect_leaf.
Qed.

Lemma multiplex_effects (ticks : list Tick) :
  forall exec heart, preserves always loopEffect (multiplex command ticks exec heart).
Proof.
  induction ticks as [|k rest IH]; intros exec heart; cbn [multiplex].
  - apply preserves_ret.
  - unfold select, readOutput, readError.
    pres;
      first [ effect_leaf | apply IH | apply heartStep_effects
            | apply checkAndWrite_effects ].
Qed.

End Effects.

(** What follows the loop: the drain, then the Timeout message if the timeout
    fired, then the Exit message if both read results are 0. *)
Lemma epilogue_run (command : KACommand) (EXECTIMEOUT : bool) (st : KAThread) :
  let '(r, st', tr) := epilogue command EXECTIMEOUT st in
  r = 1 /\
  CWDERR st' = CWDERR st /\ UIDERR st' = UIDERR st /\
  EXITSTATUS st' = EXITSTATUS st /\ errSeen st' = errSeen st /\
  outputStream st' = outputStream st /\ errorStream st' = errorStream st /\
  Forall (fun e => isSetuid e = false) tr /\
  exists pre p n,
    Forall (fun m => isProgress m = true) pre /\
    sent tr =
      pre
      ++ (if EXECTIMEOUT
          then [createTimeoutMessage (getUuid command) p
                  (getRequestSequenceNumber command) n "" ""
                  (getSource command) (getTaskUuid command)]
          else [])
      ++ (if bothZero st
          then [createExitMessage (getUuid command) p
                  (getRequestSequenceNumber command) n
                  (getSource command) (getTaskUuid command) (exitCodeOf st)]
          else []).
Proof.
  pose proof (lastCheckAndSend_frame command st) as Hf.
  destruct (lastCheckAndSend_effects command st Logic.I) as [_ Hl].
  apply loopEffect_sent in Hl. destruct Hl as [Hprog Hnos].
  unfold epilogue, timeoutDone, executeDone, bind, when, get, emit, ret.
  destruct EXECTIMEOUT; cbn -[lastCheckAndSend Z.eqb];
    fold (bothZero st); fold (exitCodeOf st).
  - destruct (lastCheckAndSend command st) as [[[] s1] d1] eqn:Hd.
    cbn [fst snd] in Hf, Hprog, Hnos.
    destruct Hf as (Hc & Hu & Hx & Hs & Hos & Hes & Hp & Hob & Heb).
    assert (Hbz : bothZero s1 = bothZero st) by (unfold bothZero; now rewrite Hos, Hes).
    assert (Hcode : exitCodeOf s1 = exitCodeOf st)
      by (unfold exitCodeOf; now rewrite Hc, Hu, Hx).
    destruct (processpid s1 =? 0); cbn -[lastCheckAndSend Z.eqb];
      fold (bothZero s1); rewrite Hbz; destruct (bothZero st) eqn:Hz;
      cbn -[lastCheckAndSend Z.eqb];
      rewrite ?(lastCheckAndSend_empty command s1 Hob Heb);
      cbn -[Z.eqb]; fold (exitCodeOf s1); rewrite ?Hcode;
      repeat split; auto.
    all: try (rewrite ?Forall_app; repeat split; try assumption; repeat constructor; fail).
    all: exists (sent d1), (processpid s1), (responsecount s1);
      (split; [assumption|]); rewrite <- ?app_assoc, !sent_app; reflexivity.
  - destruct (bothZero st) eqn:Hz.
    + destruct (lastCheckAndSend command st) as [[[] s1] d1] eqn:Hd.
      cbn [fst snd] in Hf, Hprog, Hnos.
      destruct Hf as (Hc & Hu & Hx & Hs & Hos & Hes & Hp & Hob & Heb).
      cbn -[Z.eqb]. repeat split; auto.
      * rewrite ?app_nil_r, ?Forall_app; repeat split; try assumption;
          repeat constructor.
      * exists (sent d1), (processpid s1), (responsecount s1).
        split; [assumption|]. rewrite ?app_nil_r, !sent_app. reflexivity.
    + cbn. repeat split; auto.
      exists [], 0, 0. split; [constructor | reflexivity].
Qed.

(** *** optionReadSend as a whole *)

Lemma optionReadSend_returns (command : KACommand) (w : World) (newpid : Z)
    (st st' : KAThread) (r : Z) (tr : list Effect) :
  optionReadSend command w newpid st = (Some r, st', tr) ->
  exists p ex st2 t2,
    multiplex command (ticks w) (execTimer command w) (heartReset (clockStartHeart w))
      (afterChecks w p st) = (ex, st2, t2) /\
    ((ex = ReturnError /\ r = -1 /\ st' = st2 /\
      tr = checksTrace command w p ++ t2)
     \/
     (exists EXECTIMEOUT t3,
        ex = Break EXECTIMEOUT /\
        epilogue command EXECTIMEOUT st2 = (r, st', t3) /\
        tr = checksTrace command w p ++ t2 ++ t3)).
Proof.
  unfold optionReadSend, bind.
  destruct (prologue command w newpid st) as [[started st1] t1] eqn:Hp.
  destruct started; cbn [negb]; [|discriminate].
  apply prologue_run in Hp. destruct Hp as (p & -> & ->).
  fold (execTimer command w).
  destruct (multiplex command (ticks w) (execTimer command w)
              (heartReset (clockStartHeart w)) (afterChecks w p st))
    as [[ex st2] t2] eqn:Hm.
  intro H. exists p, ex, st2, t2. split; [first [exact Hm | reflexivity]|].
  destruct ex as [EXECTIMEOUT| |].
  - right.
    destruct (epilogue command EXECTIMEOUT st2) as [[r0 st3] t3] eqn:He.
    cbn in H. inversion H; subst. exists EXECTIMEOUT, t3.
    rewrite app_nil_r. auto.
  - left. cbn in H. inversion H; subst. rewrite app_nil_r. auto.
  - cbn in H. discriminate.
Qed.

Lemma afterChecks_streams (w : World) (p : Z) (st : KAThread) :
  outputStream (afterChecks w p st) = outputStream st /\
  errorStream (afterChecks w p st) = errorStream st.
Proof. unfold afterChecks. destruct (cwdOk w), (found (ids w)); cbn; auto. Qed.

Lemma checksTrace_sent (command : KACommand) (w : World) (p : Z) :
  Forall (fun m => isProgress m = true) (sent (checksTrace command w p)).
Proof.
  unfold checksTrace. destruct (cwdOk w), (found (ids w)); cbn; repeat constructor.
Qed.

(** The messages of a run that returns: those of the two checks, Progress
    messages of the loop and the drain, then the Timeout message if the
    timeout fired, then the Exit message if both read results are 0; no
    Timeout and no Exit message after a failed select. *)
Lemma optionReadSend_messages (command : KACommand) (w : World) (newpid : Z)
    (st st' : KAThread) (r : Z) (tr : list Effect) :
  optionReadSend command w newpid st = (Some r, st', tr) ->
  exists p mid,
    Forall (fun m => isProgress m = true) mid /\
    ((r = -1 /\ sent tr = sent (checksTrace command w p) ++ mid)
     \/
     (r = 1 /\
      exists T X (EXECTIMEOUT : bool),
        isTimeout T = true /\ isExit X = true /\
        exitCode X = Some (exitCodeOf st') /\
        sent tr = sent (checksTrace command w p) ++ mid
                    ++ (if EXECTIMEOUT then [T] else [])
                    ++ (if bothZero st' then [X] else []) /\
        (EXECTIMEOUT = true ->
           wrap32 (getTimeout command) <> 0 /\
           (readsInv (readResult (outputStream st)) (readResult (errorStream st)) st'
            \/ 0 < readResult (outputStream st') \/ 0 < readResult (errorStream st'))) /\
        (EXECTIMEOUT = false ->
           readResult (outputStream st') <= 0 /\ readResult (errorStream st') <= 0))).
Proof.
  intro H. apply optionReadSend_returns in H.
  destruct H as (p & ex & st2 & t2 & Hm & Hcase).
  destruct (multiplex_effects command (ticks w) (execTimer command w)
              (heartReset (clockStartHeart w)) (afterChecks w p st) Logic.I)
    as [_ Heff].
  rewrite Hm in Heff. cbn [snd] in Heff.
  apply loopEffect_sent in Heff. destruct Heff as [Hprog _].
  destruct Hcase as [(-> & -> & -> & ->) | (b & t3 & -> & He & ->)].
  - exists p, (sent t2). split; [assumption|]. left.
    split; [reflexivity|]. now rewrite sent_app.
  - destruct (afterChecks_streams w p st) as [Hso Hse].
    destruct (multiplex_break command (ticks w) (execTimer command w)
                (heartReset (clockStartHeart w))
                (readResult (outputStream st)) (readResult (errorStream st))
                (afterChecks w p st)) as [Hpost _].
    { unfold readsInv. now rewrite Hso, Hse. }
    rewrite Hm in Hpost. cbn [fst snd] in Hpost.
    pose proof (epilogue_run command b st2) as Hrun. rewrite He in Hrun.
    destruct Hrun as (-> & Hc & Hu & Hx & _ & Hos & Hes & _ & pre & q & n & Hpre & Hsent).
    assert (Hcode : exitCodeOf st' = exitCodeOf st2)
      by (unfold exitCodeOf; now rewrite Hc, Hu, Hx).
    exists p, (sent t2 ++ pre).
    split; [apply Forall_app; split; assumption|]. right.
    split; [reflexivity|].
    exists (createTimeoutMessage (getUuid command) q
              (getRequestSequenceNumber command) n "" ""
              (getSource command) (getTaskUuid command)).
    exists (createExitMessage (getUuid command) q
              (getRequestSequenceNumber command) n
              (getSource command) (getTaskUuid command) (exitCodeOf st2)).
    exists b.
    assert (Hbz : bothZero st' = bothZero st2)
      by (unfold bothZero; now rewrite Hos, Hes).
    rewrite Hbz.
    split; [reflexivity|]. split; [reflexivity|].
    split; [cbn; now rewrite Hcode|].
    split.
    { rewrite !sent_app, Hsent, <- !app_assoc. reflexivity. }
    unfold readsInv. rewrite Hos, Hes.
    destruct b; split; intro Hb; try discriminate; exact Hpost.
Qed.

Lemma optionReadSend_terminal (command : KACommand) (w : World) (newpid : Z)
    (st st' : KAThread) (r : Z) (tr : list Effect) :
  optionReadSend command w newpid st = (Some r, st', tr) ->
  (r = -1 /\ Forall (fun m => isProgress m = true) (sent tr))
  \/
  (r = 1 /\
   exists pre T X (EXECTIMEOUT : bool),
     Forall (fun m => isProgress m = true) pre /\
     isTimeout T = true /\ isExit X = true /\
     exitCode X = Some (exitCodeOf st') /\
     sent tr = pre ++ (if EXECTIMEOUT then [T] else [])
                   ++ (if bothZero st' then [X] else []) /\
     (EXECTIMEOUT = true ->
        wrap32 (getTimeout command) <> 0 /\
        (readsInv (readResult (outputStream st)) (readResult (errorStream st)) st'
         \/ 0 < readResult (outputStream st') \/ 0 < readResult (errorStream st'))) /\
     (EXECTIMEOUT = false ->
        readResult (outputStream st') <= 0 /\ readResult (errorStream st') <= 0)).
Proof.
  intro H. apply optionReadSend_messages in H.
  destruct H as (p & mid & Hmid & Hcase).
  pose proof (checksTrace_sent command w p) as Hchecks.
  destruct Hcase as [[-> Hsent] | (-> & T & X & b & HT & HX & Hcode & Hsent & Hrest)].
  - left. split; [reflexivity|]. rewrite Hsent. apply Forall_app. auto.
  - right. split; [reflexivity|].
    exists (sent (checksTrace command w p) ++ mid), T, X, b.
    split; [apply Forall_app; auto|].
    repeat (split; [assumption|]).
    split; [|exact Hrest].
    rewrite Hsent, <- !app_assoc. reflexivity.
Qed.

(** *** The two error flags alone *)

Section ErrorFlags.

Variable command : KACommand.
Variables c u : bool.

Ltac flag_leaf :=
  try (intros ? [? ?]; split; cbn; auto; fail);
  try (exact Logic.I).

Lemma multiplex_errorFlags (ticks : list Tick) :
  forall exec heart,
    preserves (errorFlags c u) anyEffect (multiplex command ticks exec heart).
Proof.
  induction ticks as [|k rest IH]; intros exec heart; cbn [multiplex].
  - apply preserves_ret.
  - unfold select, readOutput, readError, heartStep, heartbeat,
      checkAndWrite, gatherBuffers, fragment, captureOutput, captureError,
      checkAndSend, sendBuffers, sendCurrent, countUp, clearout, clearerr.
    pres; first [ apply IH | flag_leaf ].
Qed.

End ErrorFlags.

Lemma afterChecks_flags (w : World) (p : Z) (st : KAThread) :
  CWDERR (afterChecks w p st) = CWDERR st || negb (cwdOk w) /\
  UIDERR (afterChecks w p st) = UIDERR st || negb (found (ids w)) /\
  EXITSTATUS (afterChecks w p st) = EXITSTATUS st /\
  errSeen (afterChecks w p st) = errSeen st /\
  errBuff (afterChecks w p st) = errBuff st.
Proof.
  unfold afterChecks. destruct (cwdOk w), (found (ids w)); cbn;
    rewrite ?orb_true_r, ?orb_false_r; auto.
Qed.

(** The flags at the end of a run that returns. *)
Lemma optionReadSend_errorFlags (command : KACommand) (w : World) (newpid : Z)
    (st st' : KAThread) (r : Z) (tr : list Effect) :
  optionReadSend command w newpid st = (Some r, st', tr) ->
  CWDERR st' = CWDERR st || negb (cwdOk w) /\
  UIDERR st' = UIDERR st || negb (found (ids w)).
Proof.
  intro H. apply optionReadSend_returns in H.
  destruct H as (p & ex & st2 & t2 & Hm & Hcase).
  destruct (afterChecks_flags w p st) as (Hc & Hu & _).
  destruct (multiplex_errorFlags command _ _ (ticks w) (execTimer command w)
              (heartReset (clockStartHeart w)) (afterChecks w p st)
              (conj eq_refl eq_refl)) as [[Hc2 Hu2] _].
  rewrite Hm in Hc2, Hu2. cbn [fst snd] in Hc2, Hu2.
  destruct Hcase as [(_ & _ & -> & _) | (b & t3 & _ & He & _)].
  - now rewrite Hc2, Hu2.
  - pose proof (epilogue_run command b st2) as Hrun. rewrite He in Hrun.
    destruct Hrun as (_ & Hc3 & Hu3 & _).
    now rewrite Hc3, Hu3, Hc2, Hu2.
Qed.

Lemma optionReadSend_exitInv (command : KACommand) (w : World) (newpid : Z)
    (st st' : KAThread) (r : Z) (tr : list Effect) :
  exitInv st ->
  optionReadSend command w newpid st = (Some r, st', tr) ->
  (EXITSTATUS st' = 0 \/ EXITSTATUS st' = 1) /\
  (EXITSTATUS st' = 0 <-> errSeen st' = 0).
Proof.
  intros Hinv H. apply optionReadSend_returns in H.
  destruct H as (p & ex & st2 & t2 & Hm & Hcase).
  destruct (afterChecks_flags w p st) as (_ & _ & Hx & Hs & Hb).
  destruct (multiplex_flags command (CWDERR (afterChecks w p st))
              (UIDERR (afterChecks w p st)) (ticks w) (execTimer command w)
              (heartReset (clockStartHeart w)) (afterChecks w p st))
    as [(_ & _ & _ & Hrange & Hiff & _) _].
  { split; [reflexivity|]. split; [reflexivity|].
    unfold exitInv. rewrite Hx, Hs, Hb. exact Hinv. }
  rewrite Hm in Hrange, Hiff. cbn [fst snd] in Hrange, Hiff.
  destruct Hcase as [(_ & _ & -> & _) | (b & t3 & _ & He & _)].
  - auto.
  - pose proof (epilogue_run command b st2) as Hrun. rewrite He in Hrun.
    destruct Hrun as (_ & _ & _ & Hx3 & Hs3 & _).
    rewrite Hx3, Hs3. auto.
Qed.

(** * The responses of the worker *)

(** ** C1: the response counter *)

(** C1, at a failing input.  The user of the command does not exist and the
    child ends at once.  The worker hands two messages to the queue, the
    Progress message of the failed check and the Exit message, and both carry
    response count 1: the check writes the literal 1 and does not add one to
    [responsecount]. *)
Theorem responseCount_repeats_for_missing_user :
  let '(_, _, tr) :=
    threadFunction (withRunAs "nosuchuser" echoCommand)
      (outerParentOf true (sampleWorld true noIds [eof 0])) newThread in
  map isProgress (sent tr) = [true; false] /\
  map isExit (sent tr) = [false; true] /\
  map messageUuid (sent tr) = ["c0ffee"; "c0ffee"]%string /\
  map responseCount (sent tr) = [1; 1] /\
  strictlyIncreasing (map responseCount (sent tr)) = false.
Proof. vm_compute. repeat split; reflexivity. Qed.

(** ** C2: the terminal message *)

Lemma progress_not_terminal (l : list Message) :
  Forall (fun m => isProgress m = true) l -> Forall (fun m => isTerminal m = false) l.
Proof.
  apply Forall_impl. intros m H. destruct m; cbn in H |- *; congruence.
Qed.

(** ** C3: the exit code *)

(** C3.  From a thread whose flags, exit status and error buffer are as the
    constructor leaves them, every Exit message of a run carries exit code 0
    or 1; it carries 0 exactly when no byte was ever appended to [errBuff],
    the working directory check succeeded and the user was found; and it
    carries 1 exactly when one of [EXITSTATUS], [CWDERR], [UIDERR] is set. *)
Theorem exitCode_zero_iff_clean (command : KACommand) (w : World) (newpid : Z)
    (st st' : KAThread) (r : Z) (tr : list Effect)
    (Hcwd : CWDERR st = false) (Huid : UIDERR st = false)
    (Hexit : EXITSTATUS st = 0) (Hseen : errSeen st = 0) (Hbuf : errBuff st = "")
    (Hrun : optionReadSend command w newpid st = (Some r, st', tr)) :
  forall m, In m (sent tr) -> isExit m = true ->
    (exitCode m = Some 0 \/ exitCode m = Some 1) /\
    (exitCode m = Some 0 <->
       errSeen st' = 0 /\ cwdOk w = true /\ found (ids w) = true) /\
    (exitCode m = Some 1 <->
       EXITSTATUS st' <> 0 \/ CWDERR st' = true \/ UIDERR st' = true).
Proof.
  intros m Hin Hm.
  assert (Hinv : exitInv st).
  { unfold exitInv. rewrite Hexit, Hseen. repeat split; auto; lia. }
  destruct (optionReadSend_errorFlags _ _ _ _ _ _ _ Hrun) as [Hc Hu].
  rewrite Hcwd in Hc. rewrite Huid in Hu. cbn [orb] in Hc, Hu.
  destruct (optionReadSend_exitInv _ _ _ _ _ _ _ Hinv Hrun) as [Hrange Hiff].
  assert (Hcode : exitCode m = Some (exitCodeOf st')).
  { destruct (optionReadSend_terminal _ _ _ _ _ _ _ Hrun)
      as [[_ Hall] | (_ & pre & T & X & b & Hpre & HT & HX & HcodeX & Hsent & _)].
    - rewrite Forall_forall in Hall. apply Hall in Hin.
      destruct m; cbn in Hin, Hm; congruence.
    - rewrite Hsent in Hin. rewrite Forall_forall in Hpre.
      apply in_app_or in Hin. destruct Hin as [Hin|Hin].
      { apply Hpre in Hin. destruct m; cbn in Hin, Hm; congruence. }
      apply in_app_or in Hin. destruct Hin as [Hin|Hin].
      { destruct b; cbn in Hin; [|contradiction].
        destruct Hin as [<-|[]]. destruct T; cbn in HT, Hm; congruence. }
      destruct (bothZero st'); cbn in Hin; [|contradiction].
      destruct Hin as [<-|[]]. exact HcodeX. }
  rewrite Hcode. unfold exitCodeOf. rewrite Hc, Hu.
  destruct (cwdOk w), (found (ids w)); cbn [negb orb];
    destruct (EXITSTATUS st' =? 0) eqn:He; Zbool; cbn [negb orb];
    repeat split; intros; auto; try congruence; try tauto;
    try (apply Hiff; assumption);
    try (destruct H as (H1 & _ & _); apply Hiff in H1; contradiction);
    try (destruct H as (_ & H1 & _); discriminate);
    try (destruct H as (_ & _ & H1); discriminate);
    try (destruct H as [H1|[H1|H1]]; try contradiction; discriminate).
Qed.

Lemma exitCode_zero_iff_clean_witness :
  let run := optionReadSend echoCommand
               (sampleWorld true rootIds [erroutput 0 "oops"; eof 0]) 100
               (workerThread echoCommand) in
  let m := createExitMessage "c0ffee" 4242 7 1 "test" "task" 1 in
  In m (sent (snd run)) /\
  (exitCode m = Some 0 \/ exitCode m = Some 1) /\
  (exitCode m = Some 0 <->
     errSeen (snd (fst run)) = 0 /\ true = true /\ found rootIds = true) /\
  (exitCode m = Some 1 <->
     EXITSTATUS (snd (fst run)) <> 0 \/ CWDERR (snd (fst run)) = true
     \/ UIDERR (snd (fst run)) = true).
Proof.
  intros run m.
  assert (Hrun : run = (Some 1, snd (fst run), snd run)) by (vm_compute; reflexivity).
  assert (Hin : In m (sent (snd run))) by (vm_compute; left; reflexivity).
  split; [exact Hin|].
  exact (exitCode_zero_iff_clean echoCommand _ 100
           (workerThread echoCommand) _ _ _
           eq_refl eq_refl eq_refl eq_refl eq_refl Hrun m Hin eq_refl).
Defined.

(** ** C6: the user that does not exist *)

(** C6, as the code has it.  When the user is not found, a run that returns
    has handed over the Progress message of the failed check, after at most
    the one of the working directory: its stderr payload is the literal text,
    its stdout payload is empty and its response count is 1.  Every Exit
    message that follows carries exit code 1, and one does follow, as the last
    message, when the run ends without a failed select and with both read
    results 0. *)
Theorem missing_user_reported (command : KACommand) (w : World) (newpid : Z)
    (st st' : KAThread) (r : Z) (tr : list Effect)
    (Hmiss : found (ids w) = false)
    (Hrun : optionReadSend command w newpid st = (Some r, st', tr)) :
  exists pre p post,
    sent tr = pre ++ uidMessage command p :: post /\
    (pre = [] \/ pre = [cwdMessage command p]) /\
    isProgress (uidMessage command p) = true /\
    stdErr (uidMessage command p) = "User Does Not Exist on System" /\
    stdOut (uidMessage command p) = "" /\
    responseCount (uidMessage command p) = 1 /\
    (forall m, In m post -> isExit m = true -> exitCode m = Some 1) /\
    (r <> -1 -> bothZero st' = true ->
     exists post' X, post = post' ++ [X] /\ isExit X = true /\ exitCode X = Some 1).
Proof.
  destruct (optionReadSend_errorFlags _ _ _ _ _ _ _ Hrun) as [_ Hu].
  rewrite Hmiss, orb_true_r in Hu.
  assert (Hone : exitCodeOf st' = 1).
  { unfold exitCodeOf. rewrite Hu, !orb_true_r. reflexivity. }
  destruct (optionReadSend_messages _ _ _ _ _ _ _ Hrun) as (p & mid & Hmid & Hcase).
  assert (Hchecks : exists pre, sent (checksTrace command w p) = pre ++ [uidMessage command p]
                                /\ (pre = [] \/ pre = [cwdMessage command p])).
  { unfold checksTrace. rewrite Hmiss. destruct (cwdOk w); cbn.
    - exists []. auto.
    - exists [cwdMessage command p]. auto. }
  destruct Hchecks as (pre & Hpre & Hshape).
  rewrite Forall_forall in Hmid.
  destruct Hcase as [[-> Hsent] | (-> & T & X & b & HT & HX & Hcode & Hsent & _)].
  - exists pre, p, mid. rewrite Hsent, Hpre, <- app_assoc.
    repeat split; auto.
    + intros m Hin Hm. apply Hmid in Hin. destruct m; cbn in Hin, Hm; congruence.
    + intro H. exfalso. apply H. reflexivity.
  - exists pre, p,
      (mid ++ (if b then [T] else []) ++ (if bothZero st' then [X] else [])).
    rewrite Hsent, Hpre, <- app_assoc.
    repeat split; auto.
    + intros m Hin Hm.
      apply in_app_or in Hin. destruct Hin as [Hin|Hin].
      { apply Hmid in Hin. destruct m; cbn in Hin, Hm; congruence. }
      apply in_app_or in Hin. destruct Hin as [Hin|Hin].
      { destruct b; cbn in Hin; [|contradiction].
        destruct Hin as [<-|[]]. destruct T; cbn in HT, Hm; congruence. }
      destruct (bothZero st'); cbn in Hin; [|contradiction].
      destruct Hin as [<-|[]]. now rewrite Hcode, Hone.
    + intros _ Hz. rewrite Hz.
      exists (mid ++ (if b then [T] else [])), X.
      rewrite <- app_assoc. repeat split; auto. now rewrite Hcode, Hone.
Qed.

(** C6 fails as worded: the text is in the stderr payload of the Progress
    message, the stdout payload is empty. *)
Lemma missing_user_reported_counterexample :
  let '(_, _, tr) :=
    threadFunction (withRunAs "nosuchuser" echoCommand)
      (outerParentOf true (sampleWorld true noIds [eof 0])) newThread in
  map isProgress (sent tr) = [true; false] /\
  map stdOut (sent tr) = [""; ""]%string /\
  map stdErr (sent tr) = ["User Does Not Exist on System"; ""]%string.
Proof. vm_compute. repeat split; reflexivity. Qed.

Lemma missing_user_reported_witness :
  let run := optionReadSend (withRunAs "nosuchuser" echoCommand)
               (sampleWorld true noIds [eof 0]) 100
               (workerThread (withRunAs "nosuchuser" echoCommand)) in
  exists pre p post,
    sent (snd run) = pre ++ uidMessage (withRunAs "nosuchuser" echoCommand) p :: post /\
    (forall m, In m post -> isExit m = true -> exitCode m = Some 1).
Proof.
  intro run.
  assert (Hrun : run = (Some 1, snd (fst run), snd run)) by (vm_compute; reflexivity).
  destruct (missing_user_reported (withRunAs "nosuchuser" echoCommand)
              (sampleWorld true noIds [eof 0]) 100 _ _ _ _ eq_refl Hrun)
    as (pre & p & post & Hsent & _ & _ & _ & _ & _ & Hexit & _).
  exists pre, p, post. split; assumption.
Defined.

(** ** C8: where the identity is switched *)

Lemma filter_none (l : list Effect) :
  Forall (fun e => isSetuid e = false) l -> filter isSetuid l = [].
Proof.
  induction 1 as [|e l He _ IH]; [reflexivity|].
  cbn [filter]. now rewrite He.
Qed.

(** ** C9: a pipe that cannot be opened *)

(** C9, as the code has it.  In the worker (the first fork answered 0) a
    failed [openPipe] adds one line to the log and changes nothing else: the
    second fork follows, and the result, the final state and the rest of the
    trace are those of the same call with both pipes opened. *)
Theorem pipe_failure_only_logged (command : KACommand) (s : Spawn) (st : KAThread)
    (Hworker : forkPid s = 0)
    (Hfail : outPipe s = false \/ errPipe s = false) :
  exists o st' rest,
    threadFunction command (withPipes true true s) st =
      (o, st', fork 0 :: writeLog 6 logStart :: fork (forkNewpid s) :: rest) /\
    threadFunction command s st =
      (o, st', fork 0 :: writeLog 6 logStart :: writeLog 6 logPipes
               :: fork (forkNewpid s) :: rest).
Proof.
  unfold threadFunction.
  cbn [forkPid outPipe errPipe forkNewpid withPipes].
  rewrite Hworker. cbn [Z.eqb].
  change (innerChild command (withPipes true true s)) with (innerChild command s).
  change (outerParent command (withPipes true true s)) with (outerParent command s).
  assert (Hcond : negb (outPipe s) || negb (errPipe s) = true)
    by (destruct Hfail as [-> | ->]; cbn; auto using orb_true_r).
  rewrite Hcond. cbn [negb orb when].
  unfold bind, emit, modify, ret.
  match goal with
  | |- context [(if ?c then ?a else ?b) ?x] =>
      destruct ((if c then a else b) x) as [[o st'] rest]
  end.
  exists o, st', rest. cbn. split; reflexivity.
Qed.

(** ** C5: streams that are not returned *)

Lemma silent_not_return (m : string) : isSilent m = true -> isReturn m = false.
Proof.
  unfold isSilent, isReturn. intro H. apply orb_true_iff in H.
  destruct H as [H|H]; apply String.eqb_eq in H; subst; reflexivity.
Qed.

Lemma return_not_silent (m : string) :
  ((m =? "RETURN") || (m =? "CAPTURE_AND_RETURN"))%string = true -> isSilent m = false.
Proof.
  intro H. apply orb_true_iff in H.
  destruct H as [H|H]; apply String.eqb_eq in H; subst; reflexivity.
Qed.

#[local] Arguments isSilent : simpl never.
#[local] Arguments isReturn : simpl never.

Ltac redact :=
  repeat match goal with
    | H : true && ?b = false |- _ => cbn [andb] in H
    | H : ?a && ?b = false, Ha : ?a = true, Hb : ?b = true |- _ =>
        rewrite Ha, Hb in H; discriminate
    | H : _ && _ = true |- _ => apply andb_true_iff in H; destruct H
    | H : isSilent ?m = true, H' : isReturn ?m = true |- _ =>
        apply silent_not_return in H; congruence
    | H : isSilent ?m = true, H' : isSilent ?m = false |- _ => congruence
    | H : isSilent ?m = true,
      H' : ((?m =? "RETURN") || (?m =? "CAPTURE_AND_RETURN"))%string = true |- _ =>
        apply return_not_silent in H'; congruence
    end.

Ltac redact_leaf :=
  split; [assumption || (cbn; assumption) |];
  repeat constructor; cbn; intros; try reflexivity; redact.

Section Redaction.

Variable command : KACommand.

Lemma checkAndSend_redacted :
  preserves (modeInv command) (redactedEffect command) (checkAndSend command).
Proof.
  intros st Hmode. unfold modeInv in *.
  unfold checkAndSend, sendBuffers, sendCurrent, countUp, clearout, clearerr,
    bind, modify, get, emit, ret.
  rewrite Hmode. cbn. branches; redact_leaf.
Qed.

Lemma lastCheckAndSend_redacted :
  preserves (modeInv command) (redactedEffect command) (lastCheckAndSend command).
Proof.
  intros st Hmode. unfold modeInv in *.
  unfold lastCheckAndSend, sendBuffers, sendCurrent, countUp, clearout, clearerr,
    bind, modify, get, emit, ret.
  cbn. branches; redact_leaf.
Qed.

Lemma heartbeat_redacted :
  preserves (modeInv command) (redactedEffect command) (heartbeat command).
Proof.
  intros st Hmode. unfold modeInv in *.
  unfold heartbeat, sendCurrent, countUp, clearout, clearerr,
    bind, modify, get, emit, ret.
  cbn. branches; redact_leaf.
Qed.

Ltac mode_leaf :=
  first [ (intros ? ?; unfold modeInv in *; cbn; assumption) | exact Logic.I ].

Lemma checkAndWrite_redacted (outOpen errOpen : bool) :
  preserves (modeInv command) (redactedEffect command)
    (checkAndWrite command outOpen errOpen).
Proof.
  unfold checkAndWrite, gatherBuffers, fragment, captureOutput, captureError,
    clearout, clearerr.
  pres; first [apply checkAndSend_redacted | mode_leaf].
Qed.

Lemma multiplex_redacted (ticks : list Tick) :
  forall exec heart,
    preserves (modeInv command) (redactedEffect command)
      (multiplex command ticks exec heart).
Proof.
  induction ticks as [|k rest IH]; intros exec heart; cbn [multiplex].
  - apply preserves_ret.
  - unfold select, readOutput, readError, heartStep.
    pres;
      first [ mode_leaf | apply IH | apply heartbeat_redacted
            | apply checkAndWrite_redacted ].
Qed.

Lemma epilogue_redacted (EXECTIMEOUT : bool) :
  preserves (modeInv command) (redactedEffect command) (epilogue command EXECTIMEOUT).
Proof.
  unfold epilogue, timeoutDone, executeDone.
  pres; first [ apply lastCheckAndSend_redacted | mode_leaf
              | (cbn; split; reflexivity) ].
Qed.

End Redaction.

Lemma redactedEffect_sent (command : KACommand) (tr : list Effect) :
  Forall (redactedEffect command) tr -> Forall (redacted command) (sent tr).
Proof.
  induction 1 as [|e tr He _ IH]; [constructor|].
  destruct e; cbn in He |- *; auto.
Qed.

Lemma noSend_sent (tr : list Effect) : Forall noSend tr -> sent tr = [].
Proof.
  induction 1 as [|e tr He _ IH]; [reflexivity|].
  destruct e; cbn in He |- *; try contradiction; assumption.
Qed.

Section Silent.

Variable command : KACommand.

Lemma checkAndSend_silent :
  preserves (silentInv command) noSend (checkAndSend command).
Proof.
  intros st (Hmode & Hout & Herr). unfold modeInv in Hmode.
  unfold checkAndSend, bind, get, ret. rewrite Hmode, Herr.
  destruct ((getStandardOutput command =? "RETURN")
            || (getStandardOutput command =? "CAPTURE_AND_RETURN"))%string eqn:Hret.
  - apply return_not_silent in Hret. congruence.
  - cbn. split; [repeat split; assumption | constructor].
Qed.

Lemma lastCheckAndSend_silent :
  preserves (silentInv command) noSend (lastCheckAndSend command).
Proof.
  intros st (Hmode & Hout & Herr). unfold modeInv in Hmode.
  unfold lastCheckAndSend, clearout, clearerr, bind, modify, get, ret.
  rewrite (silent_not_return _ Hout), (silent_not_return _ Herr).
  cbn. branches; (split; [repeat split; assumption | repeat constructor]).
Qed.

Lemma checkAndWrite_silent (outOpen errOpen : bool) :
  preserves (silentInv command) noSend (checkAndWrite command outOpen errOpen).
Proof.
  unfold checkAndWrite, gatherBuffers, fragment, captureOutput, captureError,
    clearout, clearerr.
  pres;
    first [ apply checkAndSend_silent
          | (intros ? (? & ? & ?); repeat split; assumption)
          | exact Logic.I ].
Qed.

End Silent.

(** C5, as the code has it.  From a thread whose output reader has the
    command's mode, every message a run hands to the queue after those of the
    two checks has an empty payload for each stream whose mode is CAPTURE or
    NO.  When both modes are CAPTURE or NO, [checkAndSend], [checkAndWrite]
    and [lastCheckAndSend] hand over nothing.  The heartbeat hands over one
    Progress message whatever the modes. *)
Theorem silent_streams_redacted (command : KACommand) :
  (forall w newpid st st' r tr,
     mode (outputStream st) = getStandardOutput command ->
     optionReadSend command w newpid st = (Some r, st', tr) ->
     exists p rest,
       sent tr = sent (checksTrace command w p) ++ rest /\
       Forall (redacted command) rest) /\
  (forall st,
     mode (outputStream st) = getStandardOutput command ->
     isSilent (getStandardOutput command) = true ->
     isSilent (getStandardError command) = true ->
     sent (snd (checkAndSend command st)) = [] /\
     sent (snd (lastCheckAndSend command st)) = [] /\
     forall outOpen errOpen,
       sent (snd (checkAndWrite command outOpen errOpen st)) = []) /\
  (forall st,
     exists m,
       sent (snd (heartbeat command st)) = [m] /\ isProgress m = true /\
       (isSilent (getStandardOutput command) = true -> stdOut m = "") /\
       (isSilent (getStandardError command) = true -> stdErr m = "")).
Proof.
  split; [|split].
  - intros w newpid st st' r tr Hmode Hrun.
    apply optionReadSend_returns in Hrun.
    destruct Hrun as (p & ex & st2 & t2 & Hm & Hcase).
    assert (Hmode1 : modeInv command (afterChecks w p st)).
    { unfold modeInv. destruct (afterChecks_streams w p st) as [-> _]. exact Hmode. }
    destruct (multiplex_redacted command (ticks w) (execTimer command w)
                (heartReset (clockStartHeart w)) (afterChecks w p st) Hmode1)
      as [Hmode2 Hloop].
    rewrite Hm in Hmode2, Hloop. cbn [fst snd] in Hmode2, Hloop.
    apply redactedEffect_sent in Hloop.
    exists p.
    destruct Hcase as [(_ & _ & _ & ->) | (b & t3 & _ & He & ->)].
    + exists (sent t2). split; [apply sent_app | assumption].
    + destruct (epilogue_redacted command b st2 Hmode2) as [_ Hend].
      rewrite He in Hend. cbn [snd] in Hend. apply redactedEffect_sent in Hend.
      exists (sent t2 ++ sent t3). split; [now rewrite !sent_app|].
      apply Forall_app. auto.
  - intros st Hmode Hout Herr.
    assert (Hs : silentInv command st) by (repeat split; assumption).
    split; [|split; [|intros outOpen errOpen]]; apply noSend_sent.
    + apply (checkAndSend_silent command st Hs).
    + apply (lastCheckAndSend_silent command st Hs).
    + apply (checkAndWrite_silent command outOpen errOpen st Hs).
  - intro st.
    unfold heartbeat, sendCurrent, countUp, clearout, clearerr,
      bind, modify, get, emit, ret.
    cbn. branches; eexists; (split; [reflexivity|]);
      repeat split; cbn; intros; try reflexivity; try discriminate; redact.
Qed.

(** C5 fails as worded: with both modes NO, after thirty quiet seconds the
    worker hands a Progress message to the queue, the heartbeat. *)
Lemma silent_streams_redacted_counterexample :
  let command := withModes "NO" "NO" (withTimeout 0 echoCommand) in
  let '(_, _, tr) :=
    threadFunction command
      (outerParentOf true (sampleWorld true rootIds quietHalfMinute)) newThread in
  isSilent (getStandardOutput command) = true /\
  isSilent (getStandardError command) = true /\
  map isProgress (sent tr) = [true; false] /\
  map stdOut (sent tr) = [""; ""]%string /\
  map stdErr (sent tr) = [""; ""]%string.
Proof. vm_compute. repeat split; reflexivity. Qed.

Lemma silent_streams_redacted_witness :
  let run := optionReadSend echoCommand
               (sampleWorld true rootIds [erroutput 0 "oops"; output 0 "hi"; eof 0]) 100
               (workerThread echoCommand) in
  exists p rest,
    sent (snd run) = sent (checksTrace echoCommand
                             (sampleWorld true rootIds
                                [erroutput 0 "oops"; output 0 "hi"; eof 0]) p) ++ rest /\
    Forall (redacted echoCommand) rest.
Proof.
  intro run.
  assert (Hrun : run = (Some 1, snd (fst run), snd run)) by (vm_compute; reflexivity).
  assert (Hmode : mode (outputStream (workerThread echoCommand))
                  = getStandardOutput echoCommand) by reflexivity.
  exact (proj1 (silent_streams_redacted echoCommand) _ 100 _ _ _ _ Hmode Hrun).
Defined.

(** C9 fails as worded: with both pipes failing to open the worker still
    forks the inner child, runs the loop, and, the child having written to
    stdout only, ends with exit code 0. *)
Lemma pipe_failure_only_logged_counterexample :
  let '(o, _, tr) :=
    threadFunction echoCommand
      (outerParentOf false (sampleWorld true rootIds [output 0 "hi"; eof 0]))
      newThread in
  o = Killed /\
  tr = [ fork 0;
         writeLog 6 logStart;
         writeLog 6 logPipes;
         fork 100;
         writeLog 6 "<KAThread::threadFunction> optionReadSend is starting!!";
         chdir "/tmp";
         doSetuid 0;
         appendFile "error" "/tmp/err" "";
         try_send (createResponseMessage "c0ffee" 4242 7 1 "" "hi" "test" "task");
         try_send (createExitMessage "c0ffee" 4242 7 2 "test" "task" 0);
         writeLog 6 "<KAThread::threadFunction> optionReadSend has finished!!";
         writeLog 6 "<KAThread::threadFunction> New Main Thread is Stopping!!";
         kill 99 ].
Proof. vm_compute. split; reflexivity. Qed.

Lemma pipe_failure_only_logged_witness :
  let s := outerParentOf false (sampleWorld true rootIds [output 0 "hi"; eof 0]) in
  exists o st' rest,
    threadFunction echoCommand (withPipes true true s) newThread =
      (o, st', fork 0 :: writeLog 6 logStart :: fork 100 :: rest) /\
    threadFunction echoCommand s newThread =
      (o, st', fork 0 :: writeLog 6 logStart :: writeLog 6 logPipes
               :: fork 100 :: rest).
Proof.
  intro s.
  exact (pipe_failure_only_logged echoCommand s newThread eq_refl (or_introl eq_refl)).
Defined.

Lemma createExecString_not_idempotent_witness :
  let '(e1, st1, _) := createExecString echoCommand newThread in
  let '(e2, _, _) := createExecString echoCommand st1 in
  e1 = " export LANG=C && echo hi "%string /\
  e2 = " export LANG=C &&  export LANG=C && echo hi hi "%string /\
  Str.size e1 < Str.size e2.
Proof.
  assert (Hne : getArguments echoCommand <> [] \/ getEnvironment echoCommand <> [])
    by (left; discriminate).
  pose proof (createExecString_not_idempotent echoCommand newThread Hne) as H.
  cbv zeta in H.
  destruct (createExecString echoCommand newThread) as [[e1 st1] t1].
  destruct (createExecString echoCommand st1) as [[e2 st2] t2].
  destruct H as (H1 & H2 & H3 & _).
  repeat split; [rewrite H1 | rewrite H2 | exact H3]; reflexivity.
Defined.

(** ** C4: the packet size *)


(** Whatever the state, [fragment] hands over messages of at most 1000 bytes
    of stdout and 1000 bytes of stderr. *)
Lemma fragment_bounded (command : KACommand) (st : KAThread) :
  Forall bounded (sent (snd (fragment command st))).
Proof.
  unfold fragment, checkAndSend, sendBuffers, sendCurrent, countUp, clearout, clearerr,
    bind, modify, get, when, emit, ret.
  unfold MaxBuffSize. cbn. branches.
  all: repeat constructor; unfold bounded, MaxBuffSize; cbn [stdOut stdErr].
  all: rewrite ?substr_prefix_size by lia.
  all: Zbool; try (change (Str.size "") with 0); lia.
Qed.

Lemma gatherBuffers_noSend (outOpen errOpen : bool) (st : KAThread) :
  sent (snd (gatherBuffers outOpen errOpen st)) = [].
Proof.
  unfold gatherBuffers, captureOutput, captureError, bind, modify, get, when, emit, ret.
  cbn. branches; reflexivity.
Qed.

Lemma gatherBuffers_state (outOpen errOpen : bool) (st : KAThread) :
  snd (fst (gatherBuffers outOpen errOpen st)) = gathered st.
Proof.
  unfold gatherBuffers, captureOutput, captureError, bind, modify, get, when, emit, ret.
  cbn. branches; reflexivity.
Qed.

Lemma checkAndWrite_bounded (command : KACommand) (outOpen errOpen : bool)
    (st : KAThread) :
  Forall bounded (sent (snd (checkAndWrite command outOpen errOpen st))).
Proof.
  unfold checkAndWrite, bind.
  pose proof (gatherBuffers_noSend outOpen errOpen st) as Hg.
  destruct (gatherBuffers outOpen errOpen st) as [[[] s1] t1]. cbn [snd] in Hg.
  pose proof (fragment_bounded command s1) as Hf.
  destruct (fragment command s1) as [[[] s2] t2]. cbn [snd] in Hf |- *.
  rewrite sent_app, Hg. exact Hf.
Qed.

(** *** Reads of at most a packet *)

Lemma boundedEffect_sent (tr : list Effect) :
  Forall boundedEffect tr -> Forall bounded (sent tr).
Proof.
  induction 1 as [|e tr He _ IH]; [constructor|].
  destruct e; cbn in He |- *; auto.
Qed.

Lemma sent_boundedEffect (tr : list Effect) :
  Forall bounded (sent tr) -> Forall boundedEffect tr.
Proof.
  induction tr as [|e tr IH]; intro H; [constructor|].
  destruct e; cbn in H |- *;
    try (constructor; [exact Logic.I | auto]).
  inversion H; subst. constructor; auto.
Qed.

Section SmallReads.

Variable command : KACommand.

Ltac size_leaf :=
  unfold sizeInv, bounded, MaxBuffSize in *; cbn;
  repeat match goal with
    | H : _ /\ _ |- _ => destruct H
    end;
  Zbool; try (change (Str.size "") with 0); repeat split; try lia.

Lemma heartbeat_size : preserves sizeInv boundedEffect (heartbeat command).
Proof.
  intros st H.
  unfold heartbeat, sendCurrent, countUp, clearout, clearerr,
    bind, modify, get, emit, ret.
  cbn. branches; (split; [|repeat constructor]); size_leaf.
Qed.

Lemma lastCheckAndSend_size :
  preserves sizeInv boundedEffect (lastCheckAndSend command).
Proof.
  intros st H.
  unfold lastCheckAndSend, sendBuffers, sendCurrent, countUp, clearout, clearerr,
    bind, modify, get, emit, ret.
  cbn. branches; (split; [|repeat constructor]); size_leaf.
Qed.

Lemma fragment_size (st : KAThread) :
  Str.size (outBuff st) < 2 * MaxBuffSize ->
  Str.size (errBuff st) < 2 * MaxBuffSize ->
  buffer (outputStream st) = "" -> buffer (errorStream st) = "" ->
  sizeInv (snd (fst (fragment command st))).
Proof.
  intros Ho He Hbo Hbe.
  pose proof (size_nonneg (outBuff st)) as Ho0.
  pose proof (size_nonneg (errBuff st)) as He0.
  unfold fragment, checkAndSend, sendBuffers, sendCurrent, countUp, clearout, clearerr,
    bind, modify, get, when, emit, ret.
  unfold sizeInv, MaxBuffSize in *. cbn. branches; cbn.
  all: rewrite ?Hbo, ?Hbe; Zbool.
  all: rewrite ?substr_suffix_size by lia.
  all: try (change (Str.size "") with 0); repeat split; lia.
Qed.

Lemma checkAndWrite_size (outOpen errOpen : bool) :
  preserves sizeInv boundedEffect (checkAndWrite command outOpen errOpen).
Proof.
  intros st (Ho & He & Hbo & Hbe).
  split; [|apply sent_boundedEffect, checkAndWrite_bounded].
  unfold checkAndWrite, bind.
  pose proof (gatherBuffers_state outOpen errOpen st) as Hs.
  destruct (gatherBuffers outOpen errOpen st) as [[[] s1] t1].
  cbn [fst snd] in Hs. subst s1.
  pose proof (fragment_size (gathered st)) as Hf.
  destruct (fragment command (gathered st)) as [[[] s2] t2].
  cbn [fst snd] in Hf |- *. apply Hf; unfold gathered, MaxBuffSize in *; cbn;
    rewrite ?size_append; try reflexivity; lia.
Qed.

Lemma multiplex_size (ticks : list Tick) :
  Forall smallReads ticks ->
  forall exec heart,
    preserves sizeInv boundedEffect (multiplex command ticks exec heart).
Proof.
  induction 1 as [|k rest [Hko Hke] _ IH]; intros exec heart; cbn [multiplex].
  - apply preserves_ret.
  - unfold select, readOutput, readError, heartStep.
    pres;
      first [ exact Logic.I | apply IH | apply heartbeat_size
            | apply checkAndWrite_size
            | (intros ? (? & ? & ? & ?); unfold sizeInv; cbn; repeat split; assumption) ].
Qed.

Lemma epilogue_size (EXECTIMEOUT : bool) :
  preserves sizeInv boundedEffect (epilogue command EXECTIMEOUT).
Proof.
  unfold epilogue, timeoutDone, executeDone.
  pres;
    first [ exact Logic.I | apply lastCheckAndSend_size
          | (intros ? ?; assumption)
          | (unfold boundedEffect, bounded, MaxBuffSize; cbn; lia) ].
Qed.

Lemma checksTrace_bounded (w : World) (p : Z) :
  Forall bounded (sent (checksTrace command w p)).
Proof.
  unfold checksTrace. destruct (cwdOk w), (found (ids w)); cbn;
    repeat constructor; unfold MaxBuffSize; cbn; lia.
Qed.

Lemma afterChecks_size (w : World) (p : Z) (st : KAThread) :
  sizeInv st -> sizeInv (afterChecks w p st).
Proof.
  unfold sizeInv, afterChecks. destruct (cwdOk w), (found (ids w)); cbn; auto.
Qed.

(** With reads of at most a packet, no message of a run exceeds a packet. *)
Lemma optionReadSend_bounded (w : World) (newpid : Z) (st st' : KAThread)
    (r : Z) (tr : list Effect) :
  Forall smallReads (ticks w) -> sizeInv st ->
  optionReadSend command w newpid st = (Some r, st', tr) ->
  Forall bounded (sent tr).
Proof.
  intros Hticks Hst Hrun.
  apply optionReadSend_returns in Hrun.
  destruct Hrun as (p & ex & st2 & t2 & Hm & Hcase).
  destruct (multiplex_size (ticks w) Hticks (execTimer command w)
              (heartReset (clockStartHeart w)) (afterChecks w p st)
              (afterChecks_size w p st Hst)) as [Hst2 Hloop].
  rewrite Hm in Hst2, Hloop. cbn [fst snd] in Hst2, Hloop.
  apply boundedEffect_sent in Hloop.
  pose proof (checksTrace_bounded w p) as Hchecks.
  destruct Hcase as [(_ & _ & _ & ->) | (b & t3 & _ & He & ->)].
  - rewrite sent_app. apply Forall_app. auto.
  - destruct (epilogue_size b st2 Hst2) as [_ Hend].
    rewrite He in Hend. cbn [snd] in Hend. apply boundedEffect_sent in Hend.
    rewrite !sent_app. repeat (apply Forall_app; split); assumption.
Qed.

End SmallReads.

(** *** A burst on stdout *)

Lemma idle_check (s0 : Z) (t : Timer) :
  idle s0 t -> exists t', checkExecutionTimeout s0 t = (false, t') /\ idle s0 t'.
Proof.
  intros (Hc & He & Hs). unfold checkExecutionTimeout.
  destruct (exectimeout t =? 0) eqn:Hz; cbn [negb].
  - exists t. split; [reflexivity | repeat split; assumption].
  - assert (Hgt : (s0 >? startsec t) && negb (overflag t) = false).
    { destruct Hs as [[-> ->] | [_ ->]].
      - rewrite Z.gtb_ltb, Z.ltb_irrefl. reflexivity.
      - apply andb_false_r. }
    rewrite Hgt. Zbool.
    destruct (s0 =? 59) eqn:H59; cbn [count exectimeout]; rewrite Hc;
      (destruct (0 >=? exectimeout t) eqn:Hfire; [Zbool; lia|]);
      eexists; (split; [reflexivity|]); unfold idle; cbn; Zbool;
      repeat split; auto.
    destruct Hs as [[Hs _] | [Hs _]]; [left; auto | lia].
Qed.

Lemma idle_heartReset (s0 : Z) : idle s0 (heartReset s0).
Proof. unfold idle, heartReset. cbn. repeat split; auto; lia. Qed.

Lemma idle_execTimer (command : KACommand) (w : World) :
  idle (clockStart w) (execTimer command w).
Proof.
  unfold idle, execTimer, wrap32. cbn. repeat split; auto.
  apply Z.mod_pos_bound. lia.
Qed.

Section Burst.

Variable command : KACommand.
Hypothesis Hreturn :
  ((getStandardOutput command =? "RETURN")
   || (getStandardOutput command =? "CAPTURE_AND_RETURN"))%string = true.

(** One read of [c] bytes with [r] buffered: a packet of the first 1000 bytes
    if there are that many, and the rest stays buffered. *)
Lemma checkAndWrite_chunk (outOpen errOpen : bool) (r c : string) (n pid : Z)
    (st : KAThread) :
  burstInv command r n pid st ->
  buffer (outputStream st) = c ->
  let '(_, st', tr) := checkAndWrite command outOpen errOpen st in
  readResult (outputStream st') = readResult (outputStream st) /\
  readResult (errorStream st') = readResult (errorStream st) /\
  if Str.size (r ++ c) >=? 1000 then
    sent tr = packets command pid n [Str.substr 0 1000 (r ++ c)] /\
    burstInv command (Str.substr 1000 (Str.size (r ++ c) - 1000) (r ++ c)) (n + 1) pid st'
  else
    sent tr = [] /\ burstInv command (r ++ c)%string n pid st'.
Proof.
  intros (Ho & He & Heb & Hn & Hp & Hm) Hc. subst r c n pid.
  unfold checkAndWrite, bind.
  pose proof (gatherBuffers_noSend outOpen errOpen st) as Hg.
  pose proof (gatherBuffers_state outOpen errOpen st) as Hs.
  destruct (gatherBuffers outOpen errOpen st) as [[[] s1] t1].
  cbn [fst snd] in Hg, Hs. subst s1.
  unfold fragment, checkAndSend, sendBuffers, sendCurrent, countUp, clearout, clearerr,
    bind, modify, get, when, emit, ret.
  unfold burstInv, MaxBuffSize, gathered. cbn.
  rewrite He, Heb.
  change ("" ++ "")%string with "". change (Str.size "") with 0. cbn.
  rewrite orb_false_r, andb_false_r.
  destruct (Str.size (outBuff st ++ buffer (outputStream st)) >=? 1000) eqn:Hbig; cbn.
  - rewrite Hm, Hreturn.
    destruct (isSilent (getStandardError command)); cbn;
      rewrite sent_app, Hg, ?He; cbn; repeat split; auto.
  - rewrite app_nil_r, Hg. repeat split; auto.
Qed.

(** A turn that reads [c] from stdout while the clock stands still: the two
    timers stay idle, no heartbeat is sent, [checkAndWrite] runs and the loop
    goes on. *)
Lemma output_tick (s0 : Z) (c : string) (rest : list Tick) (exec heart : Timer)
    (st : KAThread) :
  idle s0 exec -> idle s0 heart -> 0 < Str.size c ->
  exists s4 exec1 heart1,
    idle s0 exec1 /\ idle s0 heart1 /\
    outBuff s4 = outBuff st /\ errBuff s4 = errBuff st /\
    buffer (errorStream s4) = buffer (errorStream st) /\
    responsecount s4 = responsecount st /\ processpid s4 = processpid st /\
    mode (outputStream s4) = mode (outputStream st) /\
    buffer (outputStream s4) = c /\
    multiplex command (output s0 c :: rest) exec heart st =
      (let '(_, s5, t5) := checkAndWrite command true true s4 in
       let '(ex, s6, t6) := multiplex command rest exec1 heart1 s5 in
       (ex, s6, t5 ++ t6)).
Proof.
  intros Hexec Hheart Hc.
  destruct (idle_check s0 exec Hexec) as (exec1 & Hx & Hexec1).
  destruct (idle_check s0 heart Hheart) as (heart1 & Hh & Hheart1).
  assert (Hpos : (Str.size c >? 0) = true) by (rewrite Z.gtb_ltb; now apply Z.ltb_lt).
  cbn [multiplex].
  unfold select, heartStep, readOutput, readError, bind, modify, get, when, emit, ret.
  repeat (cbn -[checkAndWrite multiplex checkExecutionTimeout Str.size];
          rewrite ?Hx, ?Hh, ?Hpos;
          try match goal with
            | |- context [if ACTFLAG st then _ else _] => destruct (ACTFLAG st) eqn:Hact
            end).
  - match goal with
    | |- context [checkAndWrite command true true ?S] =>
        exists S, exec1, (heartReset s0)
    end.
    split; [assumption|]. split; [apply idle_heartReset|].
    repeat (split; [reflexivity|]).
    destruct (checkAndWrite command true true _) as [[[] s5] t5].
    destruct (multiplex command rest exec1 (heartReset s0) s5) as [[ex s6] t6].
    reflexivity.
  - match goal with
    | |- context [checkAndWrite command true true ?S] =>
        exists S, exec1, heart1
    end.
    split; [assumption|]. split; [assumption|].
    repeat (split; [reflexivity|]).
    destruct (checkAndWrite command true true _) as [[[] s5] t5].
    destruct (multiplex command rest exec1 heart1 s5) as [[ex s6] t6].
    reflexivity.
Qed.

(** The turn in which both pipes are at end of file, the clock standing
    still: the loop is left by the second [break], nothing is sent. *)
Lemma eof_tick (s0 : Z) (exec heart : Timer) (st : KAThread) :
  idle s0 exec -> idle s0 heart ->
  exists s4,
    outBuff s4 = outBuff st /\ errBuff s4 = errBuff st /\
    responsecount s4 = responsecount st /\ processpid s4 = processpid st /\
    readResult (outputStream s4) = 0 /\ readResult (errorStream s4) = 0 /\
    multiplex command [eof s0] exec heart st = (Break false, s4, []).
Proof.
  intros Hexec Hheart.
  destruct (idle_check s0 exec Hexec) as (exec1 & Hx & Hexec1).
  destruct (idle_check s0 heart Hheart) as (heart1 & Hh & Hheart1).
  cbn [multiplex].
  unfold select, heartStep, readOutput, readError, bind, modify, get, when, emit, ret.
  repeat (cbn -[checkExecutionTimeout];
          rewrite ?Hx, ?Hh;
          try match goal with
            | |- context [if ACTFLAG st then _ else _] => destruct (ACTFLAG st) eqn:Hact
            end).
  all: eexists; repeat apply conj.
  all: revgoals.
  all: reflexivity.
Qed.

Lemma joined_size (ps : list string) :
  Forall (fun p => Str.size p = 1000) ps ->
  Str.size (joined ps) = 1000 * Z.of_nat (List.length ps).
Proof.
  induction 1 as [|p ps Hp _ IH]; [reflexivity|].
  cbn [joined List.length]. rewrite size_append, Hp, IH. lia.
Qed.

(** A burst: reads of at most 1000 bytes each, then end of file, the clock
    standing still.  What was buffered and what is read leaves the loop as
    packets of exactly 1000 bytes, in order, and a rest of less than 1000
    bytes that stays buffered. *)
Lemma multiplex_burst (s0 : Z) (chunks : list string) :
  forall r n pid exec heart st,
    idle s0 exec -> idle s0 heart ->
    burstInv command r n pid st -> Str.size r < 1000 ->
    Forall (fun c => 0 < Str.size c <= 1000) chunks ->
    exists ps r' st' tr,
      multiplex command (map (output s0) chunks ++ [eof s0]) exec heart st
        = (Break false, st', tr) /\
      (r ++ joined chunks)%string = (joined ps ++ r')%string /\
      Forall (fun p => Str.size p = 1000) ps /\ Str.size r' < 1000 /\
      sent tr = packets command pid n ps /\
      outBuff st' = r' /\ errBuff st' = "" /\
      responsecount st' = n + Z.of_nat (List.length ps) /\ processpid st' = pid /\
      readResult (outputStream st') = 0 /\ readResult (errorStream st') = 0.
Proof.
  induction chunks as [|c chunks IH];
    intros r n pid exec heart st Hexec Hheart Hinv Hr Hchunks; cbn [map app].
  - destruct (eof_tick s0 exec heart st Hexec Hheart)
      as (s4 & Ho & He & Hn & Hp & Hro & Hre & Heq).
    destruct Hinv as (Ho0 & He0 & _ & Hn0 & Hp0 & _).
    exists [], r, s4, []. rewrite Heq. cbn [joined List.length packets sent].
    rewrite append_nil_r. repeat split; auto; try congruence.
    rewrite Hn, Hn0. cbn. lia.
  - inversion Hchunks as [|c0 l Hc Hrest]; subst c0 l.
    destruct (output_tick s0 c (map (output s0) chunks ++ [eof s0]) exec heart st
                Hexec Hheart (proj1 Hc))
      as (s4 & exec1 & heart1 & Hexec1 & Hheart1 & Ho & He & Heb & Hn & Hp & Hm
          & Hbuf & Heq).
    rewrite Heq. clear Heq.
    assert (Hinv4 : burstInv command r n pid s4).
    { destruct Hinv as (Ho0 & He0 & Heb0 & Hn0 & Hp0 & Hm0).
      unfold burstInv. rewrite Ho, He, Heb, Hn, Hp, Hm. repeat split; assumption. }
    pose proof (checkAndWrite_chunk true true r c n pid s4 Hinv4 Hbuf) as Hcw.
    destruct (checkAndWrite command true true s4) as [[[] s5] t5].
    destruct Hcw as (_ & _ & Hcase).
    pose proof (size_append r c) as Hsz.
    pose proof (size_nonneg r) as Hr0.
    destruct (Str.size (r ++ c) >=? 1000) eqn:Hbig; Zbool;
      destruct Hcase as [Hsent Hinv5].
    + assert (Hsplit : 0 <= 1000 <= Str.size (r ++ c)) by lia.
      destruct (IH (Str.substr 1000 (Str.size (r ++ c) - 1000) (r ++ c)) (n + 1) pid
                  exec1 heart1 s5 Hexec1 Hheart1 Hinv5)
        as (ps & r' & st' & tr & Heq & Hjoin & Hps & Hr' & Htr & Hrest').
      { rewrite substr_suffix_size by exact Hsplit. lia. }
      { exact Hrest. }
      exists (Str.substr 0 1000 (r ++ c) :: ps), r', st', (t5 ++ tr).
      rewrite Heq. split; [reflexivity|].
      split.
      { cbn [joined]. rewrite append_assoc, <- Hjoin, <- !append_assoc.
        now rewrite (substr_split 1000 (r ++ c) Hsplit). }
      split.
      { constructor; [|assumption]. rewrite substr_prefix_size by lia. lia. }
      split; [assumption|].
      split.
      { rewrite sent_app, Hsent, Htr. reflexivity. }
      destruct Hrest' as (Ho' & He' & Hn' & Hrest').
      repeat split; try tauto.
      rewrite Hn'. cbn [List.length]. lia.
    + destruct (IH (r ++ c)%string n pid exec1 heart1 s5 Hexec1 Hheart1 Hinv5)
        as (ps & r' & st' & tr & Heq & Hjoin & Hps & Hr' & Htr & Hrest').
      { lia. }
      { exact Hrest. }
      exists ps, r', st', (t5 ++ tr).
      rewrite Heq. split; [reflexivity|].
      split.
      { cbn [joined]. now rewrite <- append_assoc. }
      split; [assumption|]. split; [assumption|].
      split.
      { rewrite sent_app, Hsent, Htr. reflexivity. }
      exact Hrest'.
Qed.

(** The drain of a buffer that holds stdout bytes only. *)
Lemma lastCheckAndSend_out (st : KAThread) :
  0 < Str.size (outBuff st) -> errBuff st = "" ->
  exists st',
    lastCheckAndSend command st =
      (tt, st', [try_send (createResponseMessage (getUuid command) (processpid st)
                             (getRequestSequenceNumber command) (responsecount st)
                             "" (outBuff st)
                             (getSource command) (getTaskUuid command))]) /\
    responsecount st' = responsecount st + 1 /\ processpid st' = processpid st.
Proof.
  intros Ho He.
  assert (Hret : isReturn (getStandardOutput command) = true)
    by (unfold isReturn; now rewrite orb_comm).
  unfold lastCheckAndSend, sendBuffers, sendCurrent, countUp, clearout, clearerr,
    bind, modify, get, emit, ret.
  cbn. rewrite He. change (Str.size "") with 0.
  assert (Hnz : (Str.size (outBuff st) =? 0) = false) by (apply Z.eqb_neq; lia).
  rewrite Hnz, Hret. cbn. eexists. repeat split.
Qed.

End Burst.

Lemma afterChecks_burst (command : KACommand) (w : World) (p : Z) (st : KAThread) :
  outBuff st = "" -> errBuff st = "" -> buffer (errorStream st) = "" ->
  mode (outputStream st) = getStandardOutput command ->
  burstInv command "" (responsecount st) p (afterChecks w p st).
Proof.
  intros Ho He Heb Hm. unfold burstInv, afterChecks.
  destruct (cwdOk w), (found (ids w)); cbn; repeat split; assumption.
Qed.


(** * More of the code *)

(** ** KALogger *)

(** X1.  The nested switch of [writeLog] is one rule: a line is written
    exactly for [0 <= level <= loglevel <= 7], the severity it names is the
    one of [level], and it is the clock text, a blank, the severity in angle
    brackets, the text and a newline, up to the first NUL. *)
Theorem writeLog_rule (this : KALogger.Logger) (now : KALogger.ptime)
    (level : Z) (log : string) :
  KALogger.writeLog this now level log =
    if (0 <=? level) && (level <=? KALogger.loglevel this)
       && (KALogger.loglevel this <=? 7)
    then [Str.c_str (KALogger.getLocaltime now ++ " <" ++ KALogger.severity level
                     ++ ">" ++ log ++ nl)]
    else [].
Proof.
  unfold KALogger.writeLog, KALogger.fputs, KALogger.severity.
  destruct (KALogger.loglevel this) as [|[[[?|?|]|[?|?|]|]|[[?|?|]|[?|?|]|]|]|?];
    destruct level as [|[[[?|?|]|[?|?|]|]|[[?|?|]|[?|?|]|]|]|?];
    try reflexivity.
  all: match goal with
       | |- _ = (if ?c then _ else _) =>
           replace c with false;
           [reflexivity | symmetry; rewrite !andb_false_iff, !Z.leb_gt; lia]
       end.
Qed.

(** X2.  [openLogFile] writes the year, the month and the day one after the
    other and without padding, so the name does not tell the day: for every
    digit [d] from 1 to 9, day [10 + d] of month 1 and day [d] of month 11
    open the same file, and so do day [20 + d] of month 1 and day [d] of
    month 12. *)
Theorem openLogFile_days_share_a_name (fopen : string -> bool)
    (now : KALogger.ptime) (pid requestSequenceNumber d : Z)
    (this : KALogger.Logger) (Hd : 1 <= d <= 9) :
  KALogger.openLogFile fopen (KALogger.withDate 1 (10 + d) now)
    pid requestSequenceNumber this
  = KALogger.openLogFile fopen (KALogger.withDate 11 d now)
      pid requestSequenceNumber this
  /\
  KALogger.openLogFile fopen (KALogger.withDate 1 (20 + d) now)
    pid requestSequenceNumber this
  = KALogger.openLogFile fopen (KALogger.withDate 12 d now)
      pid requestSequenceNumber this.
Proof.
  assert (Hcases : d = 1 \/ d = 2 \/ d = 3 \/ d = 4 \/ d = 5 \/ d = 6 \/ d = 7
                   \/ d = 8 \/ d = 9) by lia.
  unfold KALogger.openLogFile, KALogger.withDate.
  cbn [KALogger.year KALogger.month KALogger.day KALogger.total_milliseconds].
  repeat (destruct Hcases as [->|Hcases]); [..|subst d]; split; reflexivity.
Qed.

Lemma openLogFile_days_share_a_name_witness :
  let now :=
    {| KALogger.year := 2014; KALogger.month := 0; KALogger.day := 0;
       KALogger.hours := 9; KALogger.minutes := 5; KALogger.seconds := 7;
       KALogger.total_milliseconds := 32707000 |} in
  let this := {| KALogger.loglevel := 7; KALogger.logFile := None |} in
  1 <= 2 <= 9 /\
  KALogger.openLogFile (fun _ => true) (KALogger.withDate 1 (10 + 2) now) 4242 7 this
  = KALogger.openLogFile (fun _ => true) (KALogger.withDate 11 2 now) 4242 7 this.
Proof.
  intros now this. split; [lia|].
  exact (proj1 (openLogFile_days_share_a_name (fun _ => true) now 4242 7 2 this
                  ltac:(lia))).
Defined.

(** ** The timers over several polls *)

Lemma last_cons (rest : list Z) :
  forall d s, last (s :: rest) d = last rest s.
Proof.
  induction rest as [|r rest IH]; intros d s; [reflexivity|].
  change (last (s :: r :: rest) d) with (last (r :: rest) d).
  rewrite (IH d r). symmetry. apply (IH s r).
Qed.

Lemma wrap32_range (z : Z) : 0 <= wrap32 z < 2 ^ 32.
Proof. unfold wrap32. apply Z.mod_pos_bound. lia. Qed.

Lemma wrap32_add (a b : Z) : wrap32 (wrap32 a + b) = wrap32 (a + b).
Proof. unfold wrap32. apply Zplus_mod_idemp_l. Qed.

Lemma pollTimer_counts (secs : list Z) :
  forall t,
    exectimeout t <> 0 -> overflag t = false ->
    0 <= count t < 2 ^ 32 ->
    nondecreasing (startsec t) secs -> Forall (fun s => s <= 58) secs ->
    let t' := pollTimer secs t in
    count t' = wrap32 (count t + (last secs (startsec t) - startsec t)) /\
    startsec t' = last secs (startsec t) /\
    overflag t' = false /\ exectimeout t' = exectimeout t.
Proof.
  induction secs as [|s rest IH]; intros t Hon Hoff Hc Hnd Hall; cbn [pollTimer].
  - cbn. repeat split; auto.
    replace (count t + (startsec t - startsec t)) with (count t) by lia.
    symmetry. apply wrap32_small. lia.
  - destruct Hnd as [Hle Hnd]. inversion Hall as [|? ? Hs Hrest]; subst.
    assert (Hstep :
      let t1 := snd (checkExecutionTimeout s t) in
      count t1 = wrap32 (count t + (s - startsec t)) /\ startsec t1 = s /\
      overflag t1 = false /\ exectimeout t1 = exectimeout t).
    { unfold checkExecutionTimeout.
      destruct (exectimeout t =? 0) eqn:He; [apply Z.eqb_eq in He; contradiction|].
      rewrite Hoff. cbn [negb andb].
      assert (H59 : (s =? 59) = false) by (apply Z.eqb_neq; lia).
      rewrite H59. cbn [negb].
      destruct (s >? startsec t) eqn:Hgt; Zbool;
        rewrite ?andb_true_r; cbn [count startsec overflag exectimeout];
        match goal with
        | |- context [if ?c then (true, ?x) else (false, ?x)] =>
            destruct c; cbn [snd count startsec overflag exectimeout]
        end;
        repeat split; try lia;
        replace s with (startsec t) by lia;
        replace (count t + (startsec t - startsec t)) with (count t) by lia;
        symmetry; apply wrap32_small; lia. }
    cbn zeta in Hstep. destruct Hstep as (Hc1 & Hs1 & Ho1 & He1).
    specialize (IH (snd (checkExecutionTimeout s t))).
    rewrite Hs1, Ho1, He1 in IH.
    destruct IH as (Hcount & Hstart & Hover & Hexec); auto.
    { rewrite Hc1. apply wrap32_range. }
    cbn zeta. rewrite Hcount, Hstart, Hover, Hexec, Hc1, wrap32_add.
    rewrite last_cons. repeat split; auto. f_equal. lia.
Qed.

Lemma last_nondecreasing (secs : list Z) :
  forall from, nondecreasing from secs -> from <= last secs from.
Proof.
  induction secs as [|s rest IH]; intros from Hnd; [cbn; lia|].
  destruct Hnd as [Hle Hnd]. rewrite last_cons. specialize (IH s Hnd). lia.
Qed.

(** X3.  Polled at seconds that do not go back and stay below 59, a timer
    that is switched on counts the seconds the clock has advanced since it
    was started, whatever the number of polls.  The count is an
    [unsigned int]: it is the sum of the count at the start and of the
    seconds advanced, reduced modulo 2^32, and so the sum itself as long as
    that is below 2^32. *)
Theorem pollTimer_counts_elapsed_seconds (secs : list Z) (t : Timer)
    (Hon : exectimeout t <> 0)
    (Hoff : overflag t = false)
    (Hcount : 0 <= count t < 2 ^ 32)
    (Hnd : nondecreasing (startsec t) secs)
    (Hall : Forall (fun s => s <= 58) secs) :
  let t' := pollTimer secs t in
  let elapsed := last secs (startsec t) - startsec t in
  count t' = wrap32 (count t + elapsed) /\
  (count t + elapsed < 2 ^ 32 -> count t' = count t + elapsed) /\
  0 <= elapsed /\
  startsec t' = last secs (startsec t) /\
  overflag t' = false.
Proof.
  destruct (pollTimer_counts secs t) as (H1 & H2 & H3 & _); auto.
  pose proof (last_nondecreasing secs (startsec t) Hnd) as Hel.
  cbn zeta. repeat split; auto; try lia.
  intro Hsmall. rewrite H1. apply wrap32_small. lia.
Qed.

Lemma pollTimer_counts_elapsed_seconds_witness :
  let t := {| startsec := 10; overflag := false; exectimeout := 5; count := 0 |} in
  count (pollTimer [10; 10; 11; 13; 13; 14] t) = 4.
Proof.
  intro t.
  refine (proj1 (proj2 (pollTimer_counts_elapsed_seconds [10; 10; 11; 13; 13; 14] t
                          _ _ _ _ _)) _).
  - cbn. lia.
  - reflexivity.
  - cbn. lia.
  - cbn. lia.
  - repeat constructor; lia.
  - cbn. lia.
Defined.

(** At the end of its range the count starts again from 0: a timer with the
    largest timeout there is, two seconds short of it, is carried past it by
    a poll five seconds later and does not fire. *)
Remark pollTimer_count_wraps :
  let t := {| startsec := 10; overflag := false;
              exectimeout := 2 ^ 32 - 1; count := 2 ^ 32 - 3 |} in
  count (pollTimer [15] t) = 2 /\ fst (checkExecutionTimeout 15 t) = false.
Proof. vm_compute. split; reflexivity. Qed.

(** X4.  A timer does not see the minute change unless it is polled while
    the clock shows 59: polled only at seconds that are not 59 and not after
    its [startsec], it stands still, however many polls there are. So a
    timer started (or restarted after a heartbeat) in second 59 and first
    polled in the next minute counts nothing until the clock shows 59 again. *)
Theorem pollTimer_stands_still (secs : list Z) (t : Timer)
    (Hoff : overflag t = false)
    (Hall : Forall (fun s => s <= startsec t /\ s <> 59) secs) :
  pollTimer secs t = t.
Proof.
  assert (Hstep : forall s, s <= startsec t -> s <> 59 ->
            snd (checkExecutionTimeout s t) = t).
  { intros s Hle H59. destruct t as [s0 latch limit n]. cbn in Hoff, Hle |- *.
    subst latch. unfold checkExecutionTimeout.
    cbn [exectimeout startsec overflag count].
    destruct (limit =? 0); [reflexivity|]. cbn [negb andb].
    assert (Hgt : (s >? s0) = false) by (rewrite Z.gtb_ltb; apply Z.ltb_ge; lia).
    assert (He : (s =? 59) = false) by (apply Z.eqb_neq; exact H59).
    rewrite Hgt, He. cbn [andb count exectimeout startsec overflag].
    destruct (n >=? limit); reflexivity. }
  induction Hall as [|s rest [Hle H59] _ IH]; [reflexivity|].
  cbn [pollTimer]. rewrite (Hstep s Hle H59). exact IH.
Qed.

Lemma pollTimer_stands_still_witness :
  let t := {| startsec := 59; overflag := false; exectimeout := 5; count := 0 |} in
  pollTimer [0; 1; 2; 10; 30; 58] t = t.
Proof.
  intro t.
  refine (pollTimer_stands_still [0; 1; 2; 10; 30; 58] t _ _).
  - reflexivity.
  - repeat constructor; cbn; lia.
Defined.

Lemma secondOf_range (T : Z) : 0 <= secondOf T < 60.
Proof. unfold secondOf. apply Z.mod_pos_bound. lia. Qed.

Lemma secondOf_split (T : Z) : T = 60 * (T / 60) + secondOf T.
Proof. unfold secondOf. apply Z.div_mod. lia. Qed.

(** One poll keeps the timer behind the clock. *)
Lemma notAhead_poll (T0 T T' : Z) (t : Timer) :
  T <= T' -> notAhead T0 T t ->
  notAhead T0 T' (snd (checkExecutionTimeout (secondOf T') t)).
Proof.
  intros HT [Hc Hinv].
  pose proof (secondOf_range T') as Hs'. pose proof (secondOf_split T') as HT'.
  unfold checkExecutionTimeout.
  destruct (exectimeout t =? 0) eqn:He; cbn [negb snd].
  { apply Z.eqb_eq in He. split; [exact Hc|].
    destruct Hinv as [(Hoff & A & HA & Hsec & Hle) | (_ & Hon & _)];
      [|contradiction].
    left. split; [exact Hoff|]. exists A. repeat split; auto. lia. }
  apply Z.eqb_neq in He.
  destruct Hinv as [(Hoff & A & HA & Hsec & Hle) | (Hon & _ & Hz & H59 & Hle)].
  - pose proof (secondOf_split A) as HAs. rewrite Hsec in HAs.
    pose proof (secondOf_range A) as HAr. rewrite Hsec in HAr.
    rewrite Hoff. cbn [negb]. rewrite andb_true_r.
    destruct (secondOf T' >? startsec t) eqn:Hgt; Zbool;
      destruct (secondOf T' =? 59) eqn:Hlast; Zbool;
      cbn [negb count startsec overflag exectimeout];
      match goal with
      | |- context [if ?c then (true, ?x) else (false, ?x)] =>
          destruct c; cbn [snd]
      end;
      unfold notAhead; cbn [count startsec overflag exectimeout].
    all: try (pose proof (wrap32_le (count t + (secondOf T' - startsec t))
                            ltac:(lia))).
    all: try (assert (0 <= wrap32 (count t + (secondOf T' - startsec t)))
                by (unfold wrap32; apply Z.mod_pos_bound; lia)).
    all: split; [lia|].
    all: first
           [ right; repeat split; auto; lia
           | left; split; [reflexivity|];
             first [ exists T'; repeat split; auto; lia
                   | exists A; repeat split; auto; lia ] ].
  - rewrite Hon. cbn [negb]. rewrite andb_false_r.
    pose proof (secondOf_split T) as HTs. rewrite H59 in HTs.
    destruct (secondOf T' =? 59) eqn:Hlast; Zbool;
      cbn [count startsec overflag exectimeout];
      match goal with
      | |- context [if ?c then (true, ?x) else (false, ?x)] =>
          destruct c; cbn [snd]
      end;
      unfold notAhead; cbn [count startsec overflag exectimeout].
    all: split; [lia|].
    all: first
           [ right; repeat split; auto; lia
           | left; split; [reflexivity|];
             exists (T + 1); repeat split; try lia;
             unfold secondOf in *;
             rewrite <- Z.add_mod_idemp_l by lia; rewrite H59, Hz; reflexivity ].
Qed.

Lemma pollTimer_notAhead (T0 : Z) (times : list Z) :
  forall T t,
    nondecreasing T times -> notAhead T0 T t ->
    notAhead T0 (last times T) (pollTimer (map secondOf times) t).
Proof.
  induction times as [|T' rest IH]; intros T t Hnd Hinv; cbn [map pollTimer].
  - exact Hinv.
  - destruct Hnd as [Hle Hnd]. rewrite last_cons.
    apply (IH T'); [exact Hnd|]. now apply (notAhead_poll T0 T T').
Qed.

Lemma checkExecutionTimeout_fired (sec : Z) (t : Timer) :
  fst (checkExecutionTimeout sec t) = true ->
  exectimeout t <= count (snd (checkExecutionTimeout sec t)).
Proof.
  unfold checkExecutionTimeout.
  destruct (exectimeout t =? 0); cbn [negb]; [discriminate|].
  match goal with
  | |- context [if ?c then (true, ?x) else (false, ?x)] =>
      destruct c eqn:Hc; cbn [fst snd]; [intros _ | discriminate]
  end.
  Zbool. revert Hc.
  destruct ((sec >? startsec t) && negb (overflag t)), (negb (sec =? 59)),
    (sec =? 59); cbn; lia.
Qed.

Lemma pollTimer_exectimeout (secs : list Z) :
  forall t, exectimeout (pollTimer secs t) = exectimeout t.
Proof.
  induction secs as [|s rest IH]; intro t; [reflexivity|].
  cbn [pollTimer]. rewrite IH.
  apply (proj1 (checkExecutionTimeout_exectimeout s t)).
Qed.

Lemma pollTimer_behind (limit T0 : Z) (times : list Z) (T : Z) :
  nondecreasing T0 (times ++ [T]) ->
  let t := pollTimer (map secondOf times) (startTimer limit T0) in
  0 <= count (snd (checkExecutionTimeout (secondOf T) t)) <= T - T0 /\
  exectimeout t = limit.
Proof.
  intro Hnd. cbn zeta.
  assert (Hstart : notAhead T0 T0 (startTimer limit T0)).
  { split; [cbn; lia|]. left. split; [reflexivity|].
    exists T0. cbn. repeat split; lia. }
  pose proof (pollTimer_notAhead T0 (times ++ [T]) T0 (startTimer limit T0) Hnd Hstart)
    as Hinv.
  assert (Hlast : last (times ++ [T]) T0 = T) by apply last_last.
  assert (Hpoll : pollTimer (map secondOf (times ++ [T])) (startTimer limit T0)
                  = snd (checkExecutionTimeout (secondOf T)
                           (pollTimer (map secondOf times) (startTimer limit T0)))).
  { generalize (startTimer limit T0). clear.
    induction times as [|x rest IH]; intro t; [reflexivity|].
    cbn [app map pollTimer]. apply IH. }
  rewrite Hlast, Hpoll in Hinv.
  split; [|apply pollTimer_exectimeout].
  destruct Hinv as [Hc [(_ & A & HA & _ & Hle) | (_ & _ & _ & _ & Hle)]]; lia.
Qed.

(** X5.  A timer never runs ahead of the clock.  Started at the time [T0] and
    polled at times that do not go back, it has counted at most the seconds
    that have passed since [T0], whatever the minute changes in between; so
    a poll answers that the time is up only when at least [exectimeout]
    seconds have passed: no timeout and no heartbeat comes early. *)
Theorem timer_never_ahead_of_the_clock (limit T0 : Z) (times : list Z) (T : Z)
    (Hnd : nondecreasing T0 (times ++ [T])) :
  let t := pollTimer (map secondOf times) (startTimer limit T0) in
  0 <= count (snd (checkExecutionTimeout (secondOf T) t)) <= T - T0 /\
  (fst (checkExecutionTimeout (secondOf T) t) = true -> limit <= T - T0).
Proof.
  cbn zeta.
  destruct (pollTimer_behind limit T0 times T Hnd) as [Hbound Hlimit].
  split; [exact Hbound|].
  intro Hfired. apply checkExecutionTimeout_fired in Hfired.
  rewrite Hlimit in Hfired. lia.
Qed.

Lemma timer_never_ahead_of_the_clock_witness :
  let t := pollTimer (map secondOf [118; 119; 121]) (startTimer 5 117) in
  fst (checkExecutionTimeout (secondOf 124) t) = true /\ 5 <= 124 - 117.
Proof.
  intro t. split; [vm_compute; reflexivity|].
  refine (proj2 (timer_never_ahead_of_the_clock 5 117 [118; 119; 121] 124 _) _).
  - cbn. lia.
  - vm_compute. reflexivity.
Defined.

(** ** getProcessPid *)

Lemma append_cons (c : ascii) (a b : string) :
  (String c a ++ b)%string = String c (a ++ b)%string.
Proof. reflexivity. Qed.

Lemma last_cons_string (rest : list string) :
  forall d s, last (s :: rest) d = last rest s.
Proof.
  induction rest as [|r rest IH]; intros d s; [reflexivity|].
  change (last (s :: r :: rest) d) with (last (r :: rest) d).
  rewrite (IH d r). symmetry. apply (IH s r).
Qed.

Lemma c_str_noNul (s : string) : noChar zero s -> Str.c_str s = s.
Proof.
  induction s as [|c s IH]; [reflexivity|]. intros [Hc Hs]. cbn [Str.c_str].
  apply Ascii.eqb_neq in Hc. rewrite Hc, IH; auto.
Qed.

Lemma dropLast_line (l : string) : dropLast (l ++ nl) = l.
Proof.
  induction l as [|c l IH]; [reflexivity|].
  rewrite append_cons. cbn [dropLast]. rewrite IH.
  destruct l; reflexivity.
Qed.

Lemma fgets_line (l : string) :
  forall n rest,
    noChar newline l -> (String.length l < n)%nat ->
    fgets n (l ++ nl ++ rest) = ((l ++ nl)%string, rest).
Proof.
  induction l as [|c l IH]; intros n rest Hno Hlen.
  - destruct n as [|n]; [cbn in Hlen; lia|]. reflexivity.
  - destruct n as [|n]; [cbn in Hlen; lia|]. destruct Hno as [Hc Hl].
    rewrite !append_cons. cbn [fgets].
    apply Ascii.eqb_neq in Hc. rewrite Hc.
    rewrite (IH n rest Hl); [reflexivity | cbn in Hlen; lia].
Qed.

Lemma fgets_rest (t : string) :
  forall n, noChar newline t -> (String.length t <= n)%nat -> fgets n t = (t, "").
Proof.
  induction t as [|c t IH]; intros n Hno Hlen.
  - destruct n; reflexivity.
  - destruct n as [|n]; [cbn in Hlen; lia|]. destruct Hno as [Hc Ht].
    cbn [fgets]. apply Ascii.eqb_neq in Hc. rewrite Hc.
    rewrite (IH n Ht); [reflexivity | cbn in Hlen; lia].
Qed.

Lemma readPipe_used_up (fuel : nat) (result : string) : readPipe fuel "" result = result.
Proof. destruct fuel; reflexivity. Qed.

Lemma readPipe_lines (tail : string) (ls : list string) :
  lineText 127 tail -> Forall (lineText 126) ls ->
  forall fuel result,
    (List.length ls + String.length tail <= fuel)%nat ->
    readPipe fuel (unlines ls ++ tail) result
    = if Str.empty tail then last ls result else dropLast tail.
Proof.
  intros (Htlen & Htnl & Htz) Hall.
  induction Hall as [|l rest (Hlen & Hnl & Hz) _ IH]; intros fuel result Hfuel.
  - cbn [unlines last]. change (("" ++ tail)%string) with tail.
    destruct tail as [|c t]; [apply readPipe_used_up|].
    destruct fuel as [|fuel]; [cbn in Hfuel; lia|].
    cbn [readPipe Str.empty].
    rewrite (fgets_rest (String c t) 127 Htnl Htlen).
    rewrite readPipe_used_up, c_str_noNul; auto.
  - destruct fuel as [|fuel]; [cbn in Hfuel; lia|].
    cbn [unlines]. rewrite !append_assoc.
    assert (Hne : Str.empty (l ++ nl ++ unlines rest ++ tail) = false)
      by (destruct l; reflexivity).
    cbn [readPipe]. rewrite Hne.
    rewrite (fgets_line l 127 (unlines rest ++ tail) Hnl) by lia.
    rewrite c_str_noNul, dropLast_line.
    + rewrite IH by (cbn in Hfuel; lia).
      rewrite last_cons_string. reflexivity.
    + clear - Hz. induction l as [|c l IHl].
      * cbn. split; [discriminate | exact Logic.I].
      * destruct Hz as [Hc Hl]. rewrite append_cons. split; auto.
Qed.

Lemma unlines_length (ls : list string) :
  (List.length ls <= String.length (unlines ls))%nat.
Proof.
  induction ls as [|l rest IH]; [cbn; lia|].
  cbn [unlines List.length]. rewrite !length_append. cbn [String.length nl]. lia.
Qed.

(** X6.  [getProcessPid] answers the last line the command prints, without
    its newline, and the empty string if it prints nothing; every earlier
    line is dropped. If what is printed does not end in a newline, the last
    character of that rest is lost as well. (Lines of at most 126
    characters, without NUL.) *)
Theorem getProcessPid_last_line (ls : list string) (tail : string)
    (Hlines : Forall (lineText 126) ls)
    (Htail : lineText 127 tail) :
  getProcessPid (Some (unlines ls ++ tail)%string)
  = if Str.empty tail then last ls "" else dropLast tail.
Proof.
  unfold getProcessPid. apply readPipe_lines; auto.
  rewrite length_append. pose proof (unlines_length ls). lia.
Qed.

Lemma getProcessPid_last_line_witness :
  getProcessPid (Some (unlines ["4242"; "4243"] ++ "")%string) = "4243" /\
  getProcessPid (Some (unlines ["4242"] ++ "4243")%string) = "424".
Proof.
  split.
  - refine (getProcessPid_last_line ["4242"; "4243"] "" _ _).
    + repeat constructor; cbn; try lia; discriminate.
    + repeat constructor.
  - refine (getProcessPid_last_line ["4242"] "4243" _ _).
    + repeat constructor; cbn; try lia; discriminate.
    + repeat constructor; cbn; try lia; discriminate.
Defined.

(** ** Runs of optionReadSend, whatever their result *)

(** Pid discovery ends with [newpid] or with a pid one of the probes
    found, and that one is not 0. *)
Lemma findPid_pid (newpid : Z) (probes : list (Z * Z)) :
  forall st, processpid st = newpid ->
    exists left p,
      findPid newpid probes st = (left, setPpid p st, []) /\
      discovered newpid probes p.
Proof.
  induction probes as [|[result grandchild] rest IH]; intros st Hst; cbn [findPid].
  - exists false, (processpid st). unfold ret. rewrite setPpid_same.
    split; [reflexivity | left; exact Hst].
  - destruct (result =? 0).
    + unfold bind, modify, get. cbn.
      destruct (grandchild =? 0) eqn:Hg; cbn.
      * destruct (IH (setPpid newpid (setPpid grandchild st)) eq_refl)
          as (left & p & H & Hp).
        rewrite H. exists left, p. split; [reflexivity|].
        destruct Hp as [Hp|[Hp Hin]]; [left; exact Hp | right; split; auto].
        cbn. right. exact Hin.
      * exists true, grandchild. split; [reflexivity|]. right.
        apply Z.eqb_neq in Hg. split; [exact Hg | cbn; left; reflexivity].
    + unfold bind, when, modify, ret. destruct (result >? 0); cbn.
      * exists true, newpid. split; [reflexivity | left; reflexivity].
      * exists true, (processpid st). rewrite setPpid_same.
        split; [reflexivity | left; exact Hst].
Qed.

Lemma prologue_parts (command : KACommand) (w : World) (newpid : Z) (st : KAThread) :
  exists p,
    discovered newpid (probes w) p /\
    (prologue command w newpid st = (false, setPpid p st, [])
     \/ prologue command w newpid st
        = (true, afterChecks w p st, checksTrace command w p)).
Proof.
  unfold prologue, bind, modify. cbn.
  destruct (findPid_pid newpid (probes w) (setPpid newpid st) eq_refl)
    as (left & p & H & Hp).
  rewrite H. exists p. split; [exact Hp|].
  destruct left; cbn [negb]; [right | left; reflexivity].
  unfold checkCWD, checkUID, cwdError, uidError, afterChecks, checksTrace,
    bind, modify, get, emit, when, ret.
  destruct (cwdOk w), (found (ids w)); reflexivity.
Qed.

(** The parts of a run: the discovery and the checks, the loop, and what
    follows the loop. *)
Lemma optionReadSend_parts (command : KACommand) (w : World) (newpid : Z)
    (st : KAThread) :
  exists p,
    discovered newpid (probes w) p /\
    (optionReadSend command w newpid st = (None, setPpid p st, [])
     \/
     exists ex st2 t2,
       multiplex command (ticks w) (execTimer command w)
         (heartReset (clockStartHeart w)) (afterChecks w p st) = (ex, st2, t2) /\
       match ex with
       | Pending =>
           optionReadSend command w newpid st
           = (None, st2, checksTrace command w p ++ t2)
       | ReturnError =>
           optionReadSend command w newpid st
           = (Some (-1), st2, checksTrace command w p ++ t2)
       | Break EXECTIMEOUT =>
           exists r st3 t3,
             epilogue command EXECTIMEOUT st2 = (r, st3, t3) /\
             optionReadSend command w newpid st
             = (Some r, st3, checksTrace command w p ++ t2 ++ t3)
       end).
Proof.
  destruct (prologue_parts command w newpid st) as (p & Hp & [H|H]);
    exists p; (split; [exact Hp|]); unfold optionReadSend, bind; rewrite H;
    cbn [negb]; [left; reflexivity | right].
  fold (execTimer command w).
  destruct (multiplex command (ticks w) (execTimer command w)
              (heartReset (clockStartHeart w)) (afterChecks w p st))
    as [[ex st2] t2].
  exists ex, st2, t2. split; [reflexivity|].
  destruct ex as [b| |]; cbn; rewrite ?app_nil_r; try reflexivity.
  destruct (epilogue command b st2) as [[r st3] t3].
  exists r, st3, t3. rewrite app_nil_r. split; reflexivity.
Qed.

(** The trace of what follows the loop. *)
Lemma epilogue_trace (command : KACommand) (EXECTIMEOUT : bool) (st : KAThread) :
  exists d1 d2 T X,
    Forall loopEffect d1 /\ Forall loopEffect d2 /\
    isTimeout T = true /\ isExit X = true /\
    stdOut T = "" /\ stdErr T = "" /\
    fst (fst (epilogue command EXECTIMEOUT st)) = 1 /\
    snd (epilogue command EXECTIMEOUT st)
    = (if EXECTIMEOUT
       then d1 ++ try_send T
               :: (if timedOut T then [kill (messagePid T)] else [])
       else [])
      ++ (if bothZero st then d2 ++ [try_send X] else []).
Proof.
  pose proof (lastCheckAndSend_frame command st) as Hf.
  destruct (lastCheckAndSend_effects command st Logic.I) as [_ Hl].
  unfold epilogue, timeoutDone, executeDone, bind, when, get, emit, ret.
  destruct EXECTIMEOUT; cbn -[lastCheckAndSend Z.eqb]; fold (bothZero st).
  - destruct (lastCheckAndSend command st) as [[[] s1] d1] eqn:Hd.
    cbn [fst snd] in Hf, Hl.
    destruct Hf as (_ & _ & _ & _ & Hos & Hes & _ & _ & _).
    assert (Hbz : bothZero s1 = bothZero st) by (unfold bothZero; now rewrite Hos, Hes).
    destruct (lastCheckAndSend_effects command s1 Logic.I) as [_ Hl2].
    exists d1, (snd (lastCheckAndSend command s1)),
      (createTimeoutMessage (getUuid command) (processpid s1)
         (getRequestSequenceNumber command) (responsecount s1) "" ""
         (getSource command) (getTaskUuid command)),
      (createExitMessage (getUuid command)
         (processpid (snd (fst (lastCheckAndSend command s1))))
         (getRequestSequenceNumber command)
         (responsecount (snd (fst (lastCheckAndSend command s1))))
         (getSource command) (getTaskUuid command) (exitCodeOf s1)).
    repeat (split; [first [assumption | reflexivity]|]).
    unfold timedOut. cbn [isTimeout messagePid andb].
    destruct (processpid s1 =? 0); cbn -[lastCheckAndSend Z.eqb];
      fold (bothZero s1); rewrite Hbz; destruct (bothZero st);
      cbn -[lastCheckAndSend Z.eqb];
      try (destruct (lastCheckAndSend command s1) as [[[] s2] d2]);
      cbn -[Z.eqb]; fold (exitCodeOf s1);
      (split; [reflexivity|]); rewrite <- ?app_assoc; cbn [app];
      rewrite ?app_nil_r; reflexivity.
  - destruct (lastCheckAndSend_effects command st Logic.I) as [_ Hl2].
    exists [], (snd (lastCheckAndSend command st)),
      (createTimeoutMessage "" 0 0 0 "" "" "" ""),
      (createExitMessage (getUuid command)
         (processpid (snd (fst (lastCheckAndSend command st))))
         (getRequestSequenceNumber command)
         (responsecount (snd (fst (lastCheckAndSend command st))))
         (getSource command) (getTaskUuid command) (exitCodeOf st)).
    repeat (split; [first [assumption | reflexivity | constructor]|]).
    destruct (bothZero st); cbn -[lastCheckAndSend Z.eqb];
      try (destruct (lastCheckAndSend command st) as [[[] s2] d2]);
      cbn -[Z.eqb]; fold (exitCodeOf st);
      (split; [reflexivity|]); rewrite ?app_nil_r; reflexivity.
Qed.

Lemma loopEffect_noTimeout (e : Effect) : loopEffect e -> noTimeout e.
Proof. destruct e; cbn; auto. destruct m; cbn; congruence. Qed.

Lemma checksTrace_noTimeout (command : KACommand) (w : World) (p : Z) :
  Forall noTimeout (checksTrace command w p).
Proof.
  unfold checksTrace. destruct (cwdOk w), (found (ids w)); repeat constructor.
Qed.

Lemma exit_not_timeout (X : Message) : isExit X = true -> isTimeout X = false.
Proof. destruct X; cbn; congruence. Qed.

(** ** The timeout *)

(** X7.  A timeout whose low 32 bits are all 0 (0 itself, or a multiple of
    2^32) never fires: whatever the clock and the pipes do, the run hands no
    Timeout message to the queue and sends no SIGKILL. *)
Theorem timeout_zero_never_fires (command : KACommand) (w : World) (newpid : Z)
    (st : KAThread)
    (Hzero : wrap32 (getTimeout command) = 0) :
  Forall noTimeout (snd (optionReadSend command w newpid st)).
Proof.
  destruct (optionReadSend_parts command w newpid st)
    as (p & _ & [H | (ex & st2 & t2 & Hm & Hex)]).
  { rewrite H. constructor. }
  pose proof (checksTrace_noTimeout command w p) as Hchecks.
  destruct (multiplex_effects command (ticks w) (execTimer command w)
              (heartReset (clockStartHeart w)) (afterChecks w p st) Logic.I)
    as [_ Hloop].
  rewrite Hm in Hloop. cbn [snd] in Hloop.
  apply (Forall_impl _ loopEffect_noTimeout) in Hloop.
  destruct ex as [b| |].
  - destruct Hex as (r & st3 & t3 & He & ->). cbn [snd].
    destruct (multiplex_break command (ticks w) (execTimer command w)
                (heartReset (clockStartHeart w))
                (readResult (outputStream (afterChecks w p st)))
                (readResult (errorStream (afterChecks w p st)))
                (afterChecks w p st) (conj eq_refl eq_refl)) as [Hpost _].
    rewrite Hm in Hpost. cbn [fst snd] in Hpost.
    destruct b; [destruct Hpost as [Hon _]; cbn in Hon; contradiction|].
    destruct (epilogue_trace command false st2)
      as (d1 & d2 & T & X & _ & Hd2 & _ & HX & _ & _ & _ & Ht3).
    rewrite He in Ht3. cbn [snd app] in Ht3. subst t3.
    rewrite !Forall_app. repeat split; try assumption.
    destruct (bothZero st2); [|constructor].
    apply Forall_app. split.
    + revert Hd2. apply Forall_impl. exact loopEffect_noTimeout.
    + repeat constructor. cbn. now apply exit_not_timeout.
  - rewrite Hex. cbn [snd]. apply Forall_app. auto.
  - rewrite Hex. cbn [snd]. apply Forall_app. auto.
Qed.

Lemma timeout_zero_never_fires_witness :
  wrap32 (getTimeout (withTimeout 4294967296 echoCommand)) = 0 /\
  Forall noTimeout
    (snd (optionReadSend (withTimeout 4294967296 echoCommand)
            (sampleWorld true rootIds quietHalfMinute) 100
            (workerThread (withTimeout 4294967296 echoCommand)))).
Proof.
  split; [reflexivity|].
  apply timeout_zero_never_fires. reflexivity.
Defined.

Lemma kills_app (a b : list Effect) : kills (a ++ b) = kills a ++ kills b.
Proof.
  induction a as [|e a IH]; [reflexivity|].
  destruct e; cbn [kills app]; rewrite ?IH; reflexivity.
Qed.

Lemma timeoutPids_app (a b : list Effect) :
  timeoutPids (a ++ b) = timeoutPids a ++ timeoutPids b.
Proof. unfold timeoutPids. now rewrite sent_app, filter_app, map_app. Qed.

Lemma noTimeout_kills (tr : list Effect) :
  Forall noTimeout tr -> kills tr = [] /\ timeoutPids tr = [].
Proof.
  unfold timeoutPids.
  induction 1 as [|e tr He _ [IH1 IH2]]; [split; reflexivity|].
  destruct e; cbn in He |- *; try contradiction; auto.
  unfold timedOut. rewrite He. cbn. auto.
Qed.

(** X8.  A SIGKILL is sent exactly once for every Timeout message, to the
    pid that message carries, unless that pid is 0; no other statement of
    [optionReadSend] sends one. *)
Theorem kill_only_after_timeout (command : KACommand) (w : World) (newpid : Z)
    (st : KAThread) :
  let tr := snd (optionReadSend command w newpid st) in
  kills tr = timeoutPids tr.
Proof.
  cbn zeta.
  destruct (optionReadSend_parts command w newpid st)
    as (p & _ & [H | (ex & st2 & t2 & Hm & Hex)]).
  { rewrite H. reflexivity. }
  destruct (noTimeout_kills _ (checksTrace_noTimeout command w p)) as [Hc1 Hc2].
  destruct (multiplex_effects command (ticks w) (execTimer command w)
              (heartReset (clockStartHeart w)) (afterChecks w p st) Logic.I)
    as [_ Hloop].
  rewrite Hm in Hloop. cbn [snd] in Hloop.
  apply (Forall_impl _ loopEffect_noTimeout) in Hloop.
  destruct (noTimeout_kills _ Hloop) as [Hl1 Hl2].
  destruct ex as [b| |].
  - destruct Hex as (r & st3 & t3 & He & ->). cbn [snd].
    destruct (epilogue_trace command b st2)
      as (d1 & d2 & T & X & Hd1 & Hd2 & HT & HX & _ & _ & _ & Ht3).
    rewrite He in Ht3. cbn [snd] in Ht3. subst t3.
    apply (Forall_impl _ loopEffect_noTimeout) in Hd1, Hd2.
    destruct (noTimeout_kills _ Hd1) as [Ha1 Ha2].
    destruct (noTimeout_kills _ Hd2) as [Hb1 Hb2].
    assert (HXt : timedOut X = false)
      by (unfold timedOut; now rewrite (exit_not_timeout X HX)).
    rewrite !kills_app, !timeoutPids_app, Hc1, Hc2, Hl1, Hl2. cbn [app].
    f_equal.
    + destruct b; [|reflexivity].
      rewrite kills_app, timeoutPids_app, Ha1, Ha2. cbn [app].
      unfold timeoutPids. destruct (timedOut T) eqn:Ht; cbn; rewrite Ht; reflexivity.
    + destruct (bothZero st2); [|reflexivity].
      rewrite kills_app, timeoutPids_app, Hb1, Hb2. cbn [app].
      unfold timeoutPids. cbn. now rewrite HXt.
  - rewrite Hex. cbn [snd].
    now rewrite kills_app, timeoutPids_app, Hc1, Hc2, Hl1, Hl2.
  - rewrite Hex. cbn [snd].
    now rewrite kills_app, timeoutPids_app, Hc1, Hc2, Hl1, Hl2.
Qed.

(** ** The pid of a run *)

Section Pid.

Variable command : KACommand.
Variable p : Z.

#[local] Abbreviation pidInv := (fun st => processpid st = p).

Ltac pid_leaf :=
  first [ exact Logic.I
        | (intros ? ?; cbn; assumption) ].

Lemma sendCurrent_pid : preserves pidInv (pidEffect p) (sendCurrent command).
Proof.
  intros st H. cbn. split; [exact H | repeat constructor; exact H].
Qed.

Lemma lastCheckAndSend_pid :
  preserves pidInv (pidEffect p) (lastCheckAndSend command).
Proof.
  unfold lastCheckAndSend, sendBuffers, countUp, clearout, clearerr.
  pres; first [apply sendCurrent_pid | pid_leaf].
Qed.

Lemma checkAndWrite_pid (outOpen errOpen : bool) :
  preserves pidInv (pidEffect p) (checkAndWrite command outOpen errOpen).
Proof.
  unfold checkAndWrite, gatherBuffers, fragment, captureOutput, captureError,
    checkAndSend, sendBuffers, countUp, clearout, clearerr.
  pres; first [apply sendCurrent_pid | pid_leaf].
Qed.

Lemma heartbeat_pid : preserves pidInv (pidEffect p) (heartbeat command).
Proof.
  intros st H.
  unfold heartbeat, sendCurrent, countUp, clearout, clearerr,
    bind, modify, get, emit, ret.
  cbn. branches; (split; [assumption | repeat constructor; assumption]).
Qed.

Lemma heartStep_pid (k : Tick) (heart : Timer) :
  preserves pidInv (pidEffect p) (heartStep command k heart).
Proof.
  unfold heartStep. pres; first [apply heartbeat_pid | pid_leaf].
Qed.

Lemma multiplex_pid (ticks : list Tick) :
  forall exec heart,
    preserves pidInv (pidEffect p) (multiplex command ticks exec heart).
Proof.
  induction ticks as [|k rest IH]; intros exec heart; cbn [multiplex].
  - apply preserves_ret.
  - unfold select, readOutput, readError.
    pres;
      first [ apply IH | apply heartStep_pid | apply checkAndWrite_pid | pid_leaf ].
Qed.

Lemma timeoutDone_pid : preserves pidInv (pidEffect p) (timeoutDone command).
Proof.
  unfold timeoutDone. apply preserves_bind; [apply lastCheckAndSend_pid|].
  intros _ st H. unfold bind, get, emit, when, ret.
  destruct (processpid st =? 0) eqn:Hz; cbn; (split; [exact H|]);
    repeat constructor; try exact H.
  apply Z.eqb_neq in Hz. exact Hz.
Qed.

Lemma executeDone_pid : preserves pidInv (pidEffect p) (executeDone command).
Proof.
  unfold executeDone. apply preserves_bind; [apply preserves_get|].
  intros s. cbn zeta. apply preserves_bind; [apply lastCheckAndSend_pid|].
  intros _ st H. cbn. split; [exact H | repeat constructor; exact H].
Qed.

Lemma epilogue_pid (EXECTIMEOUT : bool) :
  preserves pidInv (pidEffect p) (epilogue command EXECTIMEOUT).
Proof.
  unfold epilogue.
  pres; first [apply timeoutDone_pid | apply executeDone_pid | pid_leaf].
Qed.

End Pid.

Lemma checksTrace_pid (command : KACommand) (w : World) (p : Z) :
  Forall (pidEffect p) (checksTrace command w p).
Proof.
  unfold checksTrace. destruct (cwdOk w), (found (ids w)); repeat constructor.
Qed.

Lemma afterChecks_pid (w : World) (p : Z) (st : KAThread) :
  processpid (afterChecks w p st) = p.
Proof. unfold afterChecks. destruct (cwdOk w), (found (ids w)); reflexivity. Qed.

(** X9.  A run has one pid: the one the discovery ended with, which is the
    pid of the forked child or a pid found by a probe and not 0. Every
    message of the run carries it, whatever its kind, a SIGKILL goes to it
    and never to pid 0, and it is the [processpid] the run ends with. *)
Theorem one_pid_per_run (command : KACommand) (w : World) (newpid : Z)
    (st : KAThread) :
  exists p,
    discovered newpid (probes w) p /\
    processpid (snd (fst (optionReadSend command w newpid st))) = p /\
    Forall (pidEffect p) (snd (optionReadSend command w newpid st)).
Proof.
  destruct (optionReadSend_parts command w newpid st)
    as (p & Hp & [H | (ex & st2 & t2 & Hm & Hex)]); exists p; (split; [exact Hp|]).
  { rewrite H. split; [reflexivity | constructor]. }
  pose proof (checksTrace_pid command w p) as Hchecks.
  destruct (multiplex_pid command p (ticks w) (execTimer command w)
              (heartReset (clockStartHeart w)) (afterChecks w p st)
              (afterChecks_pid w p st)) as [Hst2 Hloop].
  rewrite Hm in Hst2, Hloop. cbn [fst snd] in Hst2, Hloop.
  destruct ex as [b| |].
  - destruct Hex as (r & st3 & t3 & He & ->). cbn [fst snd].
    destruct (epilogue_pid command p b st2 Hst2) as [Hst3 Hep].
    rewrite He in Hst3, Hep. cbn [fst snd] in Hst3, Hep.
    split; [exact Hst3|]. rewrite !Forall_app. auto.
  - rewrite Hex. cbn [fst snd]. split; [exact Hst2|]. apply Forall_app. auto.
  - rewrite Hex. cbn [fst snd]. split; [exact Hst2|]. apply Forall_app. auto.
Qed.

(** ** The value returned *)

Lemma heartStep_selected (command : KACommand) (k : Tick) (heart : Timer)
    (a b : Z) :
  preserves (fun st => selectResult (outputStream st) = a /\
                       selectResult (errorStream st) = b) anyEffect
    (heartStep command k heart).
Proof.
  unfold heartStep, heartbeat, sendCurrent, countUp, clearout, clearerr.
  pres; first [exact Logic.I | (intros ? [? ?]; split; cbn; assumption)].
Qed.

Lemma multiplex_selectFailed (command : KACommand) (ticks : list Tick) :
  forall exec heart,
    triple always anyEffect (multiplex command ticks exec heart)
      (fun ex _ => ex = ReturnError -> Exists selectFailed ticks).
Proof.
  induction ticks as [|k rest IH]; intros exec heart; cbn [multiplex].
  - apply triple_ret. intros st _ H. discriminate.
  - eapply triple_bind
      with (Q := fun _ st => selectResult (outputStream st) = outSelect k /\
                             selectResult (errorStream st) = errSelect k).
    { intros st _. split; [split; reflexivity | apply Forall_anyEffect]. }
    intros _.
    destruct (checkExecutionTimeout (secExec k) exec) as [fired exec1].
    destruct fired.
    { apply triple_ret. intros st _ H. discriminate. }
    eapply triple_bind; [apply heartStep_selected|].
    intros heart1. apply triple_get_bind. intros s [Ho He].
    rewrite Ho, He.
    destruct ((outSelect k =? -1) || (errSelect k =? -1)) eqn:Hfail.
    { intros st _. cbn. split; [|apply Forall_anyEffect].
      intros _. apply Exists_cons_hd. unfold selectFailed.
      apply orb_true_iff in Hfail. destruct Hfail as [H|H]; Zbool; auto. }
    eapply triple_bind with (Q := fun _ _ => True).
    { intros st _. split; [exact Logic.I | apply Forall_anyEffect]. }
    intros _.
    eapply triple_bind with (Q := fun _ _ => True).
    { intros st _. split; [exact Logic.I | apply Forall_anyEffect]. }
    intros _.
    apply triple_get_bind. intros s2 _.
    eapply triple_bind with (Q := fun _ _ => True).
    { intros st _. split; [exact Logic.I | apply Forall_anyEffect]. }
    intros _.
    destruct ((readResult (outputStream s2) >? 0)
              || (readResult (errorStream s2) >? 0)).
    + eapply triple_bind with (Q := fun _ _ => True).
      { intros st _. split; [exact Logic.I | apply Forall_anyEffect]. }
      intros _.
      eapply triple_weaken;
        [apply (IH exec1 heart1) | intros; exact Logic.I |].
      intros ex st H Hex. apply Exists_cons_tl. auto.
    + apply triple_ret. intros st _ H. discriminate.
Qed.

(** X10.  [optionReadSend] returns 1 or -1, and -1 only when a select on one
    of the two pipes has answered -1 in one of the turns. *)
Theorem optionReadSend_result (command : KACommand) (w : World) (newpid : Z)
    (st st' : KAThread) (r : Z) (tr : list Effect)
    (Hrun : optionReadSend command w newpid st = (Some r, st', tr)) :
  (r = 1 \/ r = -1) /\
  (r = -1 -> Exists selectFailed (ticks w)).
Proof.
  destruct (optionReadSend_parts command w newpid st)
    as (p & _ & [H | (ex & st2 & t2 & Hm & Hex)]).
  { rewrite H in Hrun. discriminate. }
  destruct (multiplex_selectFailed command (ticks w) (execTimer command w)
              (heartReset (clockStartHeart w)) (afterChecks w p st) Logic.I)
    as [Hfail _].
  rewrite Hm in Hfail. cbn [fst snd] in Hfail.
  destruct ex as [b| |].
  - destruct Hex as (r0 & st3 & t3 & He & Heq).
    rewrite Heq in Hrun. inversion Hrun; subst.
    destruct (epilogue_trace command b st2)
      as (d1 & d2 & T & X & _ & _ & _ & _ & _ & _ & Hr & _).
    rewrite He in Hr. cbn [fst] in Hr. subst r. split; [left; reflexivity | lia].
  - rewrite Hex in Hrun. inversion Hrun; subst.
    split; [right; reflexivity | intros _; auto].
  - rewrite Hex in Hrun. discriminate.
Qed.

Lemma optionReadSend_result_witness :
  let run :=
    optionReadSend echoCommand (sampleWorld true rootIds [quiet 0; selectFails 0])
      100 (workerThread echoCommand) in
  fst (fst run) = Some (-1) /\
  Exists selectFailed [quiet 0; selectFails 0].
Proof.
  intro run.
  assert (Hrun : run = (Some (-1), snd (fst run), snd run)) by (vm_compute; reflexivity).
  split; [vm_compute; reflexivity|].
  exact (proj2 (optionReadSend_result echoCommand
                  (sampleWorld true rootIds [quiet 0; selectFails 0]) 100
                  _ _ _ _ Hrun) eq_refl).
Defined.

(** ** Relations kept along a run *)

Section Keeps.

Variable L : KAThread -> KAThread -> list Effect -> Prop.
Hypothesis L_refl : forall st, L st st [].
Hypothesis L_trans :
  forall a b c t1 t2, L a b t1 -> L b c t2 -> L a c (t1 ++ t2).

Lemma keeps_ret {A} (a : A) : keeps L (ret a).
Proof. intro st. apply L_refl. Qed.

Lemma keeps_get : keeps L get.
Proof. intro st. apply L_refl. Qed.

Lemma keeps_bind {A B} (m : M A) (f : A -> M B) :
  keeps L m -> (forall a, keeps L (f a)) -> keeps L (bind m f).
Proof.
  intros Hm Hf st. unfold bind. specialize (Hm st).
  destruct (m st) as [[a st1] t1]. specialize (Hf a st1).
  destruct (f a st1) as [[b st2] t2]. cbn in *. eapply L_trans; eassumption.
Qed.

Lemma keeps_modify (f : KAThread -> KAThread) :
  (forall st, L st (f st) []) -> keeps L (modify f).
Proof. intros Hf st. apply Hf. Qed.

Lemma keeps_emit (e : Effect) : (forall st, L st st [e]) -> keeps L (emit e).
Proof. intros He st. apply He. Qed.

Lemma keeps_when (b : bool) (m : M unit) : keeps L m -> keeps L (when b m).
Proof. intro Hm. destruct b; cbn [when]; [assumption | apply keeps_ret]. Qed.

Lemma keeps_if {A} (b : bool) (m1 m2 : M A) :
  keeps L m1 -> keeps L m2 -> keeps L (if b then m1 else m2).
Proof. destruct b; auto. Qed.

End Keeps.

(** Structural steps for a relation with the two closure lemmas [R] and
    [T]. *)
Ltac keep_step R T :=
  match goal with
  | |- keeps _ (bind _ _) => apply (keeps_bind _ T); [|intro]
  | |- keeps _ (ret _) => apply (keeps_ret _ R)
  | |- keeps _ get => apply (keeps_get _ R)
  | |- keeps _ (when _ _) => apply (keeps_when _ R)
  | |- keeps _ (if _ then _ else _) => apply keeps_if
  | |- keeps _ (let '(_, _) := ?x in _) => destruct x
  | |- keeps _ (modify _) => apply keeps_modify
  | |- keeps _ (emit _) => apply keeps_emit
  end.

(** ** The response counter *)

Lemma countsFrom_app (a b : list Message) :
  forall n,
    countsFrom n (a ++ b)
    <-> countsFrom n a /\ countsFrom (n + Z.of_nat (List.length a)) b.
Proof.
  induction a as [|m a IH]; intro n; cbn [countsFrom app List.length].
  - rewrite Z.add_0_r. tauto.
  - rewrite IH.
    replace (n + 1 + Z.of_nat (List.length a)) with (n + Z.of_nat (S (List.length a)))
      by lia.
    tauto.
Qed.

Lemma counting_refl (st : KAThread) : counting st st [].
Proof. split; cbn; [exact Logic.I | lia]. Qed.

Lemma counting_trans (a b c : KAThread) (t1 t2 : list Effect) :
  counting a b t1 -> counting b c t2 -> counting a c (t1 ++ t2).
Proof.
  intros [H1 E1] [H2 E2]. unfold counting.
  rewrite sent_app, length_app, countsFrom_app. rewrite E1 in H2.
  repeat split; auto. lia.
Qed.

Section Counting.

Variable command : KACommand.

Ltac count_leaf :=
  first [ (intro; split; cbn; [exact Logic.I | lia]) ].

Ltac counts := repeat keep_step counting_refl counting_trans.

Lemma sendBuffers_counting : keeps counting (sendBuffers command).
Proof.
  intro st. split; cbn; [split; [reflexivity | exact Logic.I] | lia].
Qed.

Lemma heartbeat_counting : keeps counting (heartbeat command).
Proof.
  intro st.
  unfold heartbeat, sendCurrent, countUp, clearout, clearerr,
    bind, modify, get, emit, ret.
  cbn. branches; (split; cbn; [split; [reflexivity | exact Logic.I] | lia]).
Qed.

Lemma lastCheckAndSend_counting : keeps counting (lastCheckAndSend command).
Proof.
  unfold lastCheckAndSend, clearout, clearerr.
  counts; first [apply sendBuffers_counting | count_leaf].
Qed.

Lemma checkAndWrite_counting (outOpen errOpen : bool) :
  keeps counting (checkAndWrite command outOpen errOpen).
Proof.
  unfold checkAndWrite, gatherBuffers, fragment, captureOutput, captureError,
    checkAndSend, clearout, clearerr.
  counts; first [apply sendBuffers_counting | count_leaf].
Qed.

Lemma heartStep_counting (k : Tick) (heart : Timer) :
  keeps counting (heartStep command k heart).
Proof.
  unfold heartStep. counts; first [apply heartbeat_counting | count_leaf].
Qed.

Lemma multiplex_counting (ticks : list Tick) :
  forall exec heart, keeps counting (multiplex command ticks exec heart).
Proof.
  induction ticks as [|k rest IH]; intros exec heart; cbn [multiplex].
  - apply (keeps_ret _ counting_refl).
  - unfold select, readOutput, readError.
    counts;
      first [ apply IH | apply heartStep_counting | apply checkAndWrite_counting
            | count_leaf ].
Qed.

End Counting.

(** What follows the loop: the drain goes on counting, and the Timeout and
    the Exit message both carry the number the drain ends with. *)
Lemma epilogue_counts (command : KACommand) (EXECTIMEOUT : bool) (st : KAThread) :
  exists body fin,
    sent (snd (epilogue command EXECTIMEOUT st)) = body ++ fin /\
    Forall (fun m => isProgress m = true) body /\
    countsFrom (responsecount st) body /\
    Forall (fun m => isTerminal m = true /\
                     responseCount m = responsecount st + Z.of_nat (List.length body))
      fin /\
    List.length fin = ((if EXECTIMEOUT then 1 else 0) + (if bothZero st then 1 else 0))%nat /\
    responsecount (snd (fst (epilogue command EXECTIMEOUT st)))
    = responsecount st + Z.of_nat (List.length body).
Proof.
  pose proof (lastCheckAndSend_frame command st) as Hf.
  destruct (lastCheckAndSend_effects command st Logic.I) as [_ Hl].
  apply loopEffect_sent in Hl. destruct Hl as [Hprog _].
  pose proof (lastCheckAndSend_counting command st) as [Hcount Hnext].
  unfold epilogue, timeoutDone, executeDone, bind, when, get, emit, ret.
  destruct EXECTIMEOUT; cbn -[lastCheckAndSend Z.eqb]; fold (bothZero st).
  - destruct (lastCheckAndSend command st) as [[[] s1] d1] eqn:Hd.
    cbn [fst snd] in Hf, Hprog, Hcount, Hnext.
    destruct Hf as (_ & _ & _ & _ & Hos & Hes & _ & Hob & Heb).
    assert (Hbz : bothZero s1 = bothZero st) by (unfold bothZero; now rewrite Hos, Hes).
    destruct (processpid s1 =? 0); cbn -[lastCheckAndSend Z.eqb];
      fold (bothZero s1); rewrite Hbz; destruct (bothZero st);
      cbn -[lastCheckAndSend Z.eqb];
      rewrite ?(lastCheckAndSend_empty command s1 Hob Heb);
      cbn -[Z.eqb]; rewrite <- ?app_assoc, ?sent_app; cbn [sent app];
      eexists (sent d1), _; (split; [reflexivity|]);
      repeat split; auto; repeat constructor; cbn; auto.
  - destruct (bothZero st).
    + destruct (lastCheckAndSend command st) as [[[] s1] d1] eqn:Hd.
      cbn [fst snd] in Hf, Hprog, Hcount, Hnext.
      cbn -[Z.eqb]. rewrite ?app_nil_r, ?sent_app. cbn [sent].
      eexists (sent d1), _. split; [reflexivity|].
      repeat split; auto; repeat constructor; cbn; auto.
    + cbn. exists [], []. cbn. repeat split; auto; try constructor; lia.
Qed.

Lemma afterChecks_responsecount (w : World) (p : Z) (st : KAThread) :
  responsecount (afterChecks w p st) = responsecount st.
Proof. unfold afterChecks. destruct (cwdOk w), (found (ids w)); reflexivity. Qed.

Lemma checksTrace_counts (command : KACommand) (w : World) (p : Z) :
  Forall (fun m => isProgress m = true /\ responseCount m = 1)
    (sent (checksTrace command w p)).
Proof.
  unfold checksTrace. destruct (cwdOk w), (found (ids w)); cbn;
    repeat constructor.
Qed.

(** X11.  The response counts of a run whose count stays an [int]: the
    count at the start is not below [INT_MIN], and the messages of the run
    do not take it past [INT_MAX].  The messages of the two failed checks
    carry the number 1 and do not count.  After them, the Progress messages
    of the loop and the drain are numbered [responsecount],
    [responsecount + 1], ... without a gap; the Timeout and the Exit message
    carry the number after the last of them, both the same one when both are
    sent; and that number is the [responsecount] the run ends with, an [int]
    again. *)
Theorem response_counts_of_a_run (command : KACommand) (w : World) (newpid : Z)
    (st : KAThread)
    (Hint : INT_MIN <= responsecount st /\
            responsecount st
            + Z.of_nat (List.length (sent (snd (optionReadSend command w newpid st))))
            <= INT_MAX) :
  let run := optionReadSend command w newpid st in
  exists checks body fin,
    sent (snd run) = checks ++ body ++ fin /\
    Forall (fun m => isProgress m = true /\ responseCount m = 1) checks /\
    Forall (fun m => isProgress m = true) body /\
    countsFrom (responsecount st) body /\
    Forall (fun m => isTerminal m = true /\
                     responseCount m = responsecount st + Z.of_nat (List.length body))
      fin /\
    (List.length fin <= 2)%nat /\
    responsecount (snd (fst run)) = responsecount st + Z.of_nat (List.length body) /\
    INT_MIN <= responsecount (snd (fst run)) <= INT_MAX.
Proof.
  cbn zeta.
  assert (Hlast : forall checks body fin : list Message,
            sent (snd (optionReadSend command w newpid st)) = checks ++ body ++ fin ->
            INT_MIN <= responsecount st + Z.of_nat (List.length body) <= INT_MAX).
  { intros checks body fin Hs. rewrite Hs, !length_app in Hint. lia. }
  destruct (optionReadSend_parts command w newpid st)
    as (p & _ & [H | (ex & st2 & t2 & Hm & Hex)]).
  { rewrite H in Hlast |- *. exists [], [], [].
    specialize (Hlast [] [] [] eq_refl). cbn in Hlast |- *.
    repeat split; auto; lia. }
  exists (sent (checksTrace command w p)).
  pose proof (checksTrace_counts command w p) as Hchecks.
  destruct (multiplex_effects command (ticks w) (execTimer command w)
              (heartReset (clockStartHeart w)) (afterChecks w p st) Logic.I)
    as [_ Hloop].
  pose proof (multiplex_counting command (ticks w) (execTimer command w)
                (heartReset (clockStartHeart w)) (afterChecks w p st))
    as [Hcount Hnext].
  rewrite Hm in Hloop, Hcount, Hnext. cbn [fst snd] in Hloop, Hcount, Hnext.
  rewrite afterChecks_responsecount in Hcount, Hnext.
  apply loopEffect_sent in Hloop. destruct Hloop as [Hprog _].
  destruct ex as [b| |].
  - destruct Hex as (r & st3 & t3 & He & Hrun). rewrite Hrun in Hlast |- *.
    cbn [fst snd] in Hlast |- *.
    destruct (epilogue_counts command b st2)
      as (body & fin & Hsent & Hbody & Hcounts & Hfin & Hlen & Hend).
    rewrite He in Hsent, Hend. cbn [fst snd] in Hsent, Hend.
    exists (sent t2 ++ body), fin.
    assert (Hs : sent (checksTrace command w p ++ t2 ++ t3)
                 = sent (checksTrace command w p) ++ (sent t2 ++ body) ++ fin)
      by (rewrite !sent_app, Hsent, <- !app_assoc; reflexivity).
    specialize (Hlast _ _ _ Hs).
    split; [exact Hs|]. split; [assumption|].
    split; [apply Forall_app; auto|].
    split; [apply countsFrom_app; split; [assumption | now rewrite <- Hnext]|].
    rewrite length_app, Nat2Z.inj_add, Z.add_assoc, <- Hnext in Hlast |- *.
    split; [assumption|].
    split; [rewrite Hlen; destruct b, (bothZero st2); cbn; lia|].
    split; [assumption|]. rewrite Hend. exact Hlast.
  - rewrite Hex in Hlast |- *. cbn [fst snd] in Hlast |- *. exists (sent t2), [].
    assert (Hs : sent (checksTrace command w p ++ t2)
                 = sent (checksTrace command w p) ++ sent t2 ++ [])
      by (rewrite sent_app, app_nil_r; reflexivity).
    specialize (Hlast _ _ _ Hs).
    split; [exact Hs|]. rewrite <- Hnext in Hlast.
    repeat split; auto; cbn [List.length]; lia.
  - rewrite Hex in Hlast |- *. cbn [fst snd] in Hlast |- *. exists (sent t2), [].
    assert (Hs : sent (checksTrace command w p ++ t2)
                 = sent (checksTrace command w p) ++ sent t2 ++ [])
      by (rewrite sent_app, app_nil_r; reflexivity).
    specialize (Hlast _ _ _ Hs).
    split; [exact Hs|]. rewrite <- Hnext in Hlast.
    repeat split; auto; cbn [List.length]; lia.
Qed.

Lemma response_counts_of_a_run_witness :
  let run := optionReadSend echoCommand burstWorld 100 (workerThread echoCommand) in
  exists checks body fin,
    sent (snd run) = checks ++ body ++ fin /\
    Forall (fun m => isProgress m = true /\ responseCount m = 1) checks /\
    Forall (fun m => isProgress m = true) body /\
    countsFrom 1 body /\
    Forall (fun m => isTerminal m = true /\
                     responseCount m = 1 + Z.of_nat (List.length body))
      fin /\
    (List.length fin <= 2)%nat /\
    responsecount (snd (fst run)) = 1 + Z.of_nat (List.length body) /\
    INT_MIN <= responsecount (snd (fst run)) <= INT_MAX.
Proof.
  apply (response_counts_of_a_run echoCommand burstWorld 100 (workerThread echoCommand)).
  vm_compute. split; discriminate.
Defined.

(** ** One turn of the loop *)

Lemma heartStep_streams (command : KACommand) (k : Tick) (heart : Timer)
    (st : KAThread) :
  outputStream (snd (fst (heartStep command k heart st))) = outputStream st /\
  errorStream (snd (fst (heartStep command k heart st))) = errorStream st.
Proof.
  assert (H : preserves (fun s => outputStream s = outputStream st /\
                                  errorStream s = errorStream st) anyEffect
                (heartStep command k heart)).
  { unfold heartStep, heartbeat, sendCurrent, countUp, clearout, clearerr.
    pres; first [exact Logic.I | (intros ? [? ?]; split; cbn; assumption)]. }
  destruct (H st (conj eq_refl eq_refl)) as [Hs _]. exact Hs.
Qed.

(** A turn, by the results of its parts. *)
Lemma multiplex_turn (command : KACommand) (k : Tick) (rest : list Tick)
    (exec heart : Timer) (st : KAThread) :
  multiplex command (k :: rest) exec heart st =
    let st1 := selected k st in
    if fst (checkExecutionTimeout (secExec k) exec) then (Break true, st1, [])
    else
      let '(heart1, st2, t2) := heartStep command k heart st1 in
      if (outSelect k =? -1) || (errSelect k =? -1)
      then (ReturnError, st2, t2 ++ [cout "ERROR selecting pipelines"])
      else
        let st3 := afterReads k st2 in
        if (readResult (outputStream st3) >? 0) || (readResult (errorStream st3) >? 0)
        then
          let '(_, st4, t4) := checkAndWrite command (outOpen k) (errOpen k) st3 in
          let '(ex, st5, t5) :=
            multiplex command rest (snd (checkExecutionTimeout (secExec k) exec))
              heart1 st4 in
          (ex, st5, t2 ++ t4 ++ t5)
        else (Break false, st3, t2).
Proof.
  cbn [multiplex]. unfold bind at 1. unfold select, bind, modify. cbn zeta.
  fold (selected k st).
  change (setErrorStream
            (setSelectResult (errSelect k)
               (setTimeout 50000
                  (errorStream
                     (setOutputStream
                        (setSelectResult (outSelect k)
                           (setTimeout 50000 (outputStream st))) st))))
            (setOutputStream
               (setSelectResult (outSelect k) (setTimeout 50000 (outputStream st)))
               st))
    with (selected k st).
  destruct (checkExecutionTimeout (secExec k) exec) as [fired exec1].
  cbn [fst snd]. destruct fired; [reflexivity|].
  unfold bind.
  pose proof (heartStep_streams command k heart (selected k st)) as [Ho He].
  destruct (heartStep command k heart (selected k st)) as [[heart1 st2] t2].
  cbn [fst snd] in Ho, He.
  assert (Hso : selectResult (outputStream st2) = outSelect k) by (now rewrite Ho).
  assert (Hse : selectResult (errorStream st2) = errSelect k) by (now rewrite He).
  unfold get at 1. cbn [fst snd]. rewrite Hso, Hse.
  destruct ((outSelect k =? -1) || (errSelect k =? -1)).
  { cbn. reflexivity. }
  unfold readOutput, readError, bind, get, when, modify, ret. cbn [fst snd].
  rewrite Hso. unfold afterReads.
  destruct (outSelect k >? 0) eqn:Hog; destruct (outSelect k =? 0) eqn:Hoz;
    try (exfalso; Zbool; lia);
    destruct (errSelect k >? 0) eqn:Heg; destruct (errSelect k =? 0) eqn:Hez;
    try (exfalso; Zbool; lia);
    repeat (cbn -[Z.gtb Z.eqb checkAndWrite multiplex];
            rewrite ?Hso, ?Hse, ?Hog, ?Hoz, ?Heg, ?Hez);
    match goal with
    | |- context [if ?c then _ else _] => destruct c
    end;
    cbn -[Z.gtb Z.eqb checkAndWrite multiplex];
    try reflexivity.
  all: rewrite ?app_nil_r; try reflexivity.
  all: match goal with
       | |- context [checkAndWrite ?c ?a ?b ?s] =>
           destruct (checkAndWrite c a b s) as [[[] st4] t4]
       end;
       destruct (multiplex command rest exec1 heart1 st4) as [[ex st5] t5];
       reflexivity.
Qed.

(** ** Where the bytes go *)

Lemma joined_app (a b : list string) :
  joined (a ++ b) = (joined a ++ joined b)%string.
Proof.
  induction a as [|x a IH]; [reflexivity|].
  cbn [joined app]. now rewrite IH, append_assoc.
Qed.

Lemma stdOutOf_app (a b : list Effect) :
  stdOutOf (a ++ b) = (stdOutOf a ++ stdOutOf b)%string.
Proof. unfold stdOutOf. now rewrite sent_app, map_app, joined_app. Qed.

Lemma stdErrOf_app (a b : list Effect) :
  stdErrOf (a ++ b) = (stdErrOf a ++ stdErrOf b)%string.
Proof. unfold stdErrOf. now rewrite sent_app, map_app, joined_app. Qed.

Lemma writtenTo_app (id : string) (a b : list Effect) :
  writtenTo id (a ++ b) = (writtenTo id a ++ writtenTo id b)%string.
Proof.
  induction a as [|e a IH]; [reflexivity|].
  destruct e as [| | | | |i f d| | | |]; cbn [writtenTo app]; rewrite ?IH;
    try reflexivity.
  destruct (i =? id)%string; [now rewrite append_assoc | reflexivity].
Qed.

Lemma noAppend_writtenTo (id : string) (tr : list Effect) :
  Forall noAppend tr -> writtenTo id tr = "".
Proof.
  induction 1 as [|e tr He _ IH]; [reflexivity|].
  destruct e; cbn in He |- *; try contradiction; exact IH.
Qed.

Lemma isReturn_test (m : string) :
  isReturn m = true -> ((m =? "RETURN") || (m =? "CAPTURE_AND_RETURN"))%string = true.
Proof. unfold isReturn. intro H. now rewrite orb_comm. Qed.

Lemma isReturn_not_silent (m : string) : isReturn m = true -> isSilent m = false.
Proof. intro H. apply return_not_silent, isReturn_test, H. Qed.

Section Bytes.

Variable command : KACommand.

Ltac file_leaf := first [exact Logic.I | (intros; exact Logic.I)].

Lemma heartStep_noAppend (k : Tick) (heart : Timer) :
  preserves always noAppend (heartStep command k heart).
Proof.
  unfold heartStep, heartbeat, sendCurrent, countUp, clearout, clearerr.
  pres; file_leaf.
Qed.

Lemma lastCheckAndSend_noAppend :
  preserves always noAppend (lastCheckAndSend command).
Proof.
  unfold lastCheckAndSend, sendBuffers, sendCurrent, countUp, clearout, clearerr.
  pres; file_leaf.
Qed.

Lemma fragment_noAppend : preserves always noAppend (fragment command).
Proof.
  unfold fragment, checkAndSend, sendBuffers, sendCurrent, countUp, clearout, clearerr.
  pres; file_leaf.
Qed.

(** The stream of stdout. *)

Hypothesis HretO : isReturn (getStandardOutput command) = true.

Lemma heartStep_stdout (k : Tick) (heart : Timer) (st : KAThread) :
  (stdOutOf (snd (heartStep command k heart st))
   ++ outBuff (snd (fst (heartStep command k heart st))))%string
  = outBuff st.
Proof.
  pose proof (isReturn_not_silent _ HretO) as Hs.
  unfold heartStep, heartbeat, sendCurrent, countUp, clearout, clearerr,
    bind, modify, get, emit, ret.
  destruct (ACTFLAG st); [reflexivity|].
  destruct (checkExecutionTimeout (secHeart k) heart) as [fired heart1].
  destruct fired; [|reflexivity].
  rewrite Hs. cbn.
  destruct (Str.empty (outBuff st)) eqn:Ho; destruct (Str.empty (errBuff st)) eqn:He;
    cbn; branches; unfold stdOutOf; cbn; rewrite ?append_nil_r;
    reflexivity.
Qed.

Lemma lastCheckAndSend_stdout (st : KAThread) :
  stdOutOf (snd (lastCheckAndSend command st)) = outBuff st.
Proof.
  unfold lastCheckAndSend, sendBuffers, sendCurrent, countUp, clearout, clearerr,
    bind, modify, get, emit, ret.
  cbn. rewrite HretO. cbn.
  destruct (Str.size (outBuff st) =? 0) eqn:Ho;
    destruct (Str.size (errBuff st) =? 0) eqn:He; cbn; branches;
    unfold stdOutOf; cbn; rewrite ?append_nil_r; try reflexivity;
    Zbool; rewrite size_zero in Ho; now rewrite Ho.
Qed.

Lemma fragment_stdout (st : KAThread) :
  mode (outputStream st) = getStandardOutput command ->
  (stdOutOf (snd (fragment command st)) ++ outBuff (snd (fst (fragment command st))))%string
  = outBuff st.
Proof.
  intro Hmode. pose proof (isReturn_test _ HretO) as Ht.
  pose proof (size_nonneg (outBuff st)) as Ho0.
  unfold fragment, checkAndSend, sendBuffers, sendCurrent, countUp, clearout, clearerr,
    bind, modify, get, when, emit, ret.
  unfold MaxBuffSize.
  repeat (cbn; rewrite ?Hmode, ?Ht;
          try match goal with
            | |- context [if ?c then _ else _] => destruct c eqn:?
            end).
  all: unfold stdOutOf; cbn; rewrite ?append_nil_r; try reflexivity.
  all: Zbool; try (apply substr_split; lia).
Qed.

End Bytes.

Section ErrorBytes.

Variable command : KACommand.

(** The stream of stderr. *)

Hypothesis HretE : isReturn (getStandardError command) = true.

Lemma heartStep_stderr (k : Tick) (heart : Timer) (st : KAThread) :
  (stdErrOf (snd (heartStep command k heart st))
   ++ errBuff (snd (fst (heartStep command k heart st))))%string
  = errBuff st.
Proof.
  pose proof (isReturn_not_silent _ HretE) as Hs.
  unfold heartStep, heartbeat, sendCurrent, countUp, clearout, clearerr,
    bind, modify, get, emit, ret.
  destruct (ACTFLAG st); [reflexivity|].
  destruct (checkExecutionTimeout (secHeart k) heart) as [fired heart1].
  destruct fired; [|reflexivity].
  rewrite Hs, andb_false_r. cbn.
  destruct (Str.empty (outBuff st)) eqn:Ho; destruct (Str.empty (errBuff st)) eqn:He;
    cbn; branches; unfold stdErrOf; cbn; rewrite ?append_nil_r;
    reflexivity.
Qed.

Lemma lastCheckAndSend_stderr (st : KAThread) :
  stdErrOf (snd (lastCheckAndSend command st)) = errBuff st.
Proof.
  unfold lastCheckAndSend, sendBuffers, sendCurrent, countUp, clearout, clearerr,
    bind, modify, get, emit, ret.
  cbn. rewrite HretE, ?andb_true_r. cbn.
  destruct (Str.size (outBuff st) =? 0) eqn:Ho;
    destruct (Str.size (errBuff st) =? 0) eqn:He; cbn; branches;
    unfold stdErrOf; cbn; rewrite ?append_nil_r; try reflexivity;
    Zbool; rewrite size_zero in He; now rewrite He.
Qed.

Lemma fragment_stderr (st : KAThread) :
  (stdErrOf (snd (fragment command st)) ++ errBuff (snd (fst (fragment command st))))%string
  = errBuff st.
Proof.
  pose proof (isReturn_not_silent _ HretE) as Hs.
  pose proof (size_nonneg (errBuff st)) as He0.
  unfold fragment, checkAndSend, sendBuffers, sendCurrent, countUp, clearout, clearerr,
    bind, modify, get, when, emit, ret.
  unfold MaxBuffSize.
  repeat (cbn; rewrite ?Hs;
          try match goal with
            | |- context [if ?c then _ else _] => destruct c eqn:?
            end).
  all: unfold stdErrOf; cbn; rewrite ?append_nil_r; try reflexivity.
  all: Zbool; try (apply substr_split; lia).
Qed.

End ErrorBytes.

(** ** The ledger *)

Lemma append_nil_l (a : string) : ("" ++ a)%string = a.
Proof. reflexivity. Qed.

Lemma gatherBuffers_trace (outOpen errOpen : bool) (st : KAThread) :
  snd (gatherBuffers outOpen errOpen st) = captures outOpen errOpen st.
Proof.
  unfold gatherBuffers, captureOutput, captureError, captures,
    bind, modify, get, when, emit, ret.
  destruct (isCapture (mode (outputStream st))) eqn:Ho, outOpen,
    (isCapture (mode (errorStream st))) eqn:He, errOpen;
    repeat (cbn; rewrite ?Ho, ?He); reflexivity.
Qed.

Lemma checkAndWrite_parts (command : KACommand) (outOpen errOpen : bool)
    (st : KAThread) :
  checkAndWrite command outOpen errOpen st
  = (tt, snd (fst (fragment command (gathered st))),
     captures outOpen errOpen st ++ snd (fragment command (gathered st))).
Proof.
  unfold checkAndWrite, bind.
  pose proof (gatherBuffers_state outOpen errOpen st) as Hs.
  pose proof (gatherBuffers_trace outOpen errOpen st) as Ht.
  destruct (gatherBuffers outOpen errOpen st) as [[[] s1] t1].
  cbn [fst snd] in Hs, Ht. subst s1 t1.
  destruct (fragment command (gathered st)) as [[[] s2] t2]. reflexivity.
Qed.

Lemma fragment_streams (command : KACommand) (st : KAThread) :
  outputStream (snd (fst (fragment command st))) = outputStream st /\
  errorStream (snd (fst (fragment command st))) = errorStream st.
Proof.
  assert (H : preserves (fun s => outputStream s = outputStream st /\
                                  errorStream s = errorStream st) anyEffect
                (fragment command)).
  { unfold fragment, checkAndSend, sendBuffers, sendCurrent, countUp, clearout, clearerr.
    pres; first [exact Logic.I | (intros ? [? ?]; split; cbn; assumption)]. }
  destruct (H st (conj eq_refl eq_refl)) as [Hs _]. exact Hs.
Qed.

Section Ledger.

Variable command : KACommand.

Lemma heartStep_ledger (a : Account) (k : Tick) (heart : Timer) (st : KAThread) :
  kept command a ->
  (booked a (snd (heartStep command k heart st))
   ++ buffered a (snd (fst (heartStep command k heart st))))%string
  = buffered a st.
Proof.
  intro Hk.
  destruct (heartStep_noAppend command k heart st Logic.I) as [_ Hno].
  destruct a; cbn [booked buffered kept] in *.
  - now apply heartStep_stdout.
  - now apply heartStep_stderr.
  - now rewrite noAppend_writtenTo.
  - now rewrite noAppend_writtenTo.
Qed.

Lemma lastCheckAndSend_ledger (a : Account) (st : KAThread) :
  kept command a ->
  booked a (snd (lastCheckAndSend command st)) = buffered a st.
Proof.
  intro Hk.
  destruct (lastCheckAndSend_noAppend command st Logic.I) as [_ Hno].
  destruct a; cbn [booked buffered kept] in *.
  - now apply lastCheckAndSend_stdout.
  - now apply lastCheckAndSend_stderr.
  - now rewrite noAppend_writtenTo.
  - now rewrite noAppend_writtenTo.
Qed.

Lemma afterReads_readers (k : Tick) (st : KAThread) :
  readersOf command st -> readersOf command (afterReads k st).
Proof.
  unfold readersOf, afterReads.
  destruct (outSelect k >? 0), (errSelect k >? 0); cbn; auto.
Qed.

Lemma afterReads_ledger (a : Account) (k : Tick) (st : KAThread) :
  pending a st = "" ->
  buffered a (afterReads k st) = buffered a st /\
  pending a (afterReads k st) = taken a k.
Proof.
  unfold afterReads.
  destruct a; cbn [pending buffered taken]; unfold outTaken, errTaken; intro Hp;
    destruct (outSelect k >? 0), (errSelect k >? 0); cbn; rewrite ?Hp; auto.
Qed.

Lemma checkAndWrite_readers (outOpen errOpen : bool) (st : KAThread) :
  readersOf command st ->
  readersOf command (snd (fst (checkAndWrite command outOpen errOpen st))) /\
  forall b, pending b (snd (fst (checkAndWrite command outOpen errOpen st))) = "".
Proof.
  intros (Hmo & Hme & Hio & Hie).
  rewrite checkAndWrite_parts. cbn [fst snd].
  destruct (fragment_streams command (gathered st)) as [Hso Hse].
  split.
  - unfold readersOf. rewrite Hso, Hse. cbn. auto.
  - intros []; cbn [pending]; rewrite ?Hso, ?Hse; reflexivity.
Qed.

Lemma checkAndWrite_ledger (a : Account) (k : Tick) (st : KAThread) :
  readersOf command st -> kept command a -> opened a k ->
  (booked a (snd (checkAndWrite command (outOpen k) (errOpen k) st))
   ++ buffered a (snd (fst (checkAndWrite command (outOpen k) (errOpen k) st))))%string
  = (buffered a st ++ pending a st)%string.
Proof.
  intros (Hmo & Hme & Hio & Hie) Hk Hopen.
  rewrite checkAndWrite_parts. cbn [fst snd].
  destruct (fragment_noAppend command (gathered st) Logic.I) as [_ Hno].
  destruct a; cbn [booked buffered pending kept opened] in *.
  - rewrite stdOutOf_app.
    assert (Hc : stdOutOf (captures (outOpen k) (errOpen k) st) = "").
    { unfold captures.
      destruct (isCapture (mode (outputStream st)) && outOpen k),
        (isCapture (mode (errorStream st)) && errOpen k); reflexivity. }
    rewrite Hc, append_nil_l.
    rewrite (fragment_stdout command Hk (gathered st)); [reflexivity | exact Hmo].
  - rewrite stdErrOf_app.
    assert (Hc : stdErrOf (captures (outOpen k) (errOpen k) st) = "").
    { unfold captures.
      destruct (isCapture (mode (outputStream st)) && outOpen k),
        (isCapture (mode (errorStream st)) && errOpen k); reflexivity. }
    rewrite Hc, append_nil_l.
    rewrite (fragment_stderr command Hk (gathered st)). reflexivity.
  - rewrite writtenTo_app, (noAppend_writtenTo _ _ Hno), !append_nil_r.
    unfold captures. rewrite Hmo, Hk, Hopen, Hio, Hie. cbn [andb].
    destruct (isCapture (mode (errorStream st)) && errOpen k);
      cbn; now rewrite ?append_nil_r.
  - rewrite writtenTo_app, (noAppend_writtenTo _ _ Hno), !append_nil_r.
    unfold captures. rewrite Hme, Hk, Hopen, Hio, Hie. cbn [andb].
    destruct (isCapture (mode (outputStream st)) && outOpen k);
      cbn; now rewrite ?append_nil_r.
Qed.

Lemma multiplex_ledger (ticks : list Tick) :
  forall exec heart st,
    readersOf command st -> (forall a, pending a st = "") ->
    exists turns rest,
      ticks = turns ++ rest /\
      readersOf command (snd (fst (multiplex command ticks exec heart st))) /\
      forall a, kept command a -> Forall (opened a) turns ->
        (booked a (snd (multiplex command ticks exec heart st))
         ++ buffered a (snd (fst (multiplex command ticks exec heart st)))
         ++ pending a (snd (fst (multiplex command ticks exec heart st))))%string
        = (buffered a st ++ joined (map (taken a) turns))%string.
Proof.
  induction ticks as [|k rest IH]; intros exec heart st Hr Hp.
  { exists [], []. cbn [multiplex]. unfold ret. cbn [fst snd map joined].
    split; [reflexivity|]. split; [exact Hr|].
    intros a _ _. rewrite Hp.
    destruct a; reflexivity. }
  rewrite multiplex_turn. cbn zeta.
  assert (Hbook0 : forall a, booked a [] = "") by (intros []; reflexivity).
  assert (Hsel : forall a, buffered a (selected k st) = buffered a st /\
                           pending a (selected k st) = pending a st)
    by (intros []; split; reflexivity).
  destruct (fst (checkExecutionTimeout (secExec k) exec)).
  { exists [], (k :: rest). cbn [fst snd map joined].
    split; [reflexivity|]. split; [exact Hr|].
    intros a _ _. destruct (Hsel a) as [-> ->]. rewrite Hbook0, Hp. reflexivity. }
  pose proof (heartStep_streams command k heart (selected k st)) as [Hho Hhe].
  pose proof (fun a => heartStep_ledger a k heart (selected k st)) as Hheart.
  destruct (heartStep command k heart (selected k st)) as [[heart1 st2] t2].
  cbn [fst snd] in Hho, Hhe, Hheart.
  assert (Hr2 : readersOf command st2)
    by (unfold readersOf; rewrite Hho, Hhe; exact Hr).
  assert (Hp2 : forall a, pending a st2 = "").
  { intro a. specialize (Hp a). destruct a; cbn [pending] in *;
      rewrite ?Hho, ?Hhe; exact Hp. }
  destruct ((outSelect k =? -1) || (errSelect k =? -1)).
  { exists [], (k :: rest). cbn [fst snd map joined].
    split; [reflexivity|]. split; [exact Hr2|].
    intros a Hk _. rewrite Hp2, !append_nil_r.
    specialize (Hheart a Hk). destruct (Hsel a) as [Hb _]. rewrite Hb in Hheart.
    rewrite <- Hheart. f_equal.
    destruct a; cbn [booked]; rewrite ?stdOutOf_app, ?stdErrOf_app, ?writtenTo_app;
      cbn; now rewrite append_nil_r. }
  pose proof (afterReads_readers k st2 Hr2) as Hr3.
  pose proof (fun a => afterReads_ledger a k st2 (Hp2 a)) as Hreads.
  destruct ((readResult (outputStream (afterReads k st2)) >? 0)
            || (readResult (errorStream (afterReads k st2)) >? 0)).
  - pose proof (fun a => checkAndWrite_ledger a k (afterReads k st2) Hr3) as Hwrite.
    pose proof (checkAndWrite_readers (outOpen k) (errOpen k) (afterReads k st2) Hr3)
      as [Hr4 Hp4].
    destruct (checkAndWrite command (outOpen k) (errOpen k) (afterReads k st2))
      as [[[] st4] t4].
    cbn [fst snd] in Hwrite, Hr4, Hp4.
    destruct (IH (snd (checkExecutionTimeout (secExec k) exec)) heart1 st4 Hr4 Hp4)
      as (turns & rest' & Hticks & Hr5 & Hledger).
    destruct (multiplex command rest (snd (checkExecutionTimeout (secExec k) exec))
                heart1 st4) as [[ex st5] t5].
    cbn [fst snd] in Hr5, Hledger |- *.
    exists (k :: turns), rest'.
    split; [cbn [app]; now rewrite Hticks|]. split; [exact Hr5|].
    intros a Hk Hopen. inversion Hopen as [|? ? Hok Hopen']; subst.
    specialize (Hledger a Hk Hopen'). specialize (Hwrite a Hk Hok).
    specialize (Hheart a Hk). destruct (Hsel a) as [Hb _]. rewrite Hb in Hheart.
    destruct (Hreads a) as [Hb3 Hp3]. rewrite Hb3, Hp3 in Hwrite.
    cbn [map joined].
    assert (Hbook : booked a (t2 ++ t4 ++ t5)
                    = (booked a t2 ++ booked a t4 ++ booked a t5)%string)
      by (destruct a; cbn [booked];
          rewrite ?stdOutOf_app, ?stdErrOf_app, ?writtenTo_app; reflexivity).
    rewrite Hbook, !append_assoc, Hledger.
    rewrite <- Hheart, append_assoc. f_equal.
    rewrite <- (append_assoc (booked a t4)), Hwrite, append_assoc. reflexivity.
  - exists [k], rest. cbn [fst snd map joined app].
    split; [reflexivity|]. split; [exact Hr3|].
    intros a Hk _. destruct (Hreads a) as [-> ->].
    specialize (Hheart a Hk). destruct (Hsel a) as [Hb _]. rewrite Hb in Hheart.
    rewrite <- Hheart, !append_assoc, append_nil_r. reflexivity.
Qed.

End Ledger.

Lemma booked_app (a : Account) (t1 t2 : list Effect) :
  booked a (t1 ++ t2) = (booked a t1 ++ booked a t2)%string.
Proof.
  destruct a; cbn [booked];
    rewrite ?stdOutOf_app, ?stdErrOf_app, ?writtenTo_app; reflexivity.
Qed.

Lemma ledger_refl (a : Account) (st : KAThread) : ledger a st st [].
Proof. unfold ledger. destruct a; reflexivity. Qed.

Lemma ledger_trans (a : Account) (s1 s2 s3 : KAThread) (t1 t2 : list Effect) :
  ledger a s1 s2 t1 -> ledger a s2 s3 t2 -> ledger a s1 s3 (t1 ++ t2).
Proof.
  unfold ledger. intros H1 H2.
  rewrite booked_app, append_assoc, H2. exact H1.
Qed.

Section Drain.

Variable command : KACommand.
Variable a : Account.
Hypothesis Hkept : kept command a.

Lemma lastCheckAndSend_keeps : keeps (ledger a) (lastCheckAndSend command).
Proof.
  intro st. unfold ledger.
  rewrite (lastCheckAndSend_ledger command a st Hkept).
  destruct (lastCheckAndSend_frame command st)
    as (_ & _ & _ & _ & Hos & Hes & _ & Hob & Heb).
  f_equal.
  assert (Hb : buffered a (snd (fst (lastCheckAndSend command st))) = "")
    by (destruct a; cbn [buffered]; auto).
  rewrite Hb, append_nil_l.
  destruct a; cbn [pending]; now rewrite ?Hos, ?Hes.
Qed.

Lemma epilogue_keeps (EXECTIMEOUT : bool) :
  keeps (ledger a) (epilogue command EXECTIMEOUT).
Proof.
  unfold epilogue, timeoutDone, executeDone.
  repeat keep_step (ledger_refl a) (ledger_trans a);
    first [ apply lastCheckAndSend_keeps
          | (intro st; unfold ledger; destruct a; reflexivity) ].
Qed.

End Drain.

Lemma afterChecks_held (w : World) (p : Z) (st : KAThread) (a : Account) :
  buffered a (afterChecks w p st) = buffered a st /\
  pending a (afterChecks w p st) = pending a st.
Proof.
  unfold afterChecks. destruct a, (cwdOk w), (found (ids w)); split; reflexivity.
Qed.

Lemma afterChecks_readers (command : KACommand) (w : World) (p : Z) (st : KAThread) :
  readersOf command st -> readersOf command (afterChecks w p st).
Proof.
  unfold readersOf. destruct (afterChecks_streams w p st) as [-> ->]. auto.
Qed.

(** The books of a run: for every account the command keeps, what the run
    adds to it and what is still held at its end are the texts of the
    checks and what the turns of the loop have read, in order. *)
Lemma optionReadSend_ledger (command : KACommand) (w : World) (newpid : Z)
    (st : KAThread) :
  readersOf command st -> nothingHeld st ->
  let run := optionReadSend command w newpid st in
  exists turns rest,
    ticks w = turns ++ rest /\
    forall a, kept command a -> Forall (opened a) turns ->
      (booked a (snd run) ++ buffered a (snd (fst run)) ++ pending a (snd (fst run)))%string
      = (booked a (snd (prologue command w newpid st))
         ++ joined (map (taken a) turns))%string.
Proof.
  intros Hr (Hob & Heb & Hpo & Hpe). cbn zeta.
  assert (Hheld : forall a, buffered a st = "" /\ pending a st = "")
    by (intros []; split; assumption || reflexivity).
  unfold optionReadSend, bind.
  destruct (prologue_parts command w newpid st) as (p & _ & [H|H]); rewrite H;
    cbn [negb fst snd].
  { exists [], (ticks w). split; [reflexivity|]. intros a _ _.
    destruct a; cbn; rewrite ?Hpo, ?Hpe, ?Hob, ?Heb; reflexivity. }
  fold (execTimer command w).
  destruct (multiplex_ledger command (ticks w) (execTimer command w)
              (heartReset (clockStartHeart w)) (afterChecks w p st))
    as (turns & rest & Hticks & Hr2 & Hloop).
  { now apply afterChecks_readers. }
  { intro a. destruct (afterChecks_held w p st a) as [_ ->]. apply Hheld. }
  destruct (multiplex command (ticks w) (execTimer command w)
              (heartReset (clockStartHeart w)) (afterChecks w p st))
    as [[ex st2] t2].
  cbn [fst snd] in Hr2, Hloop.
  exists turns, rest. split; [exact Hticks|].
  intros a Hk Hopen. specialize (Hloop a Hk Hopen).
  destruct (afterChecks_held w p st a) as [Hb _]. rewrite Hb in Hloop.
  destruct (Hheld a) as [Hb0 _]. rewrite Hb0, append_nil_l in Hloop.
  destruct ex as [b| |].
  - pose proof (epilogue_keeps command a Hk b st2) as He. unfold ledger in He.
    unfold bind, ret.
    destruct (epilogue command b st2) as [[r st3] t3].
    cbn [fst snd] in He |- *.
    rewrite app_nil_r, !booked_app, !append_assoc, He, Hloop. reflexivity.
  - unfold ret. cbn [fst snd].
    rewrite app_nil_r, booked_app, append_assoc, Hloop. reflexivity.
  - unfold ret. cbn [fst snd].
    rewrite app_nil_r, booked_app, append_assoc, Hloop. reflexivity.
Qed.

Lemma prologue_booked (command : KACommand) (w : World) (newpid : Z)
    (st : KAThread) (a : Account) :
  booked a (snd (prologue command w newpid st))
  = match a with
    | SentErr => if fst (fst (prologue command w newpid st)) then checkTexts w else ""
    | _ => ""
    end.
Proof.
  destruct (prologue_parts command w newpid st) as (p & _ & [H|H]); rewrite H;
    cbn [fst snd].
  - destruct a; reflexivity.
  - unfold checksTrace, checkTexts.
    destruct a, (cwdOk w), (found (ids w)); reflexivity.
Qed.

(** After the drain nothing is held by the thread. *)
Lemma epilogue_drained (command : KACommand) (EXECTIMEOUT : bool) (st : KAThread) :
  EXECTIMEOUT = true \/ bothZero st = true ->
  outBuff (snd (fst (epilogue command EXECTIMEOUT st))) = "" /\
  errBuff (snd (fst (epilogue command EXECTIMEOUT st))) = "".
Proof.
  intro Hrun.
  pose proof (lastCheckAndSend_frame command st) as Hf.
  unfold epilogue, timeoutDone, executeDone, bind, when, get, emit, ret.
  destruct EXECTIMEOUT; cbn -[lastCheckAndSend Z.eqb]; fold (bothZero st).
  - destruct (lastCheckAndSend command st) as [[[] s1] d1] eqn:Hd.
    cbn [fst snd] in Hf.
    destruct Hf as (_ & _ & _ & _ & Hos & Hes & _ & Hob & Heb).
    assert (Hbz : bothZero s1 = bothZero st) by (unfold bothZero; now rewrite Hos, Hes).
    destruct (processpid s1 =? 0); cbn -[lastCheckAndSend Z.eqb];
      fold (bothZero s1); rewrite Hbz; destruct (bothZero st);
      cbn -[lastCheckAndSend Z.eqb];
      rewrite ?(lastCheckAndSend_empty command s1 Hob Heb); cbn; auto.
  - destruct Hrun as [Hrun|Hrun]; [discriminate|]. rewrite Hrun.
    destruct (lastCheckAndSend command st) as [[[] s1] d1] eqn:Hd.
    cbn [fst snd] in Hf. cbn. tauto.
Qed.

Lemma progress_no_terminal (l : list Message) :
  Forall (fun m => isProgress m = true) l ->
  ~ Exists (fun m => isTerminal m = true) l.
Proof.
  intros Hall Hex. apply progress_not_terminal in Hall.
  rewrite Forall_forall in Hall. rewrite Exists_exists in Hex.
  destruct Hex as (m & Hin & Hm). rewrite (Hall m Hin) in Hm. discriminate.
Qed.

Lemma terminal_drained (command : KACommand) (w : World) (newpid : Z)
    (st : KAThread) :
  let run := optionReadSend command w newpid st in
  Exists (fun m => isTerminal m = true) (sent (snd run)) ->
  outBuff (snd (fst run)) = "" /\ errBuff (snd (fst run)) = "".
Proof.
  cbn zeta.
  destruct (optionReadSend_parts command w newpid st)
    as (p & _ & [H | (ex & st2 & t2 & Hm & Hex)]).
  { rewrite H. cbn. intro Hx. inversion Hx. }
  pose proof (checksTrace_sent command w p) as Hchecks.
  destruct (multiplex_effects command (ticks w) (execTimer command w)
              (heartReset (clockStartHeart w)) (afterChecks w p st) Logic.I)
    as [_ Hloop].
  rewrite Hm in Hloop. cbn [snd] in Hloop.
  apply loopEffect_sent in Hloop. destruct Hloop as [Hprog _].
  assert (Hnone : ~ Exists (fun m => isTerminal m = true)
                      (sent (checksTrace command w p ++ t2))).
  { apply progress_no_terminal. rewrite sent_app. apply Forall_app. auto. }
  destruct ex as [b| |].
  - destruct Hex as (r & st3 & t3 & He & ->). cbn [fst snd]. intro Hx.
    pose proof (epilogue_drained command b st2) as Hd.
    rewrite He in Hd. cbn [fst snd] in Hd. apply Hd.
    destruct b; [left; reflexivity|]. right.
    destruct (bothZero st2) eqn:Hbz; [reflexivity|]. exfalso. apply Hnone.
    destruct (epilogue_trace command false st2)
      as (d1 & d2 & T & X & _ & _ & _ & _ & _ & _ & _ & Ht3).
    rewrite He, Hbz in Ht3. cbn [snd app] in Ht3. subst t3.
    now rewrite !app_nil_r in Hx.
  - rewrite Hex. cbn [fst snd]. intro Hx. contradiction.
  - rewrite Hex. cbn [fst snd]. intro Hx. contradiction.
Qed.

(** X12.  No byte of a returned stream is lost or sent twice. For a stream
    whose mode returns, the payloads of all the messages of a run, one after
    the other, followed by what the thread and the reader still hold at its
    end, are exactly what the turns of the loop have read from the pipe, in
    order (for stderr, after the texts of the failed checks); and once a
    Timeout or an Exit message has been sent the thread holds nothing. *)
Theorem returned_bytes_are_sent_once (command : KACommand) (w : World)
    (newpid : Z) (st : KAThread)
    (Hreaders : readersOf command st)
    (Hheld : nothingHeld st) :
  let run := optionReadSend command w newpid st in
  let st' := snd (fst run) in
  exists turns rest,
    ticks w = turns ++ rest /\
    (isReturn (getStandardOutput command) = true ->
       (stdOutOf (snd run) ++ outBuff st' ++ buffer (outputStream st'))%string
       = joined (map outTaken turns)) /\
    (isReturn (getStandardError command) = true ->
       (stdErrOf (snd run) ++ errBuff st' ++ buffer (errorStream st'))%string
       = ((if fst (fst (prologue command w newpid st)) then checkTexts w else "")
          ++ joined (map errTaken turns))%string) /\
    (Exists (fun m => isTerminal m = true) (sent (snd run)) ->
       outBuff st' = "" /\ errBuff st' = "").
Proof.
  cbn zeta.
  destruct (optionReadSend_ledger command w newpid st Hreaders Hheld)
    as (turns & rest & Hticks & Hledger).
  exists turns, rest. split; [exact Hticks|].
  assert (Hopen : forall a, opened a = (fun _ => True) -> Forall (opened a) turns).
  { intros a ->. apply Forall_forall. intros; exact Logic.I. }
  split; [|split].
  - intro Hk. specialize (Hledger SentOut Hk (Hopen SentOut eq_refl)).
    rewrite prologue_booked in Hledger. exact Hledger.
  - intro Hk. specialize (Hledger SentErr Hk (Hopen SentErr eq_refl)).
    rewrite prologue_booked in Hledger. exact Hledger.
  - apply terminal_drained.
Qed.

Lemma returned_bytes_are_sent_once_witness :
  let run := optionReadSend echoCommand burstWorld 100 (workerThread echoCommand) in
  exists turns rest,
    ticks burstWorld = turns ++ rest /\
    (stdOutOf (snd run) ++ outBuff (snd (fst run))
     ++ buffer (outputStream (snd (fst run))))%string
    = joined (map outTaken turns).
Proof.
  intro run.
  destruct (returned_bytes_are_sent_once echoCommand burstWorld 100
              (workerThread echoCommand))
    as (turns & rest & Hticks & Hout & _).
  - repeat split.
  - repeat split.
  - exists turns, rest. split; [exact Hticks | apply Hout; reflexivity].
Defined.

(** *** The capture files *)

Lemma noAppend_capture (command : KACommand) (e : Effect) :
  noAppend e -> captureEffect command e.
Proof. destruct e; cbn; auto. contradiction. Qed.

Section Capture.

Variable command : KACommand.

Ltac capture_leaf :=
  first [ exact Logic.I
        | (intros ? (? & ? & ? & ?); repeat split; cbn; assumption) ].

Lemma heartStep_capture (k : Tick) (heart : Timer) :
  preserves (readersOf command) (captureEffect command) (heartStep command k heart).
Proof.
  unfold heartStep, heartbeat, sendCurrent, countUp, clearout, clearerr.
  pres; capture_leaf.
Qed.

Lemma lastCheckAndSend_capture :
  preserves (readersOf command) (captureEffect command) (lastCheckAndSend command).
Proof.
  unfold lastCheckAndSend, sendBuffers, sendCurrent, countUp, clearout, clearerr.
  pres; capture_leaf.
Qed.

Lemma checkAndWrite_capture (outOpen errOpen : bool) :
  preserves (readersOf command) (captureEffect command)
    (checkAndWrite command outOpen errOpen).
Proof.
  intros st Hr. split; [apply (checkAndWrite_readers command outOpen errOpen st Hr)|].
  rewrite checkAndWrite_parts. cbn [snd]. apply Forall_app. split.
  - destruct Hr as (Hmo & Hme & Hio & Hie). unfold captures.
    rewrite Hmo, Hme, Hio, Hie.
    destruct (isCapture (getStandardOutput command)) eqn:Ho, outOpen,
      (isCapture (getStandardError command)) eqn:He, errOpen;
      cbn;
      repeat match goal with
        | |- Forall _ (_ :: _) => apply Forall_cons
        | |- Forall _ [] => apply Forall_nil
        end;
      cbn; rewrite ?Ho, ?He;
      first [left; split; reflexivity | right; split; reflexivity].
  - destruct (fragment_noAppend command (gathered st) Logic.I) as [_ Hno].
    revert Hno. apply Forall_impl. apply noAppend_capture.
Qed.

Lemma multiplex_capture (ticks : list Tick) :
  forall exec heart,
    preserves (readersOf command) (captureEffect command)
      (multiplex command ticks exec heart).
Proof.
  induction ticks as [|k rest IH]; intros exec heart; cbn [multiplex].
  - apply preserves_ret.
  - unfold select, readOutput, readError.
    pres;
      first [ apply IH | apply heartStep_capture | apply checkAndWrite_capture
            | capture_leaf ].
Qed.

Lemma epilogue_capture (EXECTIMEOUT : bool) :
  preserves (readersOf command) (captureEffect command)
    (epilogue command EXECTIMEOUT).
Proof.
  unfold epilogue, timeoutDone, executeDone.
  pres; first [apply lastCheckAndSend_capture | capture_leaf].
Qed.

End Capture.

Lemma checksTrace_capture (command : KACommand) (w : World) (p : Z) :
  Forall (captureEffect command) (checksTrace command w p).
Proof.
  unfold checksTrace. destruct (cwdOk w), (found (ids w)); repeat constructor.
Qed.

(** X13.  No byte of a captured stream is lost or written twice, and no
    other stream is written. For a stream whose mode captures, what a run
    appends to the capture file of its reader, followed by what the reader
    still holds at the end, is exactly what the turns of the loop have read
    from the pipe, in order, as long as the file could be opened in each of
    these turns; and a capture file is only ever appended to for a stream
    whose mode captures. *)
Theorem captured_bytes_are_written_once (command : KACommand) (w : World)
    (newpid : Z) (st : KAThread)
    (Hreaders : readersOf command st)
    (Hheld : nothingHeld st) :
  let run := optionReadSend command w newpid st in
  let st' := snd (fst run) in
  (exists turns rest,
     ticks w = turns ++ rest /\
     (isCapture (getStandardOutput command) = true ->
      Forall (fun k => outOpen k = true) turns ->
        (writtenTo "output" (snd run) ++ buffer (outputStream st'))%string
        = joined (map outTaken turns)) /\
     (isCapture (getStandardError command) = true ->
      Forall (fun k => errOpen k = true) turns ->
        (writtenTo "error" (snd run) ++ buffer (errorStream st'))%string
        = joined (map errTaken turns))) /\
  Forall (captureEffect command) (snd run).
Proof.
  cbn zeta. split.
  - destruct (optionReadSend_ledger command w newpid st Hreaders Hheld)
      as (turns & rest & Hticks & Hledger).
    exists turns, rest. split; [exact Hticks|]. split.
    + intros Hk Hopen. specialize (Hledger FileOut Hk Hopen).
      rewrite prologue_booked in Hledger. exact Hledger.
    + intros Hk Hopen. specialize (Hledger FileErr Hk Hopen).
      rewrite prologue_booked in Hledger. exact Hledger.
  - destruct (optionReadSend_parts command w newpid st)
      as (p & _ & [H | (ex & st2 & t2 & Hm & Hex)]).
    { rewrite H. constructor. }
    pose proof (checksTrace_capture command w p) as Hchecks.
    destruct (multiplex_capture command (ticks w) (execTimer command w)
                (heartReset (clockStartHeart w)) (afterChecks w p st)
                (afterChecks_readers command w p st Hreaders)) as [Hr2 Hloop].
    rewrite Hm in Hr2, Hloop. cbn [fst snd] in Hr2, Hloop.
    destruct ex as [b| |].
    + destruct Hex as (r & st3 & t3 & He & ->). cbn [snd].
      destruct (epilogue_capture command b st2 Hr2) as [_ Hep].
      rewrite He in Hep. cbn [snd] in Hep.
      rewrite !Forall_app. auto.
    + rewrite Hex. cbn [snd]. apply Forall_app. auto.
    + rewrite Hex. cbn [snd]. apply Forall_app. auto.
Qed.

Lemma captured_bytes_are_written_once_witness :
  let command := withModes "CAPTURE_AND_RETURN" "NO" echoCommand in
  let run := optionReadSend command burstWorld 100 (workerThread command) in
  exists turns rest,
    ticks burstWorld = turns ++ rest /\
    (Forall (fun k => outOpen k = true) turns ->
     (writtenTo "output" (snd run) ++ buffer (outputStream (snd (fst run))))%string
     = joined (map outTaken turns)).
Proof.
  intros command run.
  destruct (captured_bytes_are_written_once command burstWorld 100
              (workerThread command))
    as [(turns & rest & Hticks & Hout & _) _].
  - repeat split.
  - repeat split.
  - exists turns, rest. split; [exact Hticks | apply Hout; reflexivity].
Defined.

(** ** The timeout and the clock *)

(** The turn in which the loop is left by the timeout: the execution timer
    was polled once in every turn before it, and in that turn it fired. *)
Lemma multiplex_timeout_turn (command : KACommand) (ticks : list Tick) :
  forall exec heart st,
    fst (fst (multiplex command ticks exec heart st)) = Break true ->
    exists pre k post,
      ticks = pre ++ k :: post /\
      fst (checkExecutionTimeout (secExec k) (pollTimer (map secExec pre) exec)) = true.
Proof.
  induction ticks as [|k rest IH]; intros exec heart st.
  { cbn. discriminate. }
  rewrite multiplex_turn. cbn zeta.
  destruct (fst (checkExecutionTimeout (secExec k) exec)) eqn:Hfired.
  { intros _. exists [], k, rest. split; [reflexivity | exact Hfired]. }
  destruct (heartStep command k heart (selected k st)) as [[heart1 st2] t2].
  destruct ((outSelect k =? -1) || (errSelect k =? -1)); [cbn; discriminate|].
  destruct ((readResult (outputStream (afterReads k st2)) >? 0)
            || (readResult (errorStream (afterReads k st2)) >? 0));
    [|cbn; discriminate].
  destruct (checkAndWrite command (outOpen k) (errOpen k) (afterReads k st2))
    as [[[] st4] t4].
  specialize (IH (snd (checkExecutionTimeout (secExec k) exec)) heart1 st4).
  destruct (multiplex command rest (snd (checkExecutionTimeout (secExec k) exec))
              heart1 st4) as [[ex st5] t5].
  cbn [fst snd] in IH |- *. intro Hex.
  destruct (IH Hex) as (pre & k' & post & -> & Hk).
  exists (k :: pre), k', post. split; [reflexivity | exact Hk].
Qed.

Lemma nondecreasing_prefix (a b : list Z) :
  forall from, nondecreasing from (a ++ b) -> nondecreasing from a.
Proof.
  induction a as [|x a IH]; intros from H; [exact Logic.I|].
  cbn [app nondecreasing] in *. destruct H as [Hx H]. split; [exact Hx | eauto].
Qed.

Lemma nondecreasing_upto (a : list Z) (T : Z) (b : list Z) :
  forall from, nondecreasing from (a ++ T :: b) -> nondecreasing from (a ++ [T]).
Proof.
  intros from H.
  replace (a ++ T :: b) with ((a ++ [T]) ++ b) in H
    by (rewrite <- app_assoc; reflexivity).
  now apply nondecreasing_prefix in H.
Qed.

(** X14.  The timeout never comes early.  When the clock of the turns shows
    the seconds of times that do not go back, a run hands a Timeout message
    to the queue only in a turn in which at least as many seconds have
    passed since the execution timer was started as the timeout of the
    command says (taken modulo 2^32). *)
Theorem timeout_never_early (command : KACommand) (w : World) (newpid : Z)
    (st : KAThread) (T0 : Z) (times : list Z)
    (Hstart : clockStart w = secondOf T0)
    (Hclock : map secExec (ticks w) = map secondOf times)
    (Hnd : nondecreasing T0 times)
    (Hsent : Exists (fun m => isTimeout m = true)
               (sent (snd (optionReadSend command w newpid st)))) :
  exists T, In T times /\ wrap32 (getTimeout command) <= T - T0.
Proof.
  destruct (optionReadSend_parts command w newpid st)
    as (p & _ & [H | (ex & st2 & t2 & Hm & Hex)]).
  { rewrite H in Hsent. inversion Hsent. }
  pose proof (checksTrace_noTimeout command w p) as Hchecks.
  destruct (multiplex_effects command (ticks w) (execTimer command w)
              (heartReset (clockStartHeart w)) (afterChecks w p st) Logic.I)
    as [_ Hloop].
  rewrite Hm in Hloop. cbn [snd] in Hloop.
  apply (Forall_impl _ loopEffect_noTimeout) in Hloop.
  assert (Hno : forall tr, Forall noTimeout tr ->
                  ~ Exists (fun m => isTimeout m = true) (sent tr)).
  { intros tr Hall Hx. induction Hall as [|e tr He _ IH]; [inversion Hx|].
    destruct e; cbn in He, Hx; auto.
    inversion Hx; subst; [congruence | auto]. }
  assert (Hbreak : ex = Break true).
  { destruct ex as [[|]| |]; [reflexivity | | |]; exfalso.
    - destruct Hex as (r & st3 & t3 & He & Heq). rewrite Heq in Hsent.
      cbn [snd] in Hsent. revert Hsent. apply Hno.
      destruct (epilogue_trace command false st2)
        as (d1 & d2 & T & X & _ & Hd2 & _ & HX & _ & _ & _ & Ht3).
      rewrite He in Ht3. cbn [snd app] in Ht3. subst t3.
      rewrite !Forall_app. repeat split; try assumption.
      destruct (bothZero st2); [|constructor].
      apply Forall_app. split.
      + revert Hd2. apply Forall_impl. exact loopEffect_noTimeout.
      + repeat constructor. cbn. now apply exit_not_timeout.
    - rewrite Hex in Hsent. cbn [snd] in Hsent. revert Hsent. apply Hno.
      apply Forall_app. auto.
    - rewrite Hex in Hsent. cbn [snd] in Hsent. revert Hsent. apply Hno.
      apply Forall_app. auto. }
  subst ex.
  destruct (multiplex_timeout_turn command (ticks w) (execTimer command w)
              (heartReset (clockStartHeart w)) (afterChecks w p st))
    as (pre & k & post & Hticks & Hfired).
  { now rewrite Hm. }
  rewrite Hticks, map_app in Hclock. cbn [map] in Hclock. symmetry in Hclock.
  apply map_eq_app in Hclock. destruct Hclock as (tpre & trest & -> & Hpre & Hrest).
  apply map_eq_cons in Hrest. destruct Hrest as (T & tpost & -> & HT & _).
  exists T. split; [apply in_or_app; right; left; reflexivity|].
  assert (Htimer : execTimer command w = startTimer (wrap32 (getTimeout command)) T0)
    by (unfold execTimer, startTimer; now rewrite Hstart).
  rewrite Htimer, <- Hpre, <- HT in Hfired.
  destruct (pollTimer_behind (wrap32 (getTimeout command)) T0 tpre T
              (nondecreasing_upto tpre T tpost T0 Hnd)) as [Hbound Hlimit].
  apply checkExecutionTimeout_fired in Hfired. rewrite Hlimit in Hfired. lia.
Qed.

Lemma timeout_never_early_witness :
  let command := withModes "RETURN" "RETURN" echoCommand in
  let w := sampleWorld true rootIds (map quiet [0; 1; 3; 5; 6]) in
  Exists (fun m => isTimeout m = true)
    (sent (snd (optionReadSend command w 100 (workerThread command)))) /\
  exists T, In T [120; 121; 123; 125; 126]
            /\ wrap32 (getTimeout command) <= T - 120.
Proof.
  intros command w.
  assert (Hsent : Exists (fun m => isTimeout m = true)
                    (sent (snd (optionReadSend command w 100 (workerThread command))))).
  { vm_compute. apply Exists_cons_hd. reflexivity. }
  split; [exact Hsent|].
  apply (timeout_never_early command w 100 (workerThread command) 120
           [120; 121; 123; 125; 126]).
  - reflexivity.
  - reflexivity.
  - cbn. lia.
  - exact Hsent.
Defined.

(** ** The processes of threadFunction *)

Lemma innerChild_run (command : KACommand) (s : Spawn) (st : KAThread) :
  let r := innerChild command s st in
  sent (snd r) = [] /\
  fst (fst r) = (if childCwdOk s && found (childIds s) then Exited 0 else Killed) /\
  kills (snd r) = (if childCwdOk s && found (childIds s) then [] else [selfPid s]) /\
  commands (snd r)
  = (if childCwdOk s && found (childIds s)
     then [Str.c_str (environment st ++ exportText (getEnvironment command)
                      ++ getProgram command ++ " "
                      ++ argument st ++ argumentText (getArguments command))%string]
     else []).
Proof.
  cbn zeta.
  unfold innerChild, checkCWD, checkUID, bind, emit, modify, get, ret.
  destruct (childCwdOk s); cbn -[createExecString]; [|repeat split].
  destruct (found (childIds s)); cbn -[createExecString]; [|repeat split].
  match goal with
  | |- context [createExecString command ?x] =>
      pose proof (createExecString_call command x) as Hx;
      destruct (createExecString command x) as [[e st1] t1]
  end.
  cbn [argument environment setEuid setRuid] in Hx.
  destruct Hx as (Ha & He & -> & ->). rewrite Ha, He. cbn.
  repeat split. now rewrite !append_assoc.
Qed.

(** X15.  Of the three processes a call of [threadFunction] ends in, only
    one talks to the queue: the process in which the first fork answered 0
    and the second a pid.  Neither the caller (first fork not 0), nor the
    process of a failed second fork, nor the inner child hands a message to
    the queue. *)
Theorem only_the_worker_sends (command : KACommand) (s : Spawn) (st : KAThread)
    (Hother : forkPid s <> 0 \/ forkNewpid s = 0 \/ forkNewpid s = -1) :
  sent (snd (threadFunction command s st)) = [].
Proof.
  unfold threadFunction, bind, emit.
  destruct (forkPid s =? 0) eqn:Hf.
  - apply Z.eqb_eq in Hf.
    destruct Hother as [H|H]; [contradiction|].
    unfold modify, when, ret, emit.
    destruct (negb (outPipe s) || negb (errPipe s)); cbn -[innerChild outerParent];
      destruct H as [H|H]; rewrite H; cbn -[innerChild];
      try reflexivity;
      match goal with
      | |- context [innerChild command s ?x] =>
          pose proof (innerChild_run command s x) as [Hs _];
          destruct (innerChild command s x) as [[o st1] t1]
      end; cbn [snd] in Hs |- *; exact Hs.
  - unfold ret.
    destruct (forkPid s =? -1); cbn; [reflexivity|].
    destruct (forkPid s >? 0); reflexivity.
Qed.

Lemma only_the_worker_sends_witness :
  sent (snd (threadFunction echoCommand (innerChildOf (sampleWorld true rootIds []))
               newThread)) = [].
Proof.
  apply (only_the_worker_sends echoCommand (innerChildOf (sampleWorld true rootIds []))
           newThread).
  right. left. reflexivity.
Defined.

(** X16.  The inner child gives the shell one command, and only after both
    checks have passed.  On a thread that has built no command yet the
    command is made of the export fragments of the environment, the program,
    a blank, and the arguments with a blank after each; the shell is given
    its [c_str()], the characters before the first NUL.  The child then ends
    with [exit(0)], whatever the command did.  After a failed check it runs
    nothing and sends SIGKILL to itself. *)
Theorem innerChild_command (command : KACommand) (s : Spawn) (st : KAThread)
    (Hargument : argument st = "")
    (Henvironment : environment st = "") :
  let r := innerChild command s st in
  if childCwdOk s && found (childIds s)
  then fst (fst r) = Exited 0 /\
       kills (snd r) = [] /\
       commands (snd r)
       = [Str.c_str (exportText (getEnvironment command) ++ getProgram command ++ " "
                     ++ argumentText (getArguments command))%string]
  else fst (fst r) = Killed /\
       kills (snd r) = [selfPid s] /\
       commands (snd r) = [].
Proof.
  cbn zeta.
  destruct (innerChild_run command s st) as (_ & Ho & Hk & Hc).
  rewrite Hargument, Henvironment in Hc.
  destruct (childCwdOk s && found (childIds s)); auto.
Qed.

Lemma innerChild_command_witness :
  commands (snd (innerChild echoCommand (innerChildOf (sampleWorld true rootIds []))
                   newThread))
  = [" export LANG=C && echo hi "]%string.
Proof.
  exact (proj2 (proj2 (innerChild_command echoCommand
                         (innerChildOf (sampleWorld true rootIds [])) newThread
                         eq_refl eq_refl))).
Defined.

(** ** The drain and the heartbeat *)

(** X17.  [lastCheckAndSend] leaves both buffers empty, whatever the modes,
    and a second call right after it does nothing: no message, no change. *)
Theorem lastCheckAndSend_twice (command : KACommand) (st : KAThread) :
  let st1 := snd (fst (lastCheckAndSend command st)) in
  outBuff st1 = "" /\ errBuff st1 = "" /\
  lastCheckAndSend command st1 = (tt, st1, []) /\
  (List.length (sent (snd (lastCheckAndSend command st))) <= 1)%nat.
Proof.
  cbn zeta.
  destruct (lastCheckAndSend_frame command st)
    as (_ & _ & _ & _ & _ & _ & _ & Hob & Heb).
  split; [exact Hob|]. split; [exact Heb|].
  split; [apply lastCheckAndSend_empty; assumption|].
  unfold lastCheckAndSend, sendBuffers, sendCurrent, countUp, clearout, clearerr,
    bind, modify, get, emit, ret.
  cbn. branches; cbn; lia.
Qed.


(** ** Packets without a payload *)

Lemma captures_sent (outOpen errOpen : bool) (st : KAThread) :
  sent (captures outOpen errOpen st) = [].
Proof.
  unfold captures.
  destruct (isCapture (mode (outputStream st)) && outOpen),
    (isCapture (mode (errorStream st)) && errOpen); reflexivity.
Qed.



(** * The identity, the terminal message and the packets of a run *)

(** ** C8: the calls that change the identity *)

Lemma loopEffect_identity (tr : list Effect) :
  Forall loopEffect tr -> filter isIdentity tr = [].
Proof.
  induction 1 as [|e tr He _ IH]; [reflexivity|].
  destruct e; cbn in He |- *; try contradiction; exact IH.
Qed.

Lemma multiplex_identity (command : KACommand) (ticks : list Tick)
    (exec heart : Timer) (st : KAThread) :
  filter isIdentity (snd (multiplex command ticks exec heart st)) = [].
Proof.
  apply loopEffect_identity.
  apply (multiplex_effects command ticks exec heart st Logic.I).
Qed.

Lemma epilogue_identity (command : KACommand) (EXECTIMEOUT : bool) (st : KAThread) :
  filter isIdentity (snd (epilogue command EXECTIMEOUT st)) = [].
Proof.
  destruct (epilogue_trace command EXECTIMEOUT st)
    as (d1 & d2 & T & X & H1 & H2 & _ & _ & _ & _ & _ & ->).
  apply loopEffect_identity in H1, H2.
  destruct EXECTIMEOUT, (bothZero st), (timedOut T);
    rewrite ?filter_app; cbn [filter isIdentity app];
    rewrite ?filter_app, ?H1, ?H2; reflexivity.
Qed.

Lemma checksTrace_identity (command : KACommand) (w : World) (p : Z) :
  filter isIdentity (checksTrace command w p)
  = [if found (ids w) then doSetuid (effectiveId (ids w))
     else undoSetuid (realId (ids w))].
Proof. unfold checksTrace. destruct (cwdOk w), (found (ids w)); reflexivity. Qed.

(** C8, as the code has it.  In the inner child [doSetuid] is called once,
    after the working directory check and before the command is given to the
    shell; when a check fails there the shell is not reached and [doSetuid]
    is not called, and the only call that touches the identity is
    [undoSetuid(ruid)] of a user that was not found.  In the parent,
    [optionReadSend] calls [checkUID] as well: a run that returns has changed
    the identity exactly once, by [doSetuid(euid)] when the user exists and
    by [undoSetuid(ruid)] when it does not; the loop and the statements
    after it call neither, whatever the state they start in. *)
Theorem doSetuid_call_sites :
  (forall command s st,
     childCwdOk s = true -> found (childIds s) = true ->
     exists cmd,
       snd (innerChild command s st) =
         [ writeLog 6 "<KAThread::threadFunction> New Child Process is starting for pipes";
           chdir (Str.c_str (getWorkingDirectory command));
           doSetuid (effectiveId (childIds s));
           writeLog 6 "<KAThread::threadFunction> Execution is starting!!";
           system cmd;
           writeLog 6 "<KAThread::threadFunction> Execution is done!!" ]) /\
  (forall command s st,
     childCwdOk s = false \/ found (childIds s) = false ->
     fst (fst (innerChild command s st)) = Killed /\
     existsb isSystem (snd (innerChild command s st)) = false /\
     existsb isSetuid (snd (innerChild command s st)) = false /\
     filter isIdentity (snd (innerChild command s st))
     = if childCwdOk s then [undoSetuid (realId (childIds s))] else []) /\
  (forall command w newpid st st' r tr,
     optionReadSend command w newpid st = (Some r, st', tr) ->
     filter isSetuid tr
     = (if found (ids w) then [doSetuid (effectiveId (ids w))] else []) /\
     filter isIdentity tr
     = [if found (ids w) then doSetuid (effectiveId (ids w))
        else undoSetuid (realId (ids w))]) /\
  (forall command ticks exec heart st,
     filter isIdentity (snd (multiplex command ticks exec heart st)) = []) /\
  (forall command EXECTIMEOUT st,
     filter isIdentity (snd (epilogue command EXECTIMEOUT st)) = []).
Proof.
  split; [|split; [|split; [|split]]].
  - intros command s st Hc Hu.
    unfold innerChild, checkCWD, checkUID, bind, emit, modify, get, ret.
    rewrite Hc, Hu. cbn -[createExecString].
    match goal with
    | |- context [createExecString command ?x] =>
        pose proof (createExecString_call command x) as Hx;
        destruct (createExecString command x) as [[e st1] t1]
    end.
    destruct Hx as (_ & _ & _ & ->). cbn. exists (Str.c_str e). reflexivity.
  - intros command s st Hfail.
    unfold innerChild, checkCWD, checkUID, bind, emit, modify, get, ret.
    destruct (childCwdOk s); cbn; [|auto].
    destruct (found (childIds s)); cbn; [|auto].
    destruct Hfail; discriminate.
  - intros command w newpid st st' r tr Hrun.
    apply optionReadSend_returns in Hrun.
    destruct Hrun as (p & ex & st2 & t2 & Hm & Hcase).
    pose proof (multiplex_identity command (ticks w) (execTimer command w)
                  (heartReset (clockStartHeart w)) (afterChecks w p st)) as Hid.
    destruct (multiplex_effects command (ticks w) (execTimer command w)
                (heartReset (clockStartHeart w)) (afterChecks w p st) Logic.I)
      as [_ Heff].
    rewrite Hm in Heff, Hid. cbn [snd] in Heff, Hid.
    apply loopEffect_sent in Heff. destruct Heff as [_ Hloop].
    apply filter_none in Hloop.
    assert (Hchecks : filter isSetuid (checksTrace command w p) =
                      if found (ids w) then [doSetuid (effectiveId (ids w))] else []).
    { unfold checksTrace. destruct (cwdOk w), (found (ids w)); reflexivity. }
    pose proof (checksTrace_identity command w p) as Hcid.
    destruct Hcase as [(_ & _ & _ & ->) | (b & t3 & _ & He & ->)].
    + rewrite !filter_app, Hchecks, Hloop, Hcid, Hid. split; apply app_nil_r.
    + pose proof (epilogue_run command b st2) as Hrun.
      pose proof (epilogue_identity command b st2) as Heid.
      rewrite He in Hrun, Heid. cbn [snd] in Heid.
      destruct Hrun as (_ & _ & _ & _ & _ & _ & _ & Hnos & _).
      apply filter_none in Hnos.
      rewrite !filter_app, Hchecks, Hloop, Hnos, Hcid, Hid, Heid.
      split; apply app_nil_r.
  - intros. apply multiplex_identity.
  - intros. apply epilogue_identity.
Qed.

(** C8 fails as worded: the parent of the inner fork calls [doSetuid] when
    the user exists. *)
Lemma doSetuid_call_sites_counterexample :
  let '(_, _, tr) :=
    threadFunction echoCommand
      (outerParentOf true (sampleWorld true rootIds [output 0 "hi"; eof 0]))
      newThread in
  filter isSetuid tr = [doSetuid 0] /\ existsb isSystem tr = false /\
  In (fork 100) tr.
Proof. vm_compute. repeat split; auto. Qed.

Lemma doSetuid_call_sites_witness :
  let run := optionReadSend (withRunAs "nosuchuser" echoCommand)
               (sampleWorld true noIds [output 0 "hi"; eof 0]) 100
               (workerThread (withRunAs "nosuchuser" echoCommand)) in
  filter isSetuid (snd run) = [] /\
  filter isIdentity (snd run) = [undoSetuid 1000].
Proof.
  intro run.
  assert (Hrun : run = (Some 1, snd (fst run), snd run)) by (vm_compute; reflexivity).
  exact (proj1 (proj2 (proj2 doSetuid_call_sites))
           (withRunAs "nosuchuser" echoCommand) _ 100 _ _ _ _ Hrun).
Defined.

(** ** C2: the terminal message and the turn the loop is left in *)

(** The turn in which the loop is left: the ticks before it do not end the
    loop, and the answer of [checkExecutionTimeout] in that turn is the
    [EXECTIMEOUT] the loop is left with. *)
Lemma multiplex_last_turn (command : KACommand) (ticks : list Tick) :
  forall exec heart st b,
    fst (fst (multiplex command ticks exec heart st)) = Break b ->
    exists before k after,
      ticks = before ++ k :: after /\
      fst (fst (multiplex command before exec heart st)) = Pending /\
      fst (checkExecutionTimeout (secExec k) (pollTimer (map secExec before) exec)) = b.
Proof.
  induction ticks as [|k rest IH]; intros exec heart st b.
  { cbn. discriminate. }
  rewrite multiplex_turn. cbn zeta.
  destruct (fst (checkExecutionTimeout (secExec k) exec)) eqn:Hfired.
  { cbn [fst]. intro Hb. inversion Hb; subst b.
    exists [], k, rest. repeat split; auto. }
  destruct (heartStep command k heart (selected k st)) as [[heart1 st2] t2] eqn:Hheart.
  destruct ((outSelect k =? -1) || (errSelect k =? -1)) eqn:Hsel; [cbn; discriminate|].
  destruct ((readResult (outputStream (afterReads k st2)) >? 0)
            || (readResult (errorStream (afterReads k st2)) >? 0)) eqn:Hreads.
  - destruct (checkAndWrite command (outOpen k) (errOpen k) (afterReads k st2))
      as [[[] st4] t4] eqn:Hwrite.
    specialize (IH (snd (checkExecutionTimeout (secExec k) exec)) heart1 st4 b).
    destruct (multiplex command rest (snd (checkExecutionTimeout (secExec k) exec))
                heart1 st4) as [[ex st5] t5].
    cbn [fst snd] in IH |- *. intro Hex.
    destruct (IH Hex) as (before & k' & after & -> & Hpending & Hk).
    exists (k :: before), k', after. split; [reflexivity|]. split; [|exact Hk].
    rewrite multiplex_turn. cbn zeta.
    rewrite Hfired, Hheart, Hsel, Hreads, Hwrite.
    destruct (multiplex command before (snd (checkExecutionTimeout (secExec k) exec))
                heart1 st4) as [[ex' st5'] t5'].
    exact Hpending.
  - cbn [fst]. intro Hb. inversion Hb; subst b.
    exists [], k, rest. repeat split; auto.
Qed.

Lemma nonterminal_timeout (l : list Message) :
  Forall (fun m => isTerminal m = false) l ->
  existsb isTimeout l = false /\ existsb isExit l = false.
Proof.
  induction 1 as [|m l Hm _ [IH1 IH2]]; [split; reflexivity|].
  unfold isTerminal in Hm. apply orb_false_iff in Hm. destruct Hm as [Ht Hx].
  cbn [existsb]. rewrite Ht, Hx, IH1, IH2. split; reflexivity.
Qed.

Lemma timeout_not_exit (m : Message) : isTimeout m = true -> isExit m = false.
Proof. destruct m; cbn; congruence. Qed.

Lemma exit_is_not_timeout (m : Message) : isExit m = true -> isTimeout m = false.
Proof. destruct m; cbn; congruence. Qed.

(** The messages of a run that was not ended by a failed select, with the
    loop they come from. *)
Lemma optionReadSend_loop (command : KACommand) (w : World) (newpid : Z)
    (st st' : KAThread) (r : Z) (tr : list Effect) :
  optionReadSend command w newpid st = (Some r, st', tr) ->
  (r = -1 /\ Forall (fun m => isProgress m = true) (sent tr))
  \/
  (r = 1 /\
   exists p st2 t2 pre T X (EXECTIMEOUT : bool),
     multiplex command (ticks w) (execTimer command w)
       (heartReset (clockStartHeart w)) (afterChecks w p st)
     = (Break EXECTIMEOUT, st2, t2) /\
     Forall (fun m => isProgress m = true) pre /\
     isTimeout T = true /\ isExit X = true /\
     sent tr = pre ++ (if EXECTIMEOUT then [T] else [])
                   ++ (if bothZero st' then [X] else []) /\
     (EXECTIMEOUT = true ->
        wrap32 (getTimeout command) <> 0 /\
        (readsInv (readResult (outputStream st)) (readResult (errorStream st)) st'
         \/ 0 < readResult (outputStream st') \/ 0 < readResult (errorStream st'))) /\
     (EXECTIMEOUT = false ->
        readResult (outputStream st') <= 0 /\ readResult (errorStream st') <= 0)).
Proof.
  intro H. apply optionReadSend_returns in H.
  destruct H as (p & ex & st2 & t2 & Hm & Hcase).
  destruct (multiplex_effects command (ticks w) (execTimer command w)
              (heartReset (clockStartHeart w)) (afterChecks w p st) Logic.I)
    as [_ Heff].
  rewrite Hm in Heff. cbn [snd] in Heff.
  apply loopEffect_sent in Heff. destruct Heff as [Hprog _].
  pose proof (checksTrace_sent command w p) as Hchecks.
  destruct Hcase as [(-> & -> & -> & ->) | (b & t3 & -> & He & ->)].
  - left. split; [reflexivity|]. rewrite sent_app. apply Forall_app. auto.
  - right.
    destruct (afterChecks_streams w p st) as [Hso Hse].
    destruct (multiplex_break command (ticks w) (execTimer command w)
                (heartReset (clockStartHeart w))
                (readResult (outputStream st)) (readResult (errorStream st))
                (afterChecks w p st)) as [Hpost _].
    { unfold readsInv. now rewrite Hso, Hse. }
    rewrite Hm in Hpost. cbn [fst snd] in Hpost.
    pose proof (epilogue_run command b st2) as Hrun. rewrite He in Hrun.
    destruct Hrun as (-> & _ & _ & _ & _ & Hos & Hes & _ & pre & q & n & Hpre & Hsent).
    split; [reflexivity|].
    exists p, st2, t2, (sent (checksTrace command w p) ++ sent t2 ++ pre).
    exists (createTimeoutMessage (getUuid command) q
              (getRequestSequenceNumber command) n "" ""
              (getSource command) (getTaskUuid command)).
    exists (createExitMessage (getUuid command) q
              (getRequestSequenceNumber command) n
              (getSource command) (getTaskUuid command) (exitCodeOf st2)).
    exists b.
    assert (Hbz : bothZero st' = bothZero st2)
      by (unfold bothZero; now rewrite Hos, Hes).
    rewrite Hbz.
    split; [exact Hm|].
    split; [repeat (apply Forall_app; split); assumption|].
    split; [reflexivity|]. split; [reflexivity|].
    split.
    { rewrite !sent_app, Hsent, <- !app_assoc. reflexivity. }
    unfold readsInv. rewrite Hos, Hes.
    destruct b; split; intro Hb; try discriminate; exact Hpost.
Qed.




(** ** C4: the split at 1000 bytes *)

Lemma substring_all (n : nat) (s : string) :
  (String.length s <= n)%nat -> substring 0 n s = s.
Proof.
  revert n. induction s as [|c s IH]; intros n Hn.
  - destruct n; reflexivity.
  - destruct n as [|n]; [cbn in Hn; lia|]. cbn in Hn |- *. f_equal. apply IH. lia.
Qed.

Lemma substring_none (n : nat) (s : string) : substring n 0 s = "".
Proof.
  revert n. induction s as [|c s IH]; intros [|n]; cbn; auto.
Qed.

(** The packet and the overflow of a buffer are the buffer, cut after its
    first 1000 bytes. *)
Lemma packetOf_small (s : string) :
  Str.size s <= MaxBuffSize -> packetOf s = s /\ overflowOf s = "".
Proof.
  unfold packetOf, overflowOf, Str.substr, Str.size, MaxBuffSize. intro H. split.
  - apply substring_all. lia.
  - replace (Z.to_nat (Z.of_nat (String.length s) - 1000)) with 0%nat by lia.
    apply substring_none.
Qed.

Lemma packetOf_split (s : string) : (packetOf s ++ overflowOf s)%string = s.
Proof.
  destruct (Z_le_gt_dec (Str.size s) MaxBuffSize) as [H|H].
  - destruct (packetOf_small s H) as [-> ->]. apply append_nil_r.
  - apply substr_split. unfold MaxBuffSize in *. lia.
Qed.

Lemma packetOf_size (s : string) :
  Str.size (packetOf s) = Z.min MaxBuffSize (Str.size s).
Proof. apply substr_prefix_size. unfold MaxBuffSize. lia. Qed.

(** What [fragment] sends and keeps. *)
Lemma fragment_rule (command : KACommand) (st : KAThread) :
  let r := fragment command st in
  let st' := snd (fst r) in
  if (Str.size (outBuff st) >=? MaxBuffSize) || (Str.size (errBuff st) >=? MaxBuffSize)
  then
    sent (snd r)
    = (if returnsOutput st || negb (isSilent (getStandardError command))
       then [createResponseMessage (getUuid command) (processpid st)
               (getRequestSequenceNumber command) (responsecount st)
               (if isSilent (getStandardError command) then ""
                else packetOf (errBuff st))
               (if returnsOutput st then packetOf (outBuff st) else "")
               (getSource command) (getTaskUuid command)]
       else []) /\
    outBuff st' = overflowOf (outBuff st) /\
    errBuff st' = overflowOf (errBuff st)
  else
    sent (snd r) = [] /\ outBuff st' = outBuff st /\ errBuff st' = errBuff st.
Proof.
  cbn zeta.
  unfold fragment, checkAndSend, sendBuffers, sendCurrent, countUp, clearout, clearerr,
    bind, modify, get, when, emit, ret, returnsOutput.
  destruct (Str.size (outBuff st) >=? MaxBuffSize) eqn:Ho;
    destruct (Str.size (errBuff st) >=? MaxBuffSize) eqn:He;
    destruct (Str.size (errBuff st) >? 0) eqn:Hpos;
    destruct ((mode (outputStream st) =? "RETURN")
              || (mode (outputStream st) =? "CAPTURE_AND_RETURN"))%string eqn:Hmode;
    destruct (isSilent (getStandardError command)) eqn:Hsilent;
    cbn; rewrite ?Hmode, ?Hsilent; cbn.
  all: Zbool.
  all: try (destruct (packetOf_small (outBuff st)) as [Hpo Hoo]; [lia|]).
  all: try (destruct (packetOf_small (errBuff st)) as [Hpe Hoe]; [lia|]).
  all: rewrite ?Hpo, ?Hoo, ?Hpe, ?Hoe.
  all: repeat split; reflexivity.
Qed.

(** What [checkAndWrite] sends and keeps: [fragment] on the buffers with the
    readers' data appended. *)
Lemma checkAndWrite_rule (command : KACommand) (outOpen errOpen : bool)
    (st : KAThread) :
  let o := (outBuff st ++ buffer (outputStream st))%string in
  let e := (errBuff st ++ buffer (errorStream st))%string in
  let r := checkAndWrite command outOpen errOpen st in
  let st' := snd (fst r) in
  if (Str.size o >=? MaxBuffSize) || (Str.size e >=? MaxBuffSize)
  then
    sent (snd r)
    = (if returnsOutput st || negb (isSilent (getStandardError command))
       then [createResponseMessage (getUuid command) (processpid st)
               (getRequestSequenceNumber command) (responsecount st)
               (if isSilent (getStandardError command) then "" else packetOf e)
               (if returnsOutput st then packetOf o else "")
               (getSource command) (getTaskUuid command)]
       else []) /\
    outBuff st' = overflowOf o /\
    errBuff st' = overflowOf e
  else
    sent (snd r) = [] /\ outBuff st' = o /\ errBuff st' = e.
Proof.
  cbn zeta. unfold checkAndWrite, bind.
  pose proof (gatherBuffers_noSend outOpen errOpen st) as Hg.
  pose proof (gatherBuffers_state outOpen errOpen st) as Hs.
  destruct (gatherBuffers outOpen errOpen st) as [[[] s1] t1].
  cbn [fst snd] in Hg, Hs. subst s1.
  pose proof (fragment_rule command (gathered st)) as Hf. cbn zeta in Hf.
  destruct (fragment command (gathered st)) as [[[] s2] t2].
  cbn [fst snd] in Hf |- *. rewrite sent_app, Hg. exact Hf.
Qed.

(** What [lastCheckAndSend] sends: the two buffers as they are, in one
    message, if a stream that is returned has bytes buffered. *)
Lemma lastCheckAndSend_rule (command : KACommand) (st : KAThread) :
  let r := lastCheckAndSend command st in
  sent (snd r)
  = (if (negb (Str.size (outBuff st) =? 0) && isReturn (getStandardOutput command))
        || (negb (Str.size (errBuff st) =? 0) && isReturn (getStandardError command))
     then [createResponseMessage (getUuid command) (processpid st)
             (getRequestSequenceNumber command) (responsecount st)
             (if isReturn (getStandardError command) then errBuff st else "")
             (if isReturn (getStandardOutput command) then outBuff st else "")
             (getSource command) (getTaskUuid command)]
     else []) /\
  outBuff (snd (fst r)) = "" /\ errBuff (snd (fst r)) = "".
Proof.
  cbn zeta.
  unfold lastCheckAndSend, sendBuffers, sendCurrent, countUp, clearout, clearerr,
    bind, modify, get, emit, ret.
  destruct (Str.size (outBuff st) =? 0) eqn:Ho;
    destruct (Str.size (errBuff st) =? 0) eqn:He;
    destruct (isReturn (getStandardOutput command)) eqn:Hro;
    destruct (isReturn (getStandardError command)) eqn:Hre;
    cbn; rewrite ?Ho, ?He, ?Hro, ?Hre; cbn; rewrite ?Hro, ?Hre; cbn.
  all: Zbool; rewrite ?size_zero in *.
  all: rewrite ?Ho, ?He; repeat split; reflexivity.
Qed.



